(** * s3-backup: the synchronisation planner of [s3_backup], in Rocq

    A shallow embedding of [s3_backup/utils.py], [s3_backup/s3.py] and
    [s3_backup/cli.py].  Python [int] is [Z]; Python [str] is [string],
    one [ascii] per character, its code point: the keys, patterns and
    metadata values the program handles are the strings of code points
    below 256; [dict] literals are association lists in insertion order;
    the bucket contents are a [gmap]; the key set built by [main] is a
    [gset]; the generator [iter_files] is a [Gen].  Calls on the boto3
    client run in a small state-and-exception monad over the bucket
    contents. *)

From Stdlib Require Import ZArith Ascii String List Lia.
From stdpp Require Import gmap strings list.

Local Open Scope Z_scope.

(** ** Python string primitives *)

Module PyStr.

(** [s.startswith(p)] *)
Fixpoint startswith (s p : string) : bool :=
  match p, s with
  | EmptyString, _ => true
  | String b p', String a s' => if Ascii.eqb a b then startswith s' p' else false
  | String _ _, EmptyString => false
  end.

(** [s.lstrip(c)] for a one-character argument *)
Fixpoint lstrip (c : ascii) (s : string) : string :=
  match s with
  | EmptyString => EmptyString
  | String a s' => if Ascii.eqb a c then lstrip c s' else s
  end.

(** [s.rstrip(c)] for a one-character argument *)
Fixpoint rstrip (c : ascii) (s : string) : string :=
  match s with
  | EmptyString => EmptyString
  | String a s' =>
      match rstrip c s' with
      | EmptyString => if Ascii.eqb a c then EmptyString else String a EmptyString
      | r => String a r
      end
  end.

(** [s.strip(c)] *)
Definition strip (c : ascii) (s : string) : string := rstrip c (lstrip c s).

(** The double-quote character. *)
Definition dquote : ascii := "034"%char.

(** Truthiness of a string: [bool(s)] *)
Definition truthy (s : string) : bool :=
  match s with EmptyString => false | String _ _ => true end.

(** [s.split(sep, 1)] for a one-character separator: the part before the
    first separator, and the rest when there is a separator. *)
Fixpoint split1 (sep : ascii) (s : string) : string * option string :=
  match s with
  | EmptyString => (EmptyString, None)
  | String a s' =>
      if Ascii.eqb a sep then (EmptyString, Some s')
      else let '(h, t) := split1 sep s' in (String a h, t)
  end.

(** [s[n:]] *)
Fixpoint drop (n : nat) (s : string) : string :=
  match n, s with
  | O, _ => s
  | S n', String _ s' => drop n' s'
  | S _, EmptyString => EmptyString
  end.

(** Value of a decimal digit character. *)
Definition digit_val (c : ascii) : option Z :=
  let n := Z.of_N (N_of_ascii c) in
  if (48 <=? n) && (n <=? 57) then Some (n - 48) else None.

Definition is_digit_char (c : ascii) : bool :=
  match digit_val c with Some _ => true | None => false end.

Fixpoint all_digits (s : string) : bool :=
  match s with
  | EmptyString => true
  | String a s' => is_digit_char a && all_digits s'
  end.

(** The characters below 256 that [str.isdigit] accepts besides [0] to
    [9]: the superscript digits U+00B2, U+00B3 and U+00B9. They are digits
    but not decimal characters, and [int] rejects them. *)
Definition is_superscript_digit (c : ascii) : bool :=
  let n := Z.of_N (N_of_ascii c) in
  (n =? 178) || (n =? 179) || (n =? 185).

Fixpoint all_isdigit (s : string) : bool :=
  match s with
  | EmptyString => true
  | String a s' => (is_digit_char a || is_superscript_digit a) && all_isdigit s'
  end.

(** [s.isdigit()]: every character is a digit, decimal or not, and there
    is at least one. *)
Definition isdigit (s : string) : bool := truthy s && all_isdigit s.

Fixpoint parse_digits (acc : Z) (s : string) : option Z :=
  match s with
  | EmptyString => Some acc
  | String a s' =>
      match digit_val a with
      | Some d => parse_digits (10 * acc + d) s'
      | None => None
      end
  end.

(** [int(s)] on a string that [isdigit] accepts (the program guards the
    call with it, so no sign, space or underscore reaches [int]): the
    number the decimal digits [0] to [9] write, leading zeros allowed;
    [None] stands for the [ValueError] Python raises when a character is
    not a decimal digit. The limit on the length of the string ([int]
    refuses more than 4300 digits by default) is not modelled. *)
Definition int_of_str (s : string) : option Z :=
  if truthy s then parse_digits 0 s else None.

(** The message of that [ValueError]; the [repr] of a string that
    [isdigit] accepts is the string between single quotes. *)
Definition int_error (s : string) : string :=
  "invalid literal for int() with base 10: '" +:+ s +:+ "'".

Definition digit_char (d : Z) : ascii := ascii_of_N (Z.to_N (48 + d)).

(** The decimal digits of [n >= 0] in front of [acc], least significant
    digit first into the accumulator; [fuel] bounds the number of digits
    after the first. *)
Fixpoint digits (fuel : nat) (n : Z) (acc : string) : string :=
  let acc' := String (digit_char (n mod 10)) acc in
  match fuel with
  | O => acc'
  | S fuel' => if n <? 10 then acc' else digits fuel' (n / 10) acc'
  end.

(** [str(n)] for an [int]: decimal digits, most significant first, with
    a leading minus sign for negative numbers. *)
Definition str_of_int (n : Z) : string :=
  if n <? 0
  then String "-"%char (digits (Z.to_nat (Z.log2 (- n))) (- n) EmptyString)
  else digits (Z.to_nat (Z.log2 n)) n EmptyString.

End PyStr.

(** ** Exceptions and the monad of remote calls *)

(** The ["Error"] entry of a [ClientError] response. *)
Record ErrorInfo := { Code : option string; Message : option string }.

(** The exceptions the program raises or lets through.  All of them are
    subclasses of Python's [Exception]. *)
Inductive Exn :=
| ClientError (error : option ErrorInfo) (msg : string)
| NoCredentialsError (msg : string)
| ProfileNotFound (msg : string)
| RuntimeError (msg : string)
| ValueError (msg : string)
| OtherError (cls : string) (msg : string).

(** [type(e).__name__] *)
Definition exn_class (e : Exn) : string :=
  match e with
  | ClientError _ _ => "ClientError"
  | NoCredentialsError _ => "NoCredentialsError"
  | ProfileNotFound _ => "ProfileNotFound"
  | RuntimeError _ => "RuntimeError"
  | ValueError _ => "ValueError"
  | OtherError cls _ => cls
  end.

(** [str(e)] *)
Definition exn_str (e : Exn) : string :=
  match e with
  | ClientError _ m | NoCredentialsError m | ProfileNotFound m
  | RuntimeError m | ValueError m | OtherError _ m => m
  end.

Inductive Result (A : Type) :=
| Ok (a : A)
| Raise (e : Exn).
Arguments Ok {A} a.
Arguments Raise {A} e.

(** What [head_object] reports about an object; it is also what the bucket
    keeps per key.  Every field may be missing from the response. *)
Record Object := {
  ETag : option string;
  ContentLength : option Z;
  Metadata : option (gmap string string)
}.

(** The remote side: the objects by (bucket, key), and the calls the
    client has issued so far, latest last. *)
Inductive Op :=
| OpHead (bucket key : string)
| OpList (bucket prefix : string)
| OpPut (bucket key : string)
| OpDelete (bucket key : string).

Record Remote := {
  objects : gmap (string * string) Object;
  calls : list Op
}.

(** A computation that may call the remote store and may raise. An
    exception keeps the remote side as it was when it was raised. *)
Definition M (A : Type) : Type := Remote -> Result A * Remote.

Definition ret {A} (a : A) : M A := fun st => (Ok a, st).
Definition raise {A} (e : Exn) : M A := fun st => (Raise e, st).
Definition bind {A B} (m : M A) (k : A -> M B) : M B :=
  fun st =>
    match m st with
    | (Ok a, st') => k a st'
    | (Raise e, st') => (Raise e, st')
    end.

Notation "'let*' x := c 'in' k" := (bind c (fun x => k))
  (at level 10, x pattern, c at level 200, k at level 200, only parsing).

(** [try: m  except Exception-class handler]: [handler e = None] means
    the [except] clause does not match [e]. *)
Definition try_except {A} (m : M A) (handler : Exn -> option (M A)) : M A :=
  fun st =>
    match m st with
    | (Ok a, st') => (Ok a, st')
    | (Raise e, st') =>
        match handler e with
        | Some h => h st'
        | None => (Raise e, st')
        end
    end.

(** [for x in xs: acc = body(acc, x)] *)
Fixpoint for_each {A S} (body : S -> A -> M S) (xs : list A) (acc : S) : M S :=
  match xs with
  | [] => ret acc
  | x :: xs' => let* acc' := body acc x in for_each body xs' acc'
  end.

(** A generator as the loop that drives it sees it: each time it is
    resumed it returns, yields a value, or raises. *)
Inductive Gen (A : Type) :=
| GStop
| GYield (a : A) (rest : Gen A)
| GRaise (e : Exn).
Arguments GStop {A}.
Arguments GYield {A} a rest.
Arguments GRaise {A} e.

(** [for x in gen: acc = body(acc, x)]: the generator is resumed once the
    body is through with the value before; what the generator raises ends
    the loop, after the body has run on everything yielded so far. *)
Fixpoint for_gen {A S} (body : S -> A -> M S) (g : Gen A) (acc : S) : M S :=
  match g with
  | GStop => ret acc
  | GYield x g' => let* acc' := body acc x in for_gen body g' acc'
  | GRaise e => raise e
  end.

(** ** The boto3 client *)

(** What a transfer reads from a local file. *)
Record Body := { body_size : Z; body_etag : string }.

(** The S3 client: which calls fail (permission, throttling, network), and
    what the transfer manager reads from a local path. A call that does
    not fail acts on the store. *)
Record Client := {
  fault : Op -> option Exn;
  file_body : string -> Body;
  page_size : nat
}.

(** The calls of the client on the remote side. A call is recorded, fails
    when the client says so, and otherwise acts on the objects the way S3
    does: a head lookup of a missing key fails with code 404, a put
    replaces the object under the key, a delete removes it, a listing
    returns the keys of the bucket that start with the prefix. *)
Module Boto.

Definition not_found : Exn :=
  ClientError (Some {| Code := Some "404"; Message := Some "Not Found" |})
    "An error occurred (404) when calling the HeadObject operation: Not Found".

Definition record_call (op : Op) (st : Remote) : Remote :=
  {| objects := objects st; calls := calls st ++ [op] |}.

(** Issue [op]: it is recorded, and fails when the client says so. *)
Definition call (c : Client) (op : Op) : M unit :=
  fun st =>
    let st' := record_call op st in
    match fault c op with
    | Some e => (Raise e, st')
    | None => (Ok tt, st')
    end.

Definition get_objects : M (gmap (string * string) Object) :=
  fun st => (Ok (objects st), st).

Definition set_objects (os : gmap (string * string) Object) : M unit :=
  fun st => (Ok tt, {| objects := os; calls := calls st |}).

(** [client.head_object(Bucket=bucket, Key=key)] *)
Definition head_object (c : Client) (bucket key : string) : M Object :=
  let* _ := call c (OpHead bucket key) in
  let* os := get_objects in
  match os !! (bucket, key) with
  | Some o => ret o
  | None => raise not_found
  end.

(** [client.upload_file(local_path, bucket, key, ExtraArgs={"Metadata": md})] *)
Definition upload_file (c : Client) (local_path bucket key : string)
    (md : gmap string string) : M unit :=
  let* _ := call c (OpPut bucket key) in
  let* os := get_objects in
  let b := file_body c local_path in
  set_objects (<[(bucket, key) := {| ETag := Some (body_etag b);
                                     ContentLength := Some (body_size b);
                                     Metadata := Some md |}]> os).

(** [client.delete_object(Bucket=bucket, Key=key)] *)
Definition delete_object (c : Client) (bucket key : string) : M unit :=
  let* _ := call c (OpDelete bucket key) in
  let* os := get_objects in
  set_objects (delete (bucket, key) os).

(** The keys of [bucket] that start with [prefix]. *)
Definition matching_keys (os : gmap (string * string) Object)
    (bucket prefix : string) : list string :=
  omap (fun '((b, k), _) =>
          if bool_decide (b = bucket) && PyStr.startswith k prefix
          then Some k else None)
       (map_to_list os).

(** Cut a listing into pages of at most [S n] entries. *)
Fixpoint paginate_go {A} (n : nat) (l : list A) (room : nat) (cur : list A)
    : list (list A) :=
  match l with
  | [] => match cur with [] => [] | _ => [rev cur] end
  | x :: l' =>
      match room with
      | O => rev (x :: cur) :: paginate_go n l' n []
      | S room' => paginate_go n l' room' (x :: cur)
      end
  end.

(** [client.get_paginator("list_objects_v2").paginate(Bucket=, Prefix=)]:
    the pages, each with its ["Contents"] (absent on an empty listing). *)
Definition paginate (c : Client) (bucket prefix : string)
    : M (list (option (list string))) :=
  let* _ := call c (OpList bucket prefix) in
  let* os := get_objects in
  match paginate_go (pred (page_size c)) (matching_keys os bucket prefix)
                    (pred (page_size c)) [] with
  | [] => ret [None]
  | ps => ret (map Some ps)
  end.

End Boto.

(** ** s3_backup/s3.py *)

(** Python values that occur in the action and summary dicts. *)
Inductive value :=
| VStr (s : string)
| VBool (b : bool)
| VInt (n : Z).

#[global] Instance value_eq_dec : EqDecision value.
Proof. solve_decision. Defined.

(** A [dict] literal with string keys, in insertion order. *)
Abbreviation dict := (list (string * value)).

Fixpoint dict_get (d : dict) (k : string) : option value :=
  match d with
  | [] => None
  | (k', v) :: d' => if String.eqb k' k then Some v else dict_get d' k
  end.

Definition dict_keys (d : dict) : list string := map fst d.

Definition head_object_etag_size_mtime (client : Client) (bucket key : string)
    : M (option (string * Z * option Z)) :=
  try_except
    (let* r := Boto.head_object client bucket key in
     let etag := PyStr.strip PyStr.dquote (default EmptyString (ETag r)) in
     let size := default 0 (ContentLength r) in
     let meta := default ∅ (Metadata r) in
     let mtime := meta !! "mtime" in
     match mtime with
     | Some s =>
         if PyStr.truthy s && PyStr.isdigit s then
           match PyStr.int_of_str s with
           | Some n => ret (Some (etag, size, Some n))
           | None => raise (ValueError (PyStr.int_error s))
           end
         else ret (Some (etag, size, None))
     | None => ret (Some (etag, size, None))
     end)
    (fun e =>
       match e with
       | ClientError err _ =>
           let code := default EmptyString (err ≫= Code) in
           Some (if bool_decide (code ∈ ["404"; "NoSuchKey"; "NotFound"])
                 then ret None
                 else raise e)
       | _ => None
       end).

Definition list_objects_keys (client : Client) (bucket prefix : string)
    : M (list string) :=
  let* pages := Boto.paginate client bucket prefix in
  ret (concat (map (fun page => default [] page) pages)).

Definition upload_file (client : Client) (bucket key local_path : string)
    (mtime_epoch : Z) (dry_run : bool) : M dict :=
  if dry_run then
    ret [("action", VStr "upload"); ("bucket", VStr bucket); ("key", VStr key);
         ("local", VStr local_path); ("dry_run", VBool true)]
  else
    let extra := {[ "mtime" := PyStr.str_of_int mtime_epoch ]} in
    let* _ := Boto.upload_file client local_path bucket key extra in
    ret [("action", VStr "upload"); ("bucket", VStr bucket); ("key", VStr key);
         ("local", VStr local_path); ("dry_run", VBool false)].

Definition delete_object (client : Client) (bucket key : string) (dry_run : bool)
    : M dict :=
  if dry_run then
    ret [("action", VStr "delete"); ("bucket", VStr bucket); ("key", VStr key);
         ("dry_run", VBool true)]
  else
    let* _ := Boto.delete_object client bucket key in
    ret [("action", VStr "delete"); ("bucket", VStr bucket); ("key", VStr key);
         ("dry_run", VBool false)].

(** ** The host: the local file system, the glob matcher, and AWS access *)

(** What the program reads from the result of [p.stat()]:
    [int(st.st_size)] and [int(st.st_mtime)]. *)
Record Stat := { st_size : Z; st_mtime : Z }.

(** One path produced by [root.rglob("*")], with what the program reads
    from it: [str(p)], [relative_to(root).as_posix()], [is_dir()] (false
    for a path that cannot be followed, such as a dangling symbolic link),
    and [stat()], which raises on such a path. *)
Record DirEntry := {
  entry_path : string;
  entry_rel : string;
  entry_is_dir : bool;
  entry_stat : Result Stat
}.

Record Host := {
  (** [fnmatch.fnmatch(name, pattern)] of the standard library *)
  fnmatch : string -> string -> bool;
  (** [Path(p).expanduser().resolve()] *)
  resolve : string -> string;
  path_exists : string -> bool;
  path_is_dir : string -> bool;
  (** [root.rglob("*")] *)
  rglob : string -> list DirEntry;
  (** [session.client("sts").get_caller_identity()] for a profile name:
      the exception it raises, if any *)
  get_caller_identity : option string -> option Exn;
  (** [session.client("s3", region_name=region)] *)
  connect : option string -> string -> Client
}.

(** [session(profile)]: an empty profile name selects the default session. *)
Definition session (profile : option string) : option string :=
  match profile with
  | Some p => if PyStr.truthy p then Some p else None
  | None => None
  end.

Definition s3_client (h : Host) (profile : option string) (region : string) : Client :=
  connect h (session profile) region.

Definition validate_creds (h : Host) (profile : option string) : Result unit :=
  match get_caller_identity h (session profile) with
  | None => Ok tt
  | Some (NoCredentialsError m) =>
      Raise (RuntimeError ("AWS credentials/profile error: " +:+ m))
  | Some (ProfileNotFound m) =>
      Raise (RuntimeError ("AWS credentials/profile error: " +:+ m))
  | Some e => Raise e
  end.

(** ** s3_backup/utils.py *)

Module FileItem.
Record t := {
  path : string;
  rel : string;
  size : Z;
  mtime : Z
}.
End FileItem.

Fixpoint is_excluded (h : Host) (rel_posix : string) (excludes : list string) : bool :=
  match excludes with
  | [] => false
  | pattern :: rest =>
      if fnmatch h rel_posix pattern then true else is_excluded h rel_posix rest
  end.

(** The body of the [for p in root.rglob("*")] loop, over the entries:
    [stat()] is called on an entry that is neither a directory nor
    excluded, and what it raises ends the generator there. *)
Fixpoint iter_entries (h : Host) (entries : list DirEntry) (excludes : list string)
    : Gen FileItem.t :=
  match entries with
  | [] => GStop
  | p :: rest =>
      if entry_is_dir p then iter_entries h rest excludes
      else
        let rel := entry_rel p in
        if is_excluded h rel excludes then iter_entries h rest excludes
        else
          match entry_stat p with
          | Ok st =>
              GYield {| FileItem.path := entry_path p; FileItem.rel := rel;
                        FileItem.size := st_size st; FileItem.mtime := st_mtime st |}
                     (iter_entries h rest excludes)
          | Raise e => GRaise e
          end
  end.

Definition iter_files (h : Host) (root : string) (excludes : list string)
    : Gen FileItem.t :=
  let root := resolve h root in
  iter_entries h (rglob h root) excludes.

Definition join_s3_key (prefix rel_posix : string) : string :=
  let prefix := PyStr.strip "/" prefix in
  if negb (PyStr.truthy prefix) then rel_posix
  else prefix +:+ "/" +:+ rel_posix.

(** ** s3_backup/cli.py *)

Definition EXIT_OK : Z := 0.
Definition EXIT_ERROR : Z := 2.

Module Args.
(** The namespace [build_parser().parse_args(argv)] returns for [sync]. *)
Record t := {
  profile : option string;
  region : string;
  json : bool;
  log_level : string;
  cmd : string;
  local_dir : string;
  s3_uri : string;
  exclude : list string;
  dry_run : bool;
  delete : bool;
  strategy : string
}.
End Args.

Definition parse_s3_uri (uri : string) : Result (string * string) :=
  if negb (PyStr.startswith uri "s3://") then
    Raise (ValueError "s3_uri must start with s3://bucket/prefix")
  else
    let rest := PyStr.drop 5 uri in
    let parts := PyStr.split1 "/" rest in
    let bucket := fst parts in
    let prefix := default EmptyString (snd parts) in
    let prefix := PyStr.strip "/" prefix in
    if negb (PyStr.truthy bucket) then
      Raise (ValueError "Invalid s3_uri: missing bucket")
    else Ok (bucket, prefix).

(** The variables [main] updates while it plans. *)
Record Tally := {
  actions : list dict;
  uploaded : Z;
  skipped : Z;
  deleted : Z;
  local_key_set : gset string
}.

Definition tally0 : Tally :=
  {| actions := []; uploaded := 0; skipped := 0; deleted := 0; local_key_set := ∅ |}.

(** Lines 83-88: the comparison of a present remote object with the file. *)
Definition should_upload (strategy : string) (r_size : Z) (r_mtime : option Z)
    (f : FileItem.t) : bool :=
  if String.eqb strategy "size-only" then
    negb (r_size =? FileItem.size f)
  else
    negb (r_size =? FileItem.size f)
    || bool_decide (r_mtime = None)
    || negb (bool_decide (r_mtime = Some (FileItem.mtime f))).

(** Lines 72-94: the body of the loop over the local files. *)
Definition sync_file (client : Client) (args : Args.t) (bucket prefix : string)
    (t : Tally) (f : FileItem.t) : M Tally :=
  let key := join_s3_key prefix (FileItem.rel f) in
  let keys := {[ key ]} ∪ local_key_set t in
  let* remote := head_object_etag_size_mtime client bucket key in
  match remote with
  | None =>
      let* a := upload_file client bucket key (FileItem.path f) (FileItem.mtime f)
                  (Args.dry_run args) in
      ret {| actions := actions t ++ [a]; uploaded := uploaded t + 1;
             skipped := skipped t; deleted := deleted t; local_key_set := keys |}
  | Some (_etag, r_size, r_mtime) =>
      if should_upload (Args.strategy args) r_size r_mtime f then
        let* a := upload_file client bucket key (FileItem.path f) (FileItem.mtime f)
                    (Args.dry_run args) in
        ret {| actions := actions t ++ [a]; uploaded := uploaded t + 1;
               skipped := skipped t; deleted := deleted t; local_key_set := keys |}
      else
        ret {| actions := actions t; uploaded := uploaded t;
               skipped := skipped t + 1; deleted := deleted t; local_key_set := keys |}
  end.

(** Lines 103-105: the body of the loop over the listed remote keys. *)
Definition delete_stale (client : Client) (args : Args.t) (bucket : string)
    (t : Tally) (k : string) : M Tally :=
  if negb (bool_decide (k ∈ local_key_set t)) then
    let* a := delete_object client bucket k (Args.dry_run args) in
    ret {| actions := actions t ++ [a]; uploaded := uploaded t;
           skipped := skipped t; deleted := deleted t + 1;
           local_key_set := local_key_set t |}
  else ret t.

(** Lines 96-105: the deletion phase. *)
Definition delete_phase (client : Client) (args : Args.t) (bucket prefix : string)
    (t : Tally) : M Tally :=
  if Args.delete args then
    let list_prefix := if PyStr.truthy prefix then prefix +:+ "/" else EmptyString in
    let* remote_keys := list_objects_keys client bucket list_prefix in
    for_each (delete_stale client args bucket) remote_keys t
  else ret t.

Definition lift {A} (r : Result A) : M A :=
  fun st => (r, st).

(** What a finished [sync] hands to the printing code: the summary dict,
    the action list, and the variables the text output prints. *)
Record Report := {
  summary : dict;
  report_actions : list dict;
  report_bucket : string;
  report_prefix : string;
  report_uploaded : Z;
  report_skipped : Z;
  report_deleted : Z
}.

(** Lines 55-126: the body of the [try] block; [None] is the fall-through
    [return EXIT_ERROR] of a command other than [sync]. *)
Definition sync (h : Host) (args : Args.t) : M (option Report) :=
  let* _ := lift (validate_creds h (Args.profile args)) in
  if String.eqb (Args.cmd args) "sync" then
    let local_root := resolve h (Args.local_dir args) in
    if negb (path_exists h local_root) || negb (path_is_dir h local_root) then
      raise (ValueError ("local_dir not found or not a directory: " +:+ local_root))
    else
      let* (bucket, prefix) := lift (parse_s3_uri (Args.s3_uri args)) in
      let client := s3_client h (Args.profile args) (Args.region args) in
      let* t := for_gen (sync_file client args bucket prefix)
                  (iter_files h local_root (Args.exclude args)) tally0 in
      let* t := delete_phase client args bucket prefix t in
      let summary :=
        [("cmd", VStr "sync"); ("local_dir", VStr local_root);
         ("bucket", VStr bucket); ("prefix", VStr prefix);
         ("dry_run", VBool (Args.dry_run args));
         ("uploaded", VInt (uploaded t)); ("skipped", VInt (skipped t));
         ("deleted", VInt (deleted t));
         ("total_actions", VInt (Z.of_nat (length (actions t))))] in
      ret (Some {| summary := summary; report_actions := actions t;
                   report_bucket := bucket; report_prefix := prefix;
                   report_uploaded := uploaded t; report_skipped := skipped t;
                   report_deleted := deleted t |})
  else ret None.

(** What [main] writes: the JSON document (kept structured), or the two
    text lines; and the message it logs on an exception. *)
Inductive Printed :=
| PrintedJson (summary : dict) (actions : list dict)
| PrintedText (lines : list string).

Record Outcome := {
  exit_code : Z;
  printed : option Printed;
  logged_error : option string
}.

Definition str_of_bool (b : bool) : string := if b then "True" else "False".

Definition main (h : Host) (args : Args.t) (st : Remote) : Outcome * Remote :=
  match sync h args st with
  | (Ok (Some r), st') =>
      let out :=
        if Args.json args then PrintedJson (summary r) (report_actions r)
        else PrintedText
               [ "SYNC -> s3://" +:+ report_bucket r +:+ "/" +:+ report_prefix r;
                 "uploaded=" +:+ PyStr.str_of_int (report_uploaded r)
                 +:+ " skipped=" +:+ PyStr.str_of_int (report_skipped r)
                 +:+ " deleted=" +:+ PyStr.str_of_int (report_deleted r)
                 +:+ " dry_run=" +:+ str_of_bool (Args.dry_run args) ] in
      ({| exit_code := EXIT_OK; printed := Some out; logged_error := None |}, st')
  | (Ok None, st') =>
      ({| exit_code := EXIT_ERROR; printed := None; logged_error := None |}, st')
  | (Raise e, st') =>
      ({| exit_code := EXIT_ERROR; printed := None; logged_error := Some (exn_str e) |}, st')
  end.

(** ** A glob matcher for concrete runs

    The theorems below hold for whatever matcher the host provides. To run
    the program on concrete inputs, [Glob.fnmatchcase] gives the matcher of
    a POSIX host (where [os.path.normcase] changes nothing): [*] matches
    any run of characters, [?] one character, [[seq]] and [[!seq]] a
    character in or out of a set with ranges, an unclosed bracket is literal, and
    any other character matches itself. *)

Module Glob.

Inductive token :=
| TStar
| TAny
| TChar (c : ascii)
| TClass (negated : bool) (ranges : list (ascii * ascii)).

(** The characters of a bracket expression up to its closing bracket; a
    bracket in first position is a member of the set. *)
Fixpoint class_body (s : string) (first : bool) (acc : list ascii)
    : option (list ascii * string) :=
  match s with
  | EmptyString => None
  | String a s' =>
      if Ascii.eqb a "]" && negb first then Some (rev acc, s')
      else class_body s' false (a :: acc)
  end.

Fixpoint ranges (l : list ascii) : list (ascii * ascii) :=
  match l with
  | [] => []
  | lo :: tl =>
      match tl with
      | dash :: hi :: l' =>
          if Ascii.eqb dash "-" then (lo, hi) :: ranges l'
          else (lo, lo) :: ranges tl
      | _ => (lo, lo) :: ranges tl
      end
  end.

Fixpoint tokens (fuel : nat) (pat : string) : list token :=
  match fuel, pat with
  | O, _ => []
  | _, EmptyString => []
  | S fuel', String c pat' =>
      if Ascii.eqb c "*" then TStar :: tokens fuel' pat'
      else if Ascii.eqb c "?" then TAny :: tokens fuel' pat'
      else if Ascii.eqb c "[" then
        let '(negated, body) :=
          match pat' with
          | String b rest => if Ascii.eqb b "!" then (true, rest) else (false, pat')
          | EmptyString => (false, pat')
          end in
        match class_body body true [] with
        | Some (members, rest) => TClass negated (ranges members) :: tokens fuel' rest
        | None => TChar c :: tokens fuel' pat'
        end
      else TChar c :: tokens fuel' pat'
  end.

Definition in_range (a : ascii) (r : ascii * ascii) : bool :=
  (N_of_ascii (fst r) <=? N_of_ascii a)%N && (N_of_ascii a <=? N_of_ascii (snd r))%N.

Fixpoint matches (p : list token) (s : string) : bool :=
  match p with
  | [] => negb (PyStr.truthy s)
  | TStar :: p' =>
      (fix star (s : string) : bool :=
         matches p' s
         || match s with
            | EmptyString => false
            | String _ s' => star s'
            end) s
  | TAny :: p' =>
      match s with
      | EmptyString => false
      | String _ s' => matches p' s'
      end
  | TChar c :: p' =>
      match s with
      | EmptyString => false
      | String a s' => Ascii.eqb a c && matches p' s'
      end
  | TClass negated rs :: p' =>
      match s with
      | EmptyString => false
      | String a s' => xorb negated (existsb (in_range a) rs) && matches p' s'
      end
  end.

Definition fnmatchcase (name pat : string) : bool :=
  matches (tokens (String.length pat) pat) name.

End Glob.

(** ** A concrete run: the example scenario

    The local root holds [a.txt] (100 bytes, mtime 1000), [b.log] (50
    bytes) and a directory; the bucket holds [a.txt] (size 100, stored
    mtime 1000), [old.txt] and [b.log]; the exclusion pattern is [*.log]. *)

Module Demo.

Definition client : Client :=
  {| fault := fun _ => None;
     file_body := fun p => {| body_size := 100; body_etag := String PyStr.dquote ("abc" +:+ String PyStr.dquote EmptyString) |};
     page_size := 1000 |}.

Definition entry_a : DirEntry :=
  {| entry_path := "/data/a.txt"; entry_rel := "a.txt"; entry_is_dir := false;
     entry_stat := Ok {| st_size := 100; st_mtime := 1000 |} |}.

Definition entry_sub : DirEntry :=
  {| entry_path := "/data/sub"; entry_rel := "sub"; entry_is_dir := true;
     entry_stat := Ok {| st_size := 4096; st_mtime := 900 |} |}.

Definition entry_b : DirEntry :=
  {| entry_path := "/data/b.log"; entry_rel := "b.log"; entry_is_dir := false;
     entry_stat := Ok {| st_size := 50; st_mtime := 1200 |} |}.

Definition entries : list DirEntry := [entry_a; entry_sub; entry_b].

Definition host : Host :=
  {| fnmatch := Glob.fnmatchcase;
     resolve := fun p => p;
     path_exists := fun p => String.eqb p "/data";
     path_is_dir := fun p => String.eqb p "/data";
     rglob := fun p => if String.eqb p "/data" then entries else [];
     get_caller_identity := fun _ => None;
     connect := fun _ _ => client |}.

Definition args : Args.t :=
  {| Args.profile := None; Args.region := "ap-southeast-2"; Args.json := true;
     Args.log_level := "INFO"; Args.cmd := "sync"; Args.local_dir := "/data";
     Args.s3_uri := "s3://bkt"; Args.exclude := ["*.log"];
     Args.dry_run := false; Args.delete := true; Args.strategy := "size-mtime" |}.

Definition obj (sz : Z) (mt : option string) : Object :=
  {| ETag := Some (String PyStr.dquote ("e1" +:+ String PyStr.dquote EmptyString)); ContentLength := Some sz;
     Metadata := Some (match mt with
                       | Some m => {[ "mtime" := m ]}
                       | None => ∅
                       end) |}.

Definition remote : Remote :=
  {| objects := <[("bkt", "a.txt") := obj 100 (Some "1000")]>
                (<[("bkt", "old.txt") := obj 7 None]>
                 (<[("bkt", "b.log") := obj 50 (Some "1200")]> ∅));
     calls := [] |}.

(** The bucket of the example scenario as the specification gives it:
    only [a.txt] and [old.txt]. *)
Definition remote_two (mt : option string) : Remote :=
  {| objects := <[("bkt", "a.txt") := obj 100 mt]>
                (<[("bkt", "old.txt") := obj 7 None]> ∅);
     calls := [] |}.

(** The scanned file [a.txt]. *)
Definition file_a : FileItem.t :=
  {| FileItem.path := "/data/a.txt"; FileItem.rel := "a.txt";
     FileItem.size := 100; FileItem.mtime := 1000 |}.

Definition with_args (local_dir strategy : string) (dry_run : bool) : Args.t :=
  {| Args.profile := None; Args.region := "ap-southeast-2"; Args.json := true;
     Args.log_level := "INFO"; Args.cmd := "sync"; Args.local_dir := local_dir;
     Args.s3_uri := "s3://bkt"; Args.exclude := ["*.log"];
     Args.dry_run := dry_run; Args.delete := true; Args.strategy := strategy |}.

(** The same run over a directory that does not exist. *)
Definition args_missing : Args.t := with_args "/missing" "size-mtime" false.

Definition args_dry : Args.t := with_args "/data" "size-mtime" true.

Definition args_size_only : Args.t := with_args "/data" "size-only" false.

Definition access_denied : Exn :=
  ClientError (Some {| Code := Some "403"; Message := Some "Forbidden" |})
    "An error occurred (403) when calling the HeadObject operation: Forbidden".

Definition no_such_key : Exn :=
  ClientError (Some {| Code := Some "NoSuchKey"; Message := None |})
    "An error occurred (NoSuchKey) when calling the HeadObject operation".

(** A host whose client fails every head lookup with [e]. *)
Definition host_failing (e : Exn) : Host :=
  {| fnmatch := Glob.fnmatchcase;
     resolve := fun p => p;
     path_exists := fun p => String.eqb p "/data";
     path_is_dir := fun p => String.eqb p "/data";
     rglob := fun p => if String.eqb p "/data" then entries else [];
     get_caller_identity := fun _ => None;
     connect := fun _ _ =>
       {| fault := fun op => match op with OpHead _ _ => Some e | _ => None end;
          file_body := file_body client;
          page_size := 1000 |} |}.

(** The run of the scenario with other flags and another target. *)
Definition args_with (s3_uri : string) (dry_run delete : bool) : Args.t :=
  {| Args.profile := None; Args.region := "ap-southeast-2"; Args.json := true;
     Args.log_level := "INFO"; Args.cmd := "sync"; Args.local_dir := "/data";
     Args.s3_uri := s3_uri; Args.exclude := ["*.log"];
     Args.dry_run := dry_run; Args.delete := delete; Args.strategy := "size-mtime" |}.

(** A host like [host] whose credentials check ends with [creds] and whose
    client fails the calls that [failing] selects with [e]. *)
Definition host_with (creds : option Exn) (failing : Op -> bool) (e : Exn) : Host :=
  {| fnmatch := Glob.fnmatchcase;
     resolve := fun p => p;
     path_exists := fun p => String.eqb p "/data";
     path_is_dir := fun p => String.eqb p "/data";
     rglob := fun p => if String.eqb p "/data" then entries else [];
     get_caller_identity := fun _ => creds;
     connect := fun _ _ =>
       {| fault := fun op => if failing op then Some e else None;
          file_body := file_body client;
          page_size := 1000 |} |}.

(** A file last modified before 1970. *)
Definition file_old : FileItem.t :=
  {| FileItem.path := "/data/old.dat"; FileItem.rel := "old.dat";
     FileItem.size := 100; FileItem.mtime := -86400 |}.

(** The one-character string made of the superscript two, U+00B2. *)
Definition superscript_two : string := String "178"%char EmptyString.

(** A dangling symbolic link in the local root: [is_dir()] is false and
    [stat()] raises. *)
Definition no_such_file : Exn :=
  OtherError "FileNotFoundError" "[Errno 2] No such file or directory: '/data/link'".

Definition entry_link : DirEntry :=
  {| entry_path := "/data/link"; entry_rel := "link"; entry_is_dir := false;
     entry_stat := Raise no_such_file |}.

(** The host of the scenario over another content of the local root. *)
Definition host_scanning (es : list DirEntry) : Host :=
  {| fnmatch := Glob.fnmatchcase;
     resolve := fun p => p;
     path_exists := fun p => String.eqb p "/data";
     path_is_dir := fun p => String.eqb p "/data";
     rglob := fun p => if String.eqb p "/data" then es else [];
     get_caller_identity := fun _ => None;
     connect := fun _ _ => client |}.

(** The run of the scenario with other exclusion patterns. *)
Definition args_excluding (exclude : list string) : Args.t :=
  {| Args.profile := None; Args.region := "ap-southeast-2"; Args.json := true;
     Args.log_level := "INFO"; Args.cmd := "sync"; Args.local_dir := "/data";
     Args.s3_uri := "s3://bkt"; Args.exclude := exclude;
     Args.dry_run := false; Args.delete := true; Args.strategy := "size-mtime" |}.

End Demo.

(** ** The vocabulary of the properties *)

(** The not-found codes of the [except ClientError] clause. *)
Definition is_not_found (e : Exn) : bool :=
  match e with
  | ClientError err _ =>
      bool_decide (default EmptyString (err ≫= Code) ∈ ["404"; "NoSuchKey"; "NotFound"])
  | _ => false
  end.

(** The value of the ["mtime"] metadata entry of an object, if any. *)
Definition mtime_entry (o : Object) : option string :=
  default ∅ (Metadata o) !! "mtime".

(** The values a generator yields before it returns or raises, and what
    it raises, if it does. *)
Fixpoint yielded {A} (g : Gen A) : list A :=
  match g with
  | GStop => []
  | GYield a g' => a :: yielded g'
  | GRaise _ => []
  end.

Fixpoint failure {A} (g : Gen A) : option Exn :=
  match g with
  | GStop => None
  | GYield _ g' => failure g'
  | GRaise e => Some e
  end.

(** The ["mtime"] entry of the object is one a head lookup can report:
    it is missing, or [isdigit] rejects it, or [int] accepts it. *)
Definition mtime_readable (o : Object) : bool :=
  match mtime_entry o with
  | Some s =>
      if PyStr.isdigit s
      then match PyStr.int_of_str s with Some _ => true | None => false end
      else true
  | None => true
  end.

(** What a head lookup reports for a stored object whose ["mtime"] entry
    is readable. *)
Definition head_view (o : Object) : string * Z * option Z :=
  (PyStr.strip PyStr.dquote (default EmptyString (ETag o)),
   default 0 (ContentLength o),
   match mtime_entry o with
   | Some s => if PyStr.isdigit s then PyStr.int_of_str s else None
   | None => None
   end).

Ltac run_m :=
  unfold head_object_etag_size_mtime, list_objects_keys, upload_file, delete_object,
    Boto.head_object, Boto.upload_file, Boto.delete_object, Boto.paginate,
    Boto.call, Boto.get_objects, Boto.set_objects, try_except, bind, ret, raise, lift;
  simpl.

(** What a head lookup returns, by the fault of the call, if any, and the
    object under the key, if any. *)
Definition head_outcome (c : Client) (b k : string) (o : option Object)
    : Result (option (string * Z * option Z)) :=
  match fault c (OpHead b k) with
  | Some e => if is_not_found e then Ok None else Raise e
  | None =>
      match o with
      | None => Ok None
      | Some o =>
          if mtime_readable o then Ok (Some (head_view o))
          else Raise (ValueError (PyStr.int_error (default EmptyString (mtime_entry o))))
      end
  end.

(** The record an upload appends to the action list. *)
Definition upload_record (bucket key local_path : string) (dry_run : bool) : dict :=
  [("action", VStr "upload"); ("bucket", VStr bucket); ("key", VStr key);
   ("local", VStr local_path); ("dry_run", VBool dry_run)].

(** The record a deletion appends to the action list. *)
Definition delete_record (bucket key : string) (dry_run : bool) : dict :=
  [("action", VStr "delete"); ("bucket", VStr bucket); ("key", VStr key);
   ("dry_run", VBool dry_run)].

(** The object a live upload stores. *)
Definition uploaded_object (c : Client) (local_path : string) (m : Z) : Object :=
  {| ETag := Some (body_etag (file_body c local_path));
     ContentLength := Some (body_size (file_body c local_path));
     Metadata := Some {[ "mtime" := PyStr.str_of_int m ]} |}.

(** The tally after an upload of [f] under [key], and after a skip. *)
Definition planned_upload (args : Args.t) (bucket key : string) (f : FileItem.t)
    (t t' : Tally) : Prop :=
  actions t' = actions t ++ [upload_record bucket key (FileItem.path f) (Args.dry_run args)]
  /\ uploaded t' = uploaded t + 1 /\ skipped t' = skipped t.

Definition planned_skip (t t' : Tally) : Prop :=
  actions t' = actions t /\ uploaded t' = uploaded t /\ skipped t' = skipped t + 1.

(** The key of a local file. *)
Definition key_of (prefix : string) (f : FileItem.t) : string :=
  join_s3_key prefix (FileItem.rel f).

(** The keys [main] has collected once it has gone through [files]. *)
Definition local_keys (prefix : string) (files : list FileItem.t) : gset string :=
  list_to_set (map (key_of prefix) files).

Definition action_kind (a : dict) : option value := dict_get a "action".
Definition action_key (a : dict) : option value := dict_get a "key".

(** Objects are only added or replaced. *)
Definition keeps_objects (st st' : Remote) : Prop :=
  forall bk, is_Some (objects st !! bk) -> is_Some (objects st' !! bk).

(** The prefix the deletion phase lists. *)
Definition list_prefix_of (prefix : string) : string :=
  if PyStr.truthy prefix then prefix +:+ "/" else EmptyString.


(** Calls that read the remote side. *)
Definition is_read (op : Op) : bool :=
  match op with
  | OpHead _ _ | OpList _ _ => true
  | OpPut _ _ | OpDelete _ _ => false
  end.

(** From [st] to [st'] the objects are the same and only reads were issued. *)
Definition reads_only (st st' : Remote) : Prop :=
  objects st' = objects st
  /\ exists l, calls st' = calls st ++ l /\ Forall (fun op => is_read op = true) l.

(** [c in s] *)
Fixpoint has_char (c : ascii) (s : string) : bool :=
  match s with
  | EmptyString => false
  | String a s' => Ascii.eqb a c || has_char c s'
  end.

(** The last character of a string, if any. *)
Fixpoint last_char (s : string) : option ascii :=
  match s with
  | EmptyString => None
  | String a EmptyString => Some a
  | String _ s' => last_char s'
  end.

(** The item [iter_files] yields for a scanned entry whose [stat()]
    returns [st]. *)
Definition item_of_entry (p : DirEntry) (st : Stat) : FileItem.t :=
  {| FileItem.path := entry_path p; FileItem.rel := entry_rel p;
     FileItem.size := st_size st; FileItem.mtime := st_mtime st |}.



(** From [st] to [st']: every call issued satisfies [P]; an object differs
    only under a key for which [P] allows a put or a delete; an object is
    gone only under a key for which [P] allows a delete. *)
Definition effect (P : Op -> Prop) (st st' : Remote) : Prop :=
  (exists l, calls st' = calls st ++ l /\ Forall P l)
  /\ (forall b k, ~ P (OpPut b k) -> ~ P (OpDelete b k) ->
                  objects st' !! (b, k) = objects st !! (b, k))
  /\ (forall b k, ~ P (OpDelete b k) ->
                  is_Some (objects st !! (b, k)) -> is_Some (objects st' !! (b, k))).

(** The calls a run with [args] on [h] can issue: a head lookup or, in a
    live run, a put on the key of a file the scan yields; with the delete flag, the
    listing of the prefix and, in a live run, the deletion of a key under
    the listed prefix that is not the key of a scanned file. *)
Definition allowed_call (h : Host) (args : Args.t) (op : Op) : Prop :=
  exists bucket prefix,
    parse_s3_uri (Args.s3_uri args) = Ok (bucket, prefix)
    /\ let keys := local_keys prefix
                     (yielded (iter_files h (resolve h (Args.local_dir args))
                                 (Args.exclude args))) in
       match op with
       | OpHead b k => b = bucket /\ k ∈ keys
       | OpPut b k => b = bucket /\ k ∈ keys /\ Args.dry_run args = false
       | OpList b p =>
           b = bucket /\ p = list_prefix_of prefix /\ Args.delete args = true
       | OpDelete b k =>
           b = bucket /\ (k ∉ keys)
           /\ PyStr.startswith k (list_prefix_of prefix) = true
           /\ Args.delete args = true /\ Args.dry_run args = false
       end.

Definition is_head (op : Op) : bool :=
  match op with OpHead _ _ => true | _ => false end.

Definition is_list (op : Op) : bool :=
  match op with OpList _ _ => true | _ => false end.

(** Calls that change the remote store. *)
Definition is_mutation (op : Op) : bool :=
  match op with OpPut _ _ | OpDelete _ _ => true | _ => false end.

(** The call that carries out a recorded action in a live run. *)
Definition action_call (a : dict) : option Op :=
  match dict_get a "action", dict_get a "bucket", dict_get a "key" with
  | Some (VStr kind), Some (VStr b), Some (VStr k) =>
      if String.eqb kind "upload" then Some (OpPut b k)
      else if String.eqb kind "delete" then Some (OpDelete b k)
      else None
  | _, _, _ => None
  end.

(** The object [o] passes for an up-to-date copy of [f]: a head lookup
    can report it, and what it reports does not make [should_upload] ask
    for an upload. *)
Definition synced (args : Args.t) (f : FileItem.t) (o : Object) : Prop :=
  mtime_readable o = true
  /\ should_upload (Args.strategy args) (snd (fst (head_view o))) (snd (head_view o)) f
     = false.

(** The same arguments with the dry-run flag set to [d]. *)
Definition with_dry_run (args : Args.t) (d : bool) : Args.t :=
  {| Args.profile := Args.profile args; Args.region := Args.region args;
     Args.json := Args.json args; Args.log_level := Args.log_level args;
     Args.cmd := Args.cmd args; Args.local_dir := Args.local_dir args;
     Args.s3_uri := Args.s3_uri args; Args.exclude := Args.exclude args;
     Args.dry_run := d; Args.delete := Args.delete args;
     Args.strategy := Args.strategy args |}.

(** An action record with its [dry_run] entry set. *)
Definition as_dry (a : dict) : dict :=
  map (fun kv => if String.eqb (fst kv) "dry_run" then (fst kv, VBool true) else kv) a.

(** * Properties *)

(** ** Strings and numbers *)

Section PyStrFacts.
Import PyStr.

Lemma lstrip_idem c s : lstrip c (lstrip c s) = lstrip c s.
Proof.
  induction s as [|a s IH]; simpl; [reflexivity|].
  destruct (Ascii.eqb a c) eqn:E; [exact IH|].
  simpl. now rewrite E.
Qed.

Lemma rstrip_idem c s : rstrip c (rstrip c s) = rstrip c s.
Proof.
  induction s as [|a s IH]; simpl; [reflexivity|].
  destruct (rstrip c s) as [|b r] eqn:R.
  - destruct (Ascii.eqb a c) eqn:E; simpl; [reflexivity|]. now rewrite E.
  - simpl in *. now rewrite IH.
Qed.

(** Stripping on the right leaves a string that does not start with [c]
    that way. *)
Lemma lstrip_rstrip_lstrip c s : lstrip c (rstrip c (lstrip c s)) = rstrip c (lstrip c s).
Proof.
  induction s as [|a s IH]; simpl; [reflexivity|].
  destruct (Ascii.eqb a c) eqn:E; [exact IH|].
  simpl. destruct (rstrip c s) as [|b r]; rewrite ?E; simpl; now rewrite E.
Qed.

Lemma strip_idem c s : strip c (strip c s) = strip c s.
Proof.
  unfold strip. now rewrite lstrip_rstrip_lstrip, rstrip_idem.
Qed.

Lemma startswith_app p s : startswith (p +:+ s) p = true.
Proof.
  induction p as [|a p IH]; simpl; [now destruct s|].
  now rewrite Ascii.eqb_refl.
Qed.

Lemma startswith_empty s : startswith s EmptyString = true.
Proof. now destruct s. Qed.

Lemma digit_val_digit_char d : 0 <= d < 10 -> digit_val (digit_char d) = Some d.
Proof.
  intros Hd.
  assert (d = 0 \/ d = 1 \/ d = 2 \/ d = 3 \/ d = 4 \/ d = 5 \/ d = 6
          \/ d = 7 \/ d = 8 \/ d = 9) as Hc by lia.
  repeat (destruct Hc as [-> | Hc]; [reflexivity|]). now subst.
Qed.

Lemma digits_shape fuel : forall n acc,
  0 <= n -> exists c s, digits fuel n acc = String c s.
Proof.
  induction fuel as [|fuel IH]; intros n acc Hn; simpl.
  - eauto.
  - destruct (n <? 10); [eauto|]. apply IH. apply Z.div_pos; lia.
Qed.

Lemma all_digits_digits fuel : forall n acc,
  0 <= n -> all_digits (digits fuel n acc) = all_digits acc.
Proof.
  assert (Hc : forall n, 0 <= n -> is_digit_char (digit_char (n mod 10)) = true).
  { intros n _. unfold is_digit_char. rewrite digit_val_digit_char; [reflexivity|].
    apply Z.mod_pos_bound; lia. }
  induction fuel as [|fuel IH]; intros n acc Hn; simpl.
  - now rewrite Hc.
  - destruct (n <? 10); simpl.
    + now rewrite Hc.
    + rewrite IH by (apply Z.div_pos; lia). simpl. now rewrite Hc.
Qed.

(** Reading the digits of [n] back continues the number read so far. *)
Lemma parse_digits_digits fuel : forall n acc a,
  0 <= n < 10 ^ (Z.of_nat fuel + 1) ->
  exists k, 0 <= k /\
    parse_digits a (digits fuel n acc) = parse_digits (a * 10 ^ k + n) acc.
Proof.
  assert (Hlast : forall n acc a, 0 <= n < 10 ->
    parse_digits a (String (digit_char (n mod 10)) acc) = parse_digits (a * 10 ^ 1 + n) acc).
  { intros n acc a Hn. simpl. rewrite digit_val_digit_char by (apply Z.mod_pos_bound; lia).
    rewrite Z.mod_small by lia. f_equal. lia. }
  induction fuel as [|fuel IH]; intros n acc a Hn.
  - exists 1. split; [lia|]. apply Hlast. simpl in Hn. lia.
  - simpl digits. destruct (n <? 10) eqn:E.
    + exists 1. split; [lia|]. apply Hlast. apply Z.ltb_lt in E. lia.
    + apply Z.ltb_ge in E.
      destruct (IH (n / 10) (String (digit_char (n mod 10)) acc) a) as (k & Hk & ->).
      { split; [apply Z.div_pos; lia|].
        apply Z.div_lt_upper_bound; [lia|].
        replace (Z.of_nat (S fuel) + 1) with (Z.succ (Z.of_nat fuel + 1)) in Hn by lia.
        rewrite Z.pow_succ_r in Hn by lia. lia. }
      exists (k + 1). split; [lia|]. simpl.
      rewrite digit_val_digit_char by (apply Z.mod_pos_bound; lia).
      f_equal. rewrite Z.pow_add_r by lia.
      pose proof (Z.div_mod n 10 ltac:(lia)). lia.
Qed.

Lemma log2_fuel n : 0 <= n -> n < 10 ^ (Z.of_nat (Z.to_nat (Z.log2 n)) + 1).
Proof.
  intros Hn. pose proof (Z.log2_nonneg n) as Hl.
  rewrite Z2Nat.id by lia.
  destruct (Z.eq_dec n 0) as [->|Hz].
  - simpl. lia.
  - pose proof (Z.log2_spec n ltac:(lia)) as [_ Hu].
    unfold Z.succ in Hu.
    pose proof (Z.pow_le_mono_l 2 10 (Z.log2 n + 1) ltac:(lia)). lia.
Qed.

(** The decimal digits are digits for [isdigit]. *)
Lemma all_digits_isdigit s : all_digits s = true -> all_isdigit s = true.
Proof.
  induction s as [|a s IH]; simpl; [reflexivity|].
  intros [Ha Hs]%andb_true_iff. now rewrite Ha, IH.
Qed.

(** [str(m)] is a string of decimal digits for [m >= 0]. *)
Lemma str_of_int_digits m :
  0 <= m -> truthy (str_of_int m) = true /\ all_digits (str_of_int m) = true.
Proof.
  intros Hm. unfold str_of_int.
  destruct (m <? 0) eqn:E; [apply Z.ltb_lt in E; lia|].
  destruct (digits_shape (Z.to_nat (Z.log2 m)) m EmptyString Hm) as (c & s & Hs).
  rewrite all_digits_digits by assumption. now rewrite Hs.
Qed.

(** [int(str(m)) == m], and [str(m).isdigit()], for [m >= 0]. *)
Lemma int_of_str_of_int m :
  0 <= m -> isdigit (str_of_int m) = true /\ int_of_str (str_of_int m) = Some m.
Proof.
  intros Hm. destruct (str_of_int_digits m Hm) as [Ht Hd].
  unfold isdigit, int_of_str. rewrite Ht, (all_digits_isdigit _ Hd).
  split; [reflexivity|]. unfold str_of_int.
  destruct (m <? 0) eqn:E; [apply Z.ltb_lt in E; lia|].
  destruct (parse_digits_digits (Z.to_nat (Z.log2 m)) m EmptyString 0) as (k & _ & Hp).
  { split; [assumption|]. now apply log2_fuel. }
  rewrite Hp. simpl. f_equal.
Qed.



End PyStrFacts.

(** ** The remote calls of s3.py *)

(** A head lookup issues one call and leaves the objects alone; what it
    returns is decided by the fault of the call and the object under the
    key. *)
Lemma head_run c b k st :
  head_object_etag_size_mtime c b k st
  = (head_outcome c b k (objects st !! (b, k)), Boto.record_call (OpHead b k) st).
Proof.
  unfold head_outcome. run_m. destruct (fault c (OpHead b k)) as [e|]; simpl.
  - destruct e; simpl; try reflexivity. now case_bool_decide.
  - destruct (objects st !! (b, k)) as [o|]; [|reflexivity].
    unfold mtime_readable, head_view, mtime_entry.
    destruct (default ∅ (Metadata o) !! "mtime") as [s|] eqn:Hm; [|reflexivity].
    simpl. destruct (PyStr.isdigit s) eqn:Hd.
    + assert (PyStr.truthy s = true) as ->
        by (unfold PyStr.isdigit in Hd; now apply andb_true_iff in Hd).
      simpl. now destruct (PyStr.int_of_str s).
    + now rewrite andb_false_r.
Qed.

Lemma head_fault c b k st e :
  fault c (OpHead b k) = Some e ->
  head_object_etag_size_mtime c b k st
  = (if is_not_found e then Ok None else Raise e, Boto.record_call (OpHead b k) st).
Proof. intros Hf. rewrite head_run. unfold head_outcome. now rewrite Hf. Qed.

Lemma head_absent c b k st :
  fault c (OpHead b k) = None -> objects st !! (b, k) = None ->
  head_object_etag_size_mtime c b k st = (Ok None, Boto.record_call (OpHead b k) st).
Proof. intros Hf Ho. rewrite head_run. unfold head_outcome. now rewrite Hf, Ho. Qed.

Lemma head_present c b k st o :
  fault c (OpHead b k) = None -> objects st !! (b, k) = Some o ->
  mtime_readable o = true ->
  head_object_etag_size_mtime c b k st
  = (Ok (Some (head_view o)), Boto.record_call (OpHead b k) st).
Proof.
  intros Hf Ho Hr. rewrite head_run. unfold head_outcome. now rewrite Hf, Ho, Hr.
Qed.


Lemma head_state c b k st :
  snd (head_object_etag_size_mtime c b k st) = Boto.record_call (OpHead b k) st.
Proof. now rewrite head_run. Qed.

Lemma upload_dry c b k p m st :
  upload_file c b k p m true st = (Ok (upload_record b k p true), st).
Proof. reflexivity. Qed.

Lemma upload_live c b k p m st :
  upload_file c b k p m false st
  = match fault c (OpPut b k) with
    | Some e => (Raise e, Boto.record_call (OpPut b k) st)
    | None => (Ok (upload_record b k p false),
               {| objects := <[(b, k) := uploaded_object c p m]> (objects st);
                  calls := calls st ++ [OpPut b k] |})
    end.
Proof. run_m. now destruct (fault c (OpPut b k)). Qed.

Lemma delete_dry c b k st :
  delete_object c b k true st = (Ok (delete_record b k true), st).
Proof. reflexivity. Qed.

Lemma delete_live c b k st :
  delete_object c b k false st
  = match fault c (OpDelete b k) with
    | Some e => (Raise e, Boto.record_call (OpDelete b k) st)
    | None => (Ok (delete_record b k false),
               {| objects := delete (b, k) (objects st);
                  calls := calls st ++ [OpDelete b k] |})
    end.
Proof. run_m. now destruct (fault c (OpDelete b k)). Qed.

(** An upload, dry or live, returns its record or raises. *)
Lemma upload_ok c b k p m d st a st' :
  upload_file c b k p m d st = (Ok a, st') -> a = upload_record b k p d.
Proof.
  destruct d; [rewrite upload_dry | rewrite upload_live]; [congruence|].
  destruct (fault c (OpPut b k)); congruence.
Qed.

Lemma delete_ok c b k d st a st' :
  delete_object c b k d st = (Ok a, st') -> a = delete_record b k d.
Proof.
  destruct d; [rewrite delete_dry | rewrite delete_live]; [congruence|].
  destruct (fault c (OpDelete b k)); congruence.
Qed.

(** ** The decision for one local file *)

Lemma planned_exclusive args b key f t t' :
  planned_upload args b key f t t' -> planned_skip t t' -> False.
Proof. intros (_ & Hu & _) (_ & Hu' & _). lia. Qed.

(** The step of [sync_file], by the result of the head lookup. *)
Lemma sync_file_step c args b prefix t f st remote st1 :
  let key := join_s3_key prefix (FileItem.rel f) in
  head_object_etag_size_mtime c b key st = (Ok remote, st1) ->
  sync_file c args b prefix t f st
  = if match remote with
       | None => true
       | Some (_, r_size, r_mtime) => should_upload (Args.strategy args) r_size r_mtime f
       end
    then
      match upload_file c b key (FileItem.path f) (FileItem.mtime f) (Args.dry_run args) st1 with
      | (Ok a, st2) =>
          (Ok {| actions := actions t ++ [a]; uploaded := uploaded t + 1;
                 skipped := skipped t; deleted := deleted t;
                 local_key_set := {[ key ]} ∪ local_key_set t |}, st2)
      | (Raise e, st2) => (Raise e, st2)
      end
    else
      (Ok {| actions := actions t; uploaded := uploaded t; skipped := skipped t + 1;
             deleted := deleted t; local_key_set := {[ key ]} ∪ local_key_set t |}, st1).
Proof.
  intros key Hh. unfold sync_file. fold key. unfold bind at 1. rewrite Hh.
  destruct remote as [[[etag r_size] r_mtime]|]; [|reflexivity].
  destruct (should_upload _ _ _ _); reflexivity.
Qed.

Lemma sync_file_raise c args b prefix t f st e st1 :
  head_object_etag_size_mtime c b (join_s3_key prefix (FileItem.rel f)) st = (Raise e, st1) ->
  sync_file c args b prefix t f st = (Raise e, st1).
Proof. intros Hh. unfold sync_file, bind. now rewrite Hh. Qed.

(** The upload of a decided file goes through in a dry run, and in a live
    run when the put does not fail. *)
Lemma upload_succeeds c b k p m d st :
  d = true \/ fault c (OpPut b k) = None ->
  exists st', upload_file c b k p m d st = (Ok (upload_record b k p d), st').
Proof.
  intros [-> | Hf].
  - eexists. apply upload_dry.
  - destruct d; [eexists; apply upload_dry|].
    rewrite upload_live, Hf. eauto.
Qed.

Lemma should_upload_size_mtime strategy r_size r_mtime f :
  strategy <> "size-only" ->
  should_upload strategy r_size r_mtime f = true
  <-> r_size <> FileItem.size f \/ r_mtime = None \/ r_mtime <> Some (FileItem.mtime f).
Proof.
  intros Hs. unfold should_upload.
  destruct (String.eqb_spec strategy "size-only") as [|_]; [contradiction|].
  rewrite !orb_true_iff, !negb_true_iff, Z.eqb_neq, bool_decide_eq_true, bool_decide_eq_false.
  tauto.
Qed.

Lemma should_upload_size_only r_size r_mtime f :
  should_upload "size-only" r_size r_mtime f = true <-> r_size <> FileItem.size f.
Proof.
  unfold should_upload. simpl. now rewrite negb_true_iff, Z.eqb_neq.
Qed.

(** C1. Under the size-mtime strategy, a file whose key the head lookup
    reports absent is uploaded; a file whose key is present is uploaded
    exactly when the remote size differs from the local size, or the stored
    mtime is absent, or the stored mtime differs from the local
    modification time; in every remaining case it is skipped. *)
Theorem size_mtime_plans_upload_or_skip c args bucket prefix t f st remote st1 :
  let key := join_s3_key prefix (FileItem.rel f) in
  Args.strategy args = "size-mtime" ->
  head_object_etag_size_mtime c bucket key st = (Ok remote, st1) ->
  Args.dry_run args = true \/ fault c (OpPut bucket key) = None ->
  exists t' st2,
    sync_file c args bucket prefix t f st = (Ok t', st2)
    /\ match remote with
       | None => planned_upload args bucket key f t t'
       | Some (_, r_size, r_mtime) =>
           let differs := r_size <> FileItem.size f \/ r_mtime = None
                          \/ r_mtime <> Some (FileItem.mtime f) in
           (planned_upload args bucket key f t t' <-> differs)
           /\ (planned_skip t t' <-> ~ differs)
       end.
Proof.
  intros key Hs Hh Hput.
  rewrite (sync_file_step _ _ _ _ _ _ _ _ _ Hh). fold key.
  destruct (upload_succeeds c bucket key (FileItem.path f) (FileItem.mtime f)
              (Args.dry_run args) st1 Hput) as [st2 Hup].
  assert (Hne : Args.strategy args <> "size-only") by (rewrite Hs; discriminate).
  destruct remote as [[[etag r_size] r_mtime]|].
  - pose proof (should_upload_size_mtime _ r_size r_mtime f Hne) as Hiff.
    destruct (should_upload _ _ _ _) eqn:Hsu.
    + rewrite Hup. do 2 eexists. split; [reflexivity|].
      assert (Hpl : planned_upload args bucket key f t
                {| actions := actions t ++ [upload_record bucket key (FileItem.path f) (Args.dry_run args)];
                   uploaded := uploaded t + 1; skipped := skipped t; deleted := deleted t;
                   local_key_set := {[ key ]} ∪ local_key_set t |})
        by (repeat split).
      split; split; try tauto.
      * intros Hsk. exfalso. eapply planned_exclusive; eassumption.
    + do 2 eexists. split; [reflexivity|].
      assert (Hsk : planned_skip t
                {| actions := actions t; uploaded := uploaded t; skipped := skipped t + 1;
                   deleted := deleted t; local_key_set := {[ key ]} ∪ local_key_set t |})
        by (repeat split).
      assert (Hno : ~ (r_size <> FileItem.size f \/ r_mtime = None
                       \/ r_mtime <> Some (FileItem.mtime f)))
        by (intros Hd; apply Hiff in Hd; discriminate).
      split; split; try tauto.
      * intros Hpl. exfalso. eapply planned_exclusive; eassumption.
  - rewrite Hup. do 2 eexists. split; [reflexivity|]. repeat split.
Qed.

(** C2. Under the size-only strategy, a file whose key is present remotely
    is uploaded exactly when the remote size differs from the local size,
    and skipped otherwise; a lookup that reports the same size with any
    other stored mtime (or etag) leads to the same tally. *)
Theorem size_only_ignores_stored_mtime c args bucket prefix t f st etag r_size r_mtime st1 :
  let key := join_s3_key prefix (FileItem.rel f) in
  Args.strategy args = "size-only" ->
  head_object_etag_size_mtime c bucket key st = (Ok (Some (etag, r_size, r_mtime)), st1) ->
  Args.dry_run args = true \/ fault c (OpPut bucket key) = None ->
  exists t' st2,
    sync_file c args bucket prefix t f st = (Ok t', st2)
    /\ (planned_upload args bucket key f t t' <-> r_size <> FileItem.size f)
    /\ (planned_skip t t' <-> r_size = FileItem.size f)
    /\ forall sta etag' r_mtime' sta1,
         head_object_etag_size_mtime c bucket key sta
         = (Ok (Some (etag', r_size, r_mtime')), sta1) ->
         exists sta2, sync_file c args bucket prefix t f sta = (Ok t', sta2).
Proof.
  intros key Hs Hh Hput.
  rewrite (sync_file_step _ _ _ _ _ _ _ _ _ Hh). fold key. rewrite Hs.
  pose proof (should_upload_size_only r_size r_mtime f) as Hiff.
  assert (Hsame : forall r_mtime',
            should_upload "size-only" r_size r_mtime' f
            = should_upload "size-only" r_size r_mtime f) by reflexivity.
  destruct (should_upload "size-only" r_size r_mtime f) eqn:Hsu.
  - destruct (upload_succeeds c bucket key (FileItem.path f) (FileItem.mtime f)
                (Args.dry_run args) st1 Hput) as [st2 Hup].
    rewrite Hup. do 2 eexists. split; [reflexivity|].
    assert (Hpl : planned_upload args bucket key f t
              {| actions := actions t ++ [upload_record bucket key (FileItem.path f) (Args.dry_run args)];
                 uploaded := uploaded t + 1; skipped := skipped t; deleted := deleted t;
                 local_key_set := {[ key ]} ∪ local_key_set t |})
      by (repeat split).
    assert (Hne : r_size <> FileItem.size f) by tauto.
    repeat split; try tauto.
    + intros Hsk. exfalso. eapply planned_exclusive; eassumption.
    + intros sta etag' r_mtime' sta1 Hha.
      rewrite (sync_file_step _ _ _ _ _ _ _ _ _ Hha). fold key. rewrite Hs, Hsame.
      destruct (upload_succeeds c bucket key (FileItem.path f) (FileItem.mtime f)
                  (Args.dry_run args) sta1 Hput) as [sta2 Hupa].
      rewrite Hupa. eauto.
  - do 2 eexists. split; [reflexivity|].
    assert (Hsk : planned_skip t
              {| actions := actions t; uploaded := uploaded t; skipped := skipped t + 1;
                 deleted := deleted t; local_key_set := {[ key ]} ∪ local_key_set t |})
      by (repeat split).
    assert (Heq : r_size = FileItem.size f).
    { destruct (Z.eq_dec r_size (FileItem.size f)) as [|Hne]; [assumption|].
      apply Hiff in Hne. discriminate. }
    repeat split; try tauto.
    + intros Hpl. exfalso. eapply planned_exclusive; eassumption.
    + intros sta etag' r_mtime' sta1 Hha.
      rewrite (sync_file_step _ _ _ _ _ _ _ _ _ Hha). fold key. rewrite Hs, Hsame.
      eauto.
Qed.

(** ** The mtime marker *)


(** C7 fails on the code at a stored mtime made of the superscript two:
    [isdigit] accepts it, so [int] is called on it and raises a
    [ValueError] that the [except ClientError] clause lets through; the
    lookup does not report an absent stored mtime, and the run ends with
    [EXIT_ERROR], that error logged, no report, and no object changed. *)
Theorem superscript_mtime_raises_ValueError :
  mtime_entry (Demo.obj 100 (Some Demo.superscript_two)) = Some Demo.superscript_two
  /\ PyStr.all_digits Demo.superscript_two = false
  /\ PyStr.isdigit Demo.superscript_two = true
  /\ PyStr.int_of_str Demo.superscript_two = None
  /\ head_object_etag_size_mtime Demo.client "bkt" "a.txt"
       (Demo.remote_two (Some Demo.superscript_two))
     = (Raise (ValueError (PyStr.int_error Demo.superscript_two)),
        Boto.record_call (OpHead "bkt" "a.txt")
          (Demo.remote_two (Some Demo.superscript_two)))
  /\ (forall etag size,
        fst (head_object_etag_size_mtime Demo.client "bkt" "a.txt"
               (Demo.remote_two (Some Demo.superscript_two)))
        <> Ok (Some (etag, size, None)))
  /\ fst (main Demo.host Demo.args (Demo.remote_two (Some Demo.superscript_two)))
     = {| exit_code := EXIT_ERROR; printed := None;
          logged_error := Some (PyStr.int_error Demo.superscript_two) |}
  /\ objects (snd (main Demo.host Demo.args (Demo.remote_two (Some Demo.superscript_two))))
     = objects (Demo.remote_two (Some Demo.superscript_two)).
Proof.
  assert (Hh : head_object_etag_size_mtime Demo.client "bkt" "a.txt"
                 (Demo.remote_two (Some Demo.superscript_two))
               = (Raise (ValueError (PyStr.int_error Demo.superscript_two)),
                  Boto.record_call (OpHead "bkt" "a.txt")
                    (Demo.remote_two (Some Demo.superscript_two))))
    by (vm_compute; reflexivity).
  split; [vm_compute; reflexivity|]. split; [reflexivity|]. split; [reflexivity|].
  split; [reflexivity|]. split; [exact Hh|].
  split; [intros etag size; rewrite Hh; discriminate|].
  split; vm_compute; reflexivity.
Qed.

(** ** Runs of the whole program *)

Lemma for_each_app {A S} (body : S -> A -> M S) xs ys acc st :
  for_each body (xs ++ ys) acc st
  = match for_each body xs acc st with
    | (Ok acc', st') => for_each body ys acc' st'
    | (Raise e, st') => (Raise e, st')
    end.
Proof.
  revert acc st. induction xs as [|x xs IH]; intros acc st; simpl; [reflexivity|].
  unfold bind. destruct (body acc x st) as [[acc'|e] st']; [apply IH|reflexivity].
Qed.

(** A loop whose body raises at some element, whatever the state, raises. *)
Lemma for_each_raises {A S} (body : S -> A -> M S) xs x :
  x ∈ xs ->
  (forall acc st, exists e, fst (body acc x st) = Raise e) ->
  forall acc st, exists e, fst (for_each body xs acc st) = Raise e.
Proof.
  intros Hin Hx. induction xs as [|y xs IH]; intros acc st; [inversion Hin|].
  simpl. unfold bind.
  destruct (body acc y st) as [[acc'|e] st'] eqn:Hb; [|simpl; eauto].
  apply elem_of_cons in Hin as [->|Hin].
  - destruct (Hx acc st) as [e He]. rewrite Hb in He. discriminate.
  - now apply IH.
Qed.

(** A loop over a generator runs its body on what the generator yields;
    if the body gets through all of it, what the generator raises ends
    the loop. *)
Lemma for_gen_run {A S} (body : S -> A -> M S) g : forall acc st,
  for_gen body g acc st
  = match for_each body (yielded g) acc st with
    | (Ok acc', st') =>
        match failure g with
        | Some e => (Raise e, st')
        | None => (Ok acc', st')
        end
    | (Raise e, st') => (Raise e, st')
    end.
Proof.
  induction g as [|x g IH|e]; intros acc st; simpl; [reflexivity| |reflexivity].
  unfold bind. destruct (body acc x st) as [[acc'|e] st']; [apply IH|reflexivity].
Qed.

Lemma for_gen_ok {A S} (body : S -> A -> M S) g acc st acc' st' :
  for_gen body g acc st = (Ok acc', st')
  <-> failure g = None /\ for_each body (yielded g) acc st = (Ok acc', st').
Proof.
  rewrite for_gen_run.
  destruct (for_each body (yielded g) acc st) as [[a|e] s1]; destruct (failure g);
    split; try (intros [H1 H2]); try discriminate; try congruence; auto.
Qed.

(** A run that reports went through every stage of [sync]. *)
Lemma sync_ok_inv h args st r st' :
  sync h args st = (Ok (Some r), st') ->
  let root := resolve h (Args.local_dir args) in
  let client := s3_client h (Args.profile args) (Args.region args) in
  validate_creds h (Args.profile args) = Ok tt
  /\ Args.cmd args = "sync"
  /\ path_exists h root = true /\ path_is_dir h root = true
  /\ exists bucket prefix t1 st1 t2,
       parse_s3_uri (Args.s3_uri args) = Ok (bucket, prefix)
       /\ for_each (sync_file client args bucket prefix)
            (yielded (iter_files h root (Args.exclude args))) tally0 st = (Ok t1, st1)
       /\ delete_phase client args bucket prefix t1 st1 = (Ok t2, st')
       /\ report_actions r = actions t2
       /\ report_bucket r = bucket /\ report_prefix r = prefix
       /\ report_uploaded r = uploaded t2 /\ report_skipped r = skipped t2
       /\ report_deleted r = deleted t2
       /\ summary r =
          [("cmd", VStr "sync"); ("local_dir", VStr root);
           ("bucket", VStr bucket); ("prefix", VStr prefix);
           ("dry_run", VBool (Args.dry_run args));
           ("uploaded", VInt (uploaded t2)); ("skipped", VInt (skipped t2));
           ("deleted", VInt (deleted t2));
           ("total_actions", VInt (Z.of_nat (length (actions t2))))].
Proof.
  intros H root client. unfold sync, bind, lift, raise, ret in H.
  destruct (validate_creds h (Args.profile args)) as [[]|e]; [|discriminate].
  destruct (String.eqb_spec (Args.cmd args) "sync") as [Hc|]; [|discriminate].
  fold root in H. fold client in H.
  destruct (path_exists h root); [|discriminate].
  destruct (path_is_dir h root); [|discriminate]. simpl in H.
  destruct (parse_s3_uri (Args.s3_uri args)) as [[bucket prefix]|e]; [|discriminate].
  destruct (for_gen _ _ tally0 st) as [[t1|e] st1] eqn:H1; [|discriminate].
  apply for_gen_ok in H1 as [_ H1].
  destruct (delete_phase client args bucket prefix t1 st1) as [[t2|e] st2] eqn:H2;
    [|discriminate].
  injection H as <- <-. repeat split; try reflexivity; try assumption.
  exists bucket, prefix, t1, st1, t2. repeat split; assumption.
Qed.

(** In a run that reports, the scan went through: no [stat()] raised. *)
Lemma sync_ok_scan h args st r st' :
  sync h args st = (Ok (Some r), st') ->
  failure (iter_files h (resolve h (Args.local_dir args)) (Args.exclude args)) = None.
Proof.
  intros H. unfold sync, bind, lift, raise, ret in H.
  destruct (validate_creds h (Args.profile args)) as [[]|e]; [|discriminate].
  destruct (String.eqb (Args.cmd args) "sync"); [|discriminate].
  destruct (negb _ || negb _); [discriminate|].
  destruct (parse_s3_uri (Args.s3_uri args)) as [[bucket prefix]|e]; [|discriminate].
  destruct (for_gen _ _ tally0 st) as [[t1|e] st1] eqn:H1; [|discriminate].
  now apply for_gen_ok in H1 as [H1 _].
Qed.

Lemma main_exit_ok h args st :
  exit_code (fst (main h args st)) = EXIT_OK ->
  exists r st', sync h args st = (Ok (Some r), st').
Proof.
  unfold main. destruct (sync h args st) as [[[r|]|e] st']; simpl; eauto; discriminate.
Qed.

Lemma main_aborted h args st e st' :
  sync h args st = (Raise e, st') ->
  main h args st
  = ({| exit_code := EXIT_ERROR; printed := None; logged_error := Some (exn_str e) |}, st').
Proof. unfold main. now intros ->. Qed.

Lemma is_not_found_spec e :
  is_not_found e = true
  <-> exists err msg,
        e = ClientError err msg
        /\ default EmptyString (err ≫= Code) ∈ ["404"; "NoSuchKey"; "NotFound"].
Proof.
  split.
  - destruct e; simpl; try discriminate. intros H%bool_decide_eq_true. eauto.
  - intros (err & msg & -> & H). simpl. now apply bool_decide_eq_true.
Qed.

(** A run that does not report exits with [EXIT_ERROR] and prints nothing. *)
Lemma main_not_ok h args st :
  (forall r st', sync h args st <> (Ok (Some r), st')) ->
  exit_code (fst (main h args st)) = EXIT_ERROR /\ printed (fst (main h args st)) = None.
Proof.
  intros Hno. unfold main.
  destruct (sync h args st) as [[[r|]|e] st'] eqn:Hs; simpl; auto.
  exfalso. eapply Hno. reflexivity.
Qed.

(** ** Head-lookup failures *)

(** C8. A head lookup that fails with a not-found code (404, NoSuchKey or
    NotFound) returns the absent result, and the file is then uploaded; a
    head lookup that fails in any other way raises that same failure, the
    loop body raises it too, and the run ends with [EXIT_ERROR] and no
    report. *)
Theorem head_not_found_uploads_other_failures_abort h args st bucket prefix t f e :
  let client := s3_client h (Args.profile args) (Args.region args) in
  let key := join_s3_key prefix (FileItem.rel f) in
  fault client (OpHead bucket key) = Some e ->
  (is_not_found e = true ->
     head_object_etag_size_mtime client bucket key st
     = (Ok None, Boto.record_call (OpHead bucket key) st)
     /\ (Args.dry_run args = true \/ fault client (OpPut bucket key) = None ->
         exists t' st',
           sync_file client args bucket prefix t f st = (Ok t', st')
           /\ planned_upload args bucket key f t t'))
  /\ (is_not_found e = false ->
        head_object_etag_size_mtime client bucket key st
        = (Raise e, Boto.record_call (OpHead bucket key) st)
        /\ sync_file client args bucket prefix t f st
           = (Raise e, Boto.record_call (OpHead bucket key) st)
        /\ (parse_s3_uri (Args.s3_uri args) = Ok (bucket, prefix) ->
            f ∈ yielded (iter_files h (resolve h (Args.local_dir args))
                           (Args.exclude args)) ->
            forall st0,
              exit_code (fst (main h args st0)) = EXIT_ERROR
              /\ printed (fst (main h args st0)) = None)).
Proof.
  intros client key Hf. split; intros Hnf.
  - pose proof (head_fault client bucket key st e Hf) as Hh. rewrite Hnf in Hh.
    split; [exact Hh|]. intros Hput.
    rewrite (sync_file_step _ _ _ _ _ _ _ _ _ Hh). fold key.
    destruct (upload_succeeds client bucket key (FileItem.path f) (FileItem.mtime f)
                (Args.dry_run args) (Boto.record_call (OpHead bucket key) st) Hput)
      as [st2 Hup].
    rewrite Hup. do 2 eexists. split; [reflexivity|]. repeat split.
  - assert (Hh : forall s, head_object_etag_size_mtime client bucket key s
                           = (Raise e, Boto.record_call (OpHead bucket key) s)).
    { intros s. pose proof (head_fault client bucket key s e Hf) as Hh.
      now rewrite Hnf in Hh. }
    split; [apply Hh|]. split; [apply sync_file_raise, Hh|].
    intros Hparse Hin st0. apply main_not_ok. intros r st' Hs.
    destruct (sync_ok_inv _ _ _ _ _ Hs)
      as (_ & _ & _ & _ & b & p & t1 & st1 & t2 & Hp & Hloop & _).
    rewrite Hparse in Hp. injection Hp as <- <-.
    destruct (for_each_raises (sync_file client args bucket prefix) _ f Hin) with
      (acc := tally0) (st := st0) as [e' He'].
    + intros acc s. exists e. now rewrite (sync_file_raise _ _ _ _ _ _ _ _ _ (Hh s)).
    + fold client in Hloop. rewrite Hloop in He'. discriminate.
Qed.

(** ** The remote listing *)

Lemma paginate_go_concat {A} n (l : list A) : forall room cur,
  concat (Boto.paginate_go n l room cur) = rev cur ++ l.
Proof.
  induction l as [|x l IH]; intros room cur; simpl.
  - destruct cur; simpl; [reflexivity|]. now rewrite !app_nil_r.
  - destruct room; simpl.
    + rewrite IH. simpl. now rewrite <- app_assoc.
    + rewrite IH. simpl. now rewrite <- app_assoc.
Qed.

(** The flattened pages are the matching keys, whatever the page size. *)
Lemma list_objects_keys_run c b p st :
  list_objects_keys c b p st
  = match fault c (OpList b p) with
    | Some e => (Raise e, Boto.record_call (OpList b p) st)
    | None => (Ok (Boto.matching_keys (objects st) b p), Boto.record_call (OpList b p) st)
    end.
Proof.
  run_m. destruct (fault c (OpList b p)); [reflexivity|]. simpl.
  pose proof (paginate_go_concat (pred (page_size c))
                (Boto.matching_keys (objects st) b p) (pred (page_size c)) []) as Hc.
  simpl in Hc.
  destruct (Boto.paginate_go _ _ _ _) as [|pg pgs]; simpl in *.
  - now rewrite <- Hc.
  - do 2 f_equal. rewrite <- Hc. f_equal.
    clear Hc. induction pgs as [|q pgs IH]; simpl; [reflexivity|]. now rewrite IH.
Qed.

Lemma elem_of_matching_keys os b p k :
  k ∈ Boto.matching_keys os b p
  <-> is_Some (os !! (b, k)) /\ PyStr.startswith k p = true.
Proof.
  unfold Boto.matching_keys. rewrite list_elem_of_omap. split.
  - intros ([[b' k'] o] & Hin & Hf). apply elem_of_map_to_list in Hin.
    case_bool_decide; [|discriminate]. simpl in Hf.
    destruct (PyStr.startswith k' p) eqn:Hs; [|discriminate].
    injection Hf as <-. subst b'. eauto.
  - intros [[o Ho] Hs]. exists ((b, k), o). split; [now apply elem_of_map_to_list|].
    rewrite bool_decide_eq_true_2 by reflexivity. simpl. now rewrite Hs.
Qed.

Lemma NoDup_matching_keys os b p : NoDup (Boto.matching_keys os b p).
Proof.
  unfold Boto.matching_keys.
  pose proof (NoDup_fst_map_to_list os) as Hnd.
  induction (map_to_list os) as [|[[b' k'] o] l IH]; simpl; [constructor|].
  simpl in Hnd. apply NoDup_cons in Hnd as [Hnotin Hnd].
  destruct (bool_decide (b' = b) && PyStr.startswith k' p) eqn:Hc; [|now apply IH].
  apply NoDup_cons. split; [|now apply IH].
  intros ([[b2 k2] o2] & Hin & Hf)%list_elem_of_omap.
  apply andb_true_iff in Hc as [Hb%bool_decide_eq_true _].
  case_bool_decide; [|discriminate]. simpl in Hf.
  destruct (PyStr.startswith k2 p); [|discriminate]. injection Hf as ->. subst.
  apply Hnotin. apply list_elem_of_fmap. exists ((b, k'), o2). split; [reflexivity|assumption].
Qed.

(** ** The two loops of [main] *)

Lemma sync_file_ok c args b prefix t f st t' st' :
  sync_file c args b prefix t f st = (Ok t', st') ->
  local_key_set t' = {[ key_of prefix f ]} ∪ local_key_set t
  /\ deleted t' = deleted t
  /\ (planned_upload args b (key_of prefix f) f t t' \/ planned_skip t t')
  /\ keeps_objects st st'.
Proof.
  intros H. unfold key_of.
  destruct (head_object_etag_size_mtime c b (join_s3_key prefix (FileItem.rel f)) st)
    as [[remote|e] st1] eqn:Hh.
  2:{ rewrite (sync_file_raise _ _ _ _ _ _ _ _ _ Hh) in H. discriminate. }
  pose proof (head_state c b (join_s3_key prefix (FileItem.rel f)) st) as Hst.
  rewrite Hh in Hst. simpl in Hst. subst st1.
  rewrite (sync_file_step _ _ _ _ _ _ _ _ _ Hh) in H.
  match type of H with (if ?cond then _ else _) = _ => destruct cond end.
  - destruct (upload_file _ _ _ _ _ _ _) as [[a|e] st2] eqn:Hup; [|discriminate].
    injection H as <- <-. apply upload_ok in Hup as Ha. subst a.
    repeat split; try reflexivity.
    + left. repeat split.
    + intros bk Hbk. destruct (Args.dry_run args).
      * rewrite upload_dry in Hup. injection Hup as <-. exact Hbk.
      * rewrite upload_live in Hup. destruct (fault c _); [discriminate|].
        injection Hup as <-. simpl. rewrite lookup_insert. now case_decide.
  - injection H as <- <-. repeat split; try reflexivity.
    + right. repeat split.
    + intros bk Hbk. exact Hbk.
Qed.

Lemma keeps_objects_trans st1 st2 st3 :
  keeps_objects st1 st2 -> keeps_objects st2 st3 -> keeps_objects st1 st3.
Proof. unfold keeps_objects. auto. Qed.

(** After the loop over the local files: the key set is the set of their
    keys, every action added is the upload of one of them, and no object
    has gone. *)
Lemma upload_loop_ok c args b prefix files : forall t st t1 st1,
  for_each (sync_file c args b prefix) files t st = (Ok t1, st1) ->
  local_key_set t1 = local_keys prefix files ∪ local_key_set t
  /\ deleted t1 = deleted t
  /\ (exists ups,
        actions t1 = actions t ++ ups
        /\ uploaded t1 = uploaded t + Z.of_nat (length ups)
        /\ uploaded t1 + skipped t1
           = uploaded t + skipped t + Z.of_nat (length files)
        /\ Forall (fun a => exists f, f ∈ files
                     /\ a = upload_record b (key_of prefix f) (FileItem.path f)
                              (Args.dry_run args)) ups)
  /\ keeps_objects st st1.
Proof.
  induction files as [|f files IH]; intros t st t1 st1 H; simpl in H.
  - injection H as <- <-. unfold local_keys. simpl.
    repeat split; [symmetry; apply (left_id_L ∅ (∪))| |intros bk Hbk; exact Hbk].
    exists []. rewrite app_nil_r. repeat split; [simpl; lia..|constructor].
  - unfold bind in H.
    destruct (sync_file c args b prefix t f st) as [[t'|e] st'] eqn:Hf; [|discriminate].
    apply sync_file_ok in Hf as (Hk & Hd & Hstep & Hkeep).
    apply IH in H as (Hk1 & Hd1 & (ups & Ha & Hu & Hus & Hall) & Hkeep1).
    split; [|split; [congruence|split; [|eapply keeps_objects_trans; eassumption]]].
    { rewrite Hk1, Hk. unfold local_keys. simpl.
      apply set_eq. intros x. rewrite !elem_of_union. tauto. }
    assert (Hall' : Forall (fun a => exists f0, f0 ∈ f :: files
                     /\ a = upload_record b (key_of prefix f0) (FileItem.path f0)
                              (Args.dry_run args)) ups).
    { eapply Forall_impl; [exact Hall|]. intros a (f0 & Hin & ->).
      exists f0. split; [now right|reflexivity]. }
    destruct Hstep as [(Ha' & Hu' & Hs') | (Ha' & Hu' & Hs')].
    + exists (upload_record b (key_of prefix f) (FileItem.path f) (Args.dry_run args) :: ups).
      rewrite Ha, Ha', <- app_assoc. simpl length.
      repeat split; [lia..|].
      constructor; [|exact Hall']. exists f. split; [now left|reflexivity].
    + exists ups. rewrite Ha, Ha'. simpl length. repeat split; [lia..|exact Hall'].
Qed.

(** The loop over the listed keys: one deletion record per listed key that
    is not a local key, in listing order. *)
Lemma delete_loop_ok c args b ks : forall t st t' st',
  for_each (delete_stale c args b) ks t st = (Ok t', st') ->
  let stale := filter (fun k => k ∉ local_key_set t) ks in
  actions t' = actions t ++ map (fun k => delete_record b k (Args.dry_run args)) stale
  /\ deleted t' = deleted t + Z.of_nat (length stale)
  /\ uploaded t' = uploaded t /\ skipped t' = skipped t
  /\ local_key_set t' = local_key_set t.
Proof.
  induction ks as [|k ks IH]; intros t st t' st' H; simpl in H.
  - injection H as <- <-. simpl. rewrite app_nil_r. repeat split. lia.
  - unfold bind in H. unfold delete_stale in H at 1.
    case_bool_decide as Hin; simpl in H.
    + apply IH in H. simpl.
      rewrite filter_cons_False by (intros Hn; contradiction). exact H.
    + unfold bind, ret in H.
      destruct (delete_object c b k (Args.dry_run args) st) as [[a|e] st1] eqn:Hd;
        [|discriminate].
      apply delete_ok in Hd. subst a.
      apply IH in H. simpl in H. destruct H as (Ha & Hdel & Hu & Hs & Hk).
      simpl. rewrite filter_cons_True by assumption. simpl.
      rewrite Ha, Hdel, <- app_assoc. simpl. repeat split; try assumption. lia.
Qed.

Lemma delete_phase_ok c args b prefix t st t' st' :
  delete_phase c args b prefix t st = (Ok t', st') ->
  let stale :=
    if Args.delete args
    then filter (fun k => k ∉ local_key_set t)
           (Boto.matching_keys (objects st) b (list_prefix_of prefix))
    else [] in
  actions t' = actions t ++ map (fun k => delete_record b k (Args.dry_run args)) stale
  /\ deleted t' = deleted t + Z.of_nat (length stale)
  /\ uploaded t' = uploaded t /\ skipped t' = skipped t
  /\ local_key_set t' = local_key_set t
  /\ (Args.delete args = true -> OpList b (list_prefix_of prefix) ∈ calls st').
Proof.
  unfold delete_phase. fold (list_prefix_of prefix).
  destruct (Args.delete args).
  - unfold bind. rewrite list_objects_keys_run.
    destruct (fault c (OpList b (list_prefix_of prefix))); [discriminate|].
    intros H.
    assert (Hcalls : exists l, calls st' = calls st ++ OpList b (list_prefix_of prefix) :: l).
    { clear -H. revert H.
      generalize (Boto.matching_keys (objects st) b (list_prefix_of prefix)) as ks.
      assert (Hgen : forall ks t s, for_each (delete_stale c args b) ks t s = (Ok t', st') ->
                exists l, calls st' = calls s ++ l).
      { induction ks as [|k ks IH]; intros t0 s H; simpl in H.
        - injection H as <- <-. exists []. now rewrite app_nil_r.
        - unfold bind in H.
          destruct (delete_stale c args b t0 k s) as [[t1|e] s1] eqn:Hd; [|discriminate].
          apply IH in H as [l Hl].
          assert (exists l1, calls s1 = calls s ++ l1) as [l1 Hl1].
          { unfold delete_stale in Hd. case_bool_decide; simpl in Hd.
            - injection Hd as <- <-. exists []. now rewrite app_nil_r.
            - unfold bind, ret in Hd.
              destruct (Args.dry_run args).
              + rewrite delete_dry in Hd. injection Hd as <- <-.
                exists []. now rewrite app_nil_r.
              + rewrite delete_live in Hd. destruct (fault c _); [discriminate|].
                injection Hd as <- <-. simpl. eauto. }
          exists (l1 ++ l). now rewrite Hl, Hl1, app_assoc. }
      intros ks H. apply Hgen in H as [l Hl]. exists l.
      rewrite Hl. simpl. now rewrite <- app_assoc. }
    apply delete_loop_ok in H. simpl in H. destruct H as (Ha & Hd & Hu & Hs & Hk).
    repeat split; try assumption.
    intros _. destruct Hcalls as [l ->]. apply elem_of_app. right. now left.
  - intros [= <- <-]. simpl. rewrite app_nil_r. repeat split; [lia|discriminate].
Qed.

Lemma delete_record_inj b d k1 k2 :
  delete_record b k1 d = delete_record b k2 d -> k1 = k2.
Proof. unfold delete_record. congruence. Qed.

(** In the records of a duplicate-free list of keys, the record of each
    key occurs once. *)
Lemma delete_records_once b d (ks : list string) k :
  NoDup ks ->
  length (filter (fun a => a = delete_record b k d)
            (map (fun k0 => delete_record b k0 d) ks))
  = if bool_decide (k ∈ ks) then 1%nat else 0%nat.
Proof.
  induction ks as [|x ks IH]; intros Hnd; [reflexivity|].
  apply NoDup_cons in Hnd as [Hx Hnd]. specialize (IH Hnd). simpl.
  destruct (decide (x = k)) as [->|Hne].
  - rewrite filter_cons_True by reflexivity. simpl. rewrite IH.
    rewrite (bool_decide_eq_false_2 (k ∈ ks)) by assumption.
    now rewrite bool_decide_eq_true_2 by now left.
  - rewrite filter_cons_False by (intros He%delete_record_inj; contradiction).
    assert (Hiff : k ∈ x :: ks <-> k ∈ ks).
    { rewrite elem_of_cons. split; [|tauto]. intros [->|]; [contradiction|assumption]. }
    now rewrite IH, (bool_decide_ext _ _ Hiff).
Qed.

(** ** The deletion phase *)

(** C4. With delete enabled, the deletion phase issues a listing call
    with the prefix followed by a slash (the empty prefix is listed as it
    is, which lists the whole bucket); the listing has no repeated key and
    holds exactly the keys of the bucket that start with that prefix; the
    actions added are the deletion records of the listed keys outside the
    local key set, each exactly once, and the deleted counter grows by
    their number. *)
Theorem deletion_phase_deletes_each_stale_key_once c args bucket prefix t st t' st' :
  Args.delete args = true ->
  delete_phase c args bucket prefix t st = (Ok t', st') ->
  let list_prefix := if PyStr.truthy prefix then prefix +:+ "/" else EmptyString in
  exists listed dels,
    OpList bucket list_prefix ∈ calls st'
    /\ (prefix = EmptyString ->
        list_prefix = EmptyString
        /\ forall k, k ∈ listed <-> is_Some (objects st !! (bucket, k)))
    /\ NoDup listed
    /\ (forall k, k ∈ listed
                  <-> is_Some (objects st !! (bucket, k))
                      /\ PyStr.startswith k list_prefix = true)
    /\ actions t' = actions t ++ dels
    /\ dels = map (fun k => delete_record bucket k (Args.dry_run args))
                (filter (fun k => k ∉ local_key_set t) listed)
    /\ deleted t' = deleted t + Z.of_nat (length dels)
    /\ forall k,
         length (filter (fun a => a = delete_record bucket k (Args.dry_run args)) dels)
         = if bool_decide (k ∈ listed /\ k ∉ local_key_set t) then 1%nat else 0%nat.
Proof.
  intros Hdel H list_prefix.
  apply delete_phase_ok in H. rewrite Hdel in H. simpl in H.
  destruct H as (Ha & Hd & _ & _ & _ & Hcall).
  change list_prefix with (list_prefix_of prefix).
  exists (Boto.matching_keys (objects st) bucket (list_prefix_of prefix)).
  eexists. split; [now apply Hcall|].
  split.
  { intros ->. split; [reflexivity|]. intros k.
    rewrite elem_of_matching_keys. change (list_prefix_of EmptyString) with EmptyString.
    rewrite startswith_empty. tauto. }
  split; [apply NoDup_matching_keys|].
  split; [apply elem_of_matching_keys|].
  split; [exact Ha|]. split; [reflexivity|].
  split; [now rewrite length_map|].
  intros k. rewrite delete_records_once
    by (apply NoDup_filter, NoDup_matching_keys).
  erewrite bool_decide_ext; [reflexivity|]. rewrite list_elem_of_filter. tauto.
Qed.

(** ** The plan of a whole run *)

(** The actions of a reported run: the uploads of scanned files, in scan
    order, then (with delete enabled) the deletion records of the keys
    listed after the uploads that are not local keys. *)
Lemma sync_plan h args st r st' :
  sync h args st = (Ok (Some r), st') ->
  exists bucket prefix st1,
    parse_s3_uri (Args.s3_uri args) = Ok (bucket, prefix)
    /\ keeps_objects st st1
    /\ let files := yielded (iter_files h (resolve h (Args.local_dir args))
                                (Args.exclude args)) in
       let keys := local_keys prefix files in
       exists ups dels,
         report_actions r = ups ++ dels
         /\ Forall (fun a => exists f, f ∈ files
                      /\ a = upload_record bucket (key_of prefix f) (FileItem.path f)
                               (Args.dry_run args)) ups
         /\ dels = map (fun k => delete_record bucket k (Args.dry_run args))
                     (if Args.delete args
                      then filter (fun k => k ∉ keys)
                             (Boto.matching_keys (objects st1) bucket (list_prefix_of prefix))
                      else []).
Proof.
  intros Hs.
  destruct (sync_ok_inv _ _ _ _ _ Hs)
    as (_ & _ & _ & _ & bucket & prefix & t1 & st1 & t2 & Hp & Hloop & Hdel & Hact & _).
  exists bucket, prefix, st1. split; [exact Hp|].
  apply upload_loop_ok in Hloop as (Hk & _ & (ups & Ha & _ & _ & Hall) & Hkeep).
  split; [exact Hkeep|]. intros files keys.
  apply delete_phase_ok in Hdel as (Ha2 & _).
  exists ups. eexists. split; [rewrite Hact, Ha2, Ha; reflexivity|].
  split; [exact Hall|].
  assert (Hkeys : local_key_set t1 = keys).
  { rewrite Hk. simpl. apply (right_id_L ∅ (∪)). }
  now rewrite Hkeys.
Qed.

Lemma upload_record_fields b k p d :
  action_kind (upload_record b k p d) = Some (VStr "upload")
  /\ action_key (upload_record b k p d) = Some (VStr k).
Proof. split; reflexivity. Qed.

Lemma delete_record_fields b k d :
  action_kind (delete_record b k d) = Some (VStr "delete")
  /\ action_key (delete_record b k d) = Some (VStr k).
Proof. split; reflexivity. Qed.

(** ** Uploads and deletions never meet *)

(** C3. In every reported run, whatever the strategy and the delete and
    dry-run flags: each upload action targets a key of the local key set,
    each delete action targets a listed key outside that set, and so no
    key is the target of both an upload and a delete action. *)
Theorem no_key_both_uploaded_and_deleted h args st r st' :
  sync h args st = (Ok (Some r), st') ->
  exists bucket prefix st1,
    parse_s3_uri (Args.s3_uri args) = Ok (bucket, prefix)
    /\ let keys := local_keys prefix
                     (yielded (iter_files h (resolve h (Args.local_dir args))
                                 (Args.exclude args))) in
       (forall a, a ∈ report_actions r -> action_kind a = Some (VStr "upload") ->
                  exists k, action_key a = Some (VStr k) /\ k ∈ keys)
       /\ (forall a, a ∈ report_actions r -> action_kind a = Some (VStr "delete") ->
                     exists k, action_key a = Some (VStr k) /\ (k ∉ keys)
                               /\ k ∈ Boto.matching_keys (objects st1) bucket
                                        (list_prefix_of prefix))
       /\ (forall a1 a2, a1 ∈ report_actions r -> a2 ∈ report_actions r ->
                         action_kind a1 = Some (VStr "upload") ->
                         action_kind a2 = Some (VStr "delete") ->
                         action_key a1 <> action_key a2).
Proof.
  intros Hs.
  destruct (sync_plan _ _ _ _ _ Hs)
    as (bucket & prefix & st1 & Hp & _ & ups & dels & Hact & Hups & Hdels).
  exists bucket, prefix, st1. split; [exact Hp|]. intros keys.
  assert (Hup : forall a, a ∈ report_actions r -> action_kind a = Some (VStr "upload") ->
                  exists k, action_key a = Some (VStr k) /\ k ∈ keys).
  { intros a Hin Hkind. rewrite Hact in Hin. apply elem_of_app in Hin as [Hin|Hin].
    - rewrite Forall_forall in Hups. destruct (Hups a Hin) as (f & Hf & ->).
      exists (key_of prefix f). split; [reflexivity|].
      apply elem_of_list_to_set, list_elem_of_fmap. eauto.
    - rewrite Hdels in Hin. apply list_elem_of_fmap in Hin as (k & -> & _).
      discriminate. }
  assert (Hde : forall a, a ∈ report_actions r -> action_kind a = Some (VStr "delete") ->
                  exists k, action_key a = Some (VStr k) /\ (k ∉ keys)
                            /\ k ∈ Boto.matching_keys (objects st1) bucket
                                     (list_prefix_of prefix)).
  { intros a Hin Hkind. rewrite Hact in Hin. apply elem_of_app in Hin as [Hin|Hin].
    - rewrite Forall_forall in Hups. destruct (Hups a Hin) as (f & Hf & ->).
      discriminate.
    - rewrite Hdels in Hin. apply list_elem_of_fmap in Hin as (k & -> & Hk).
      exists k. split; [reflexivity|].
      destruct (Args.delete args); [|inversion Hk].
      now apply list_elem_of_filter in Hk. }
  split; [exact Hup|]. split; [exact Hde|].
  intros a1 a2 H1 H2 K1 K2 Heq.
  destruct (Hup a1 H1 K1) as (k1 & Hk1 & Hin1).
  destruct (Hde a2 H2 K2) as (k2 & Hk2 & Hnot2 & _).
  rewrite Hk1, Hk2 in Heq. injection Heq as ->. contradiction.
Qed.

(** ** Keys *)

Lemma string_app_assoc (a b c : string) : (a +:+ b) +:+ c = a +:+ b +:+ c.
Proof.
  induction a as [|x a IH]; [reflexivity|].
  change (String x ((a +:+ b) +:+ c) = String x (a +:+ b +:+ c)). now rewrite IH.
Qed.

Lemma join_s3_key_inj prefix r1 r2 :
  join_s3_key prefix r1 = join_s3_key prefix r2 -> r1 = r2.
Proof.
  unfold join_s3_key. destruct (PyStr.truthy (PyStr.strip "/" prefix)); simpl; [|auto].
  intros H. apply String.app_inj in H. now apply String.app_inj in H.
Qed.

(** The key of a file lies under the listed prefix, for a prefix without
    slashes at its ends. *)
Lemma join_s3_key_listed prefix rel_posix :
  PyStr.strip "/" prefix = prefix ->
  PyStr.startswith (join_s3_key prefix rel_posix) (list_prefix_of prefix) = true.
Proof.
  intros Hs. unfold join_s3_key, list_prefix_of. rewrite Hs.
  destruct (PyStr.truthy prefix); simpl.
  - rewrite <- string_app_assoc. apply startswith_app.
  - apply startswith_empty.
Qed.

Lemma parse_s3_uri_prefix uri bucket prefix :
  parse_s3_uri uri = Ok (bucket, prefix) ->
  PyStr.strip "/" prefix = prefix /\ PyStr.truthy bucket = true.
Proof.
  unfold parse_s3_uri.
  destruct (PyStr.startswith uri "s3://"); cbn [negb]; [|discriminate].
  destruct (PyStr.truthy (fst (PyStr.split1 "/" (PyStr.drop 5 uri)))) eqn:Hb;
    cbn [negb]; [|discriminate].
  intros [= <- <-]. split; [apply strip_idem|exact Hb].
Qed.

(** ** The scan and the exclusion patterns *)



(** Every yielded item comes from a scanned non-directory entry whose
    relative path no pattern matches and whose [stat()] went through. *)
Lemma elem_of_iter_entries h l excludes f :
  f ∈ yielded (iter_entries h l excludes) ->
  exists p st, p ∈ l /\ entry_is_dir p = false
               /\ is_excluded h (entry_rel p) excludes = false
               /\ entry_stat p = Ok st /\ f = item_of_entry p st.
Proof.
  induction l as [|q l IH]; simpl; [intros H; inversion H|].
  assert (Hrest : f ∈ yielded (iter_entries h l excludes) ->
            exists p st, p ∈ q :: l /\ entry_is_dir p = false
                         /\ is_excluded h (entry_rel p) excludes = false
                         /\ entry_stat p = Ok st /\ f = item_of_entry p st).
  { intros (p & st & Hin & Hp)%IH. exists p, st. split; [now right|exact Hp]. }
  destruct (entry_is_dir q) eqn:Hd; [exact Hrest|].
  destruct (is_excluded h (entry_rel q) excludes) eqn:He; [exact Hrest|].
  destruct (entry_stat q) as [st|e] eqn:Hs; simpl; [|intros H; inversion H].
  intros Hin. apply elem_of_cons in Hin as [Hf|Hin]; [|now apply Hrest].
  subst f. exists q, st. split; [now left|]. repeat split; assumption.
Qed.





(** ** Excluded files and deletion *)

(** C10. With delete enabled, in a reported run, a scanned file that the
    exclusion patterns exclude does not enter the local key set, and when
    the bucket holds an object under the key the file would have, that
    object is planned for deletion: its deletion record is among the
    actions. *)
Theorem excluded_file_remote_object_deleted h args st r st' bucket prefix p :
  let files := yielded (iter_files h (resolve h (Args.local_dir args))
                          (Args.exclude args)) in
  let key := join_s3_key prefix (entry_rel p) in
  sync h args st = (Ok (Some r), st') ->
  Args.delete args = true ->
  parse_s3_uri (Args.s3_uri args) = Ok (bucket, prefix) ->
  p ∈ rglob h (resolve h (resolve h (Args.local_dir args))) ->
  entry_is_dir p = false ->
  is_excluded h (entry_rel p) (Args.exclude args) = true ->
  is_Some (objects st !! (bucket, key)) ->
  (key ∉ local_keys prefix files)
  /\ delete_record bucket key (Args.dry_run args) ∈ report_actions r.
Proof.
  intros files key Hs Hdel Hp Hin Hfile Hex Hobj.
  assert (Hnot : key ∉ local_keys prefix files).
  { intros Hk. apply elem_of_list_to_set, list_elem_of_fmap in Hk as (f & Hkey & Hf).
    apply join_s3_key_inj in Hkey.
    apply elem_of_iter_entries in Hf as (q & sq & _ & _ & Hq & _ & ->). simpl in Hkey.
    rewrite <- Hkey in Hq. congruence. }
  split; [exact Hnot|].
  destruct (sync_plan _ _ _ _ _ Hs)
    as (b & pr & st1 & Hp' & Hkeep & ups & dels & Hact & _ & Hdels).
  rewrite Hp in Hp'. injection Hp' as <- <-.
  rewrite Hact, Hdels, Hdel. apply elem_of_app. right.
  apply list_elem_of_fmap. exists key. split; [reflexivity|].
  apply list_elem_of_filter. split; [exact Hnot|].
  apply elem_of_matching_keys. split; [now apply Hkeep|].
  apply join_s3_key_listed. now apply parse_s3_uri_prefix in Hp.
Qed.

(** ** Dry runs *)

Lemma reads_only_refl st : reads_only st st.
Proof. split; [reflexivity|]. exists []. now rewrite app_nil_r. Qed.

Lemma reads_only_trans st1 st2 st3 :
  reads_only st1 st2 -> reads_only st2 st3 -> reads_only st1 st3.
Proof.
  intros (Ho1 & l1 & Hc1 & Hr1) (Ho2 & l2 & Hc2 & Hr2). split; [congruence|].
  exists (l1 ++ l2). rewrite Hc2, Hc1, app_assoc. split; [reflexivity|].
  now apply Forall_app.
Qed.

Lemma reads_only_call op st :
  is_read op = true -> reads_only st (Boto.record_call op st).
Proof.
  intros Hr. split; [reflexivity|]. exists [op]. split; [reflexivity|]. now constructor.
Qed.

Lemma for_each_reads_only {A S} (body : S -> A -> M S) xs :
  (forall acc x st, reads_only st (snd (body acc x st))) ->
  forall acc st, reads_only st (snd (for_each body xs acc st)).
Proof.
  intros Hb. induction xs as [|x xs IH]; intros acc st; simpl.
  - apply reads_only_refl.
  - unfold bind. specialize (Hb acc x st).
    destruct (body acc x st) as [[acc'|e] st1]; simpl in Hb.
    + eapply reads_only_trans; [exact Hb|apply IH].
    + exact Hb.
Qed.

Lemma sync_file_dry c args b prefix t f st :
  Args.dry_run args = true ->
  reads_only st (snd (sync_file c args b prefix t f st)).
Proof.
  intros Hdry.
  pose proof (head_state c b (join_s3_key prefix (FileItem.rel f)) st) as Hst.
  destruct (head_object_etag_size_mtime c b (join_s3_key prefix (FileItem.rel f)) st)
    as [[remote|e] st1] eqn:Hh; simpl in Hst; subst st1.
  - rewrite (sync_file_step _ _ _ _ _ _ _ _ _ Hh), Hdry.
    match goal with |- context [if ?cond then _ else _] => destruct cond end;
      rewrite ?upload_dry; cbn [snd]; now apply reads_only_call.
  - rewrite (sync_file_raise _ _ _ _ _ _ _ _ _ Hh). cbn [snd]. now apply reads_only_call.
Qed.

Lemma delete_stale_dry c args b t k st :
  Args.dry_run args = true ->
  reads_only st (snd (delete_stale c args b t k st)).
Proof.
  intros Hdry. unfold delete_stale. rewrite Hdry.
  destruct (negb _); simpl; apply reads_only_refl.
Qed.

Lemma delete_phase_dry c args b prefix t st :
  Args.dry_run args = true ->
  reads_only st (snd (delete_phase c args b prefix t st)).
Proof.
  intros Hdry. unfold delete_phase. fold (list_prefix_of prefix).
  destruct (Args.delete args); [|apply reads_only_refl].
  unfold bind. rewrite list_objects_keys_run.
  destruct (fault c _); cbn [snd]; [now apply reads_only_call|].
  apply (reads_only_trans _ (Boto.record_call (OpList b (list_prefix_of prefix)) st));
    [now apply reads_only_call|].
  apply for_each_reads_only. intros acc x s. now apply delete_stale_dry.
Qed.

Lemma sync_dry h args st :
  Args.dry_run args = true -> reads_only st (snd (sync h args st)).
Proof.
  intros Hdry. unfold sync, bind, lift, raise, ret.
  destruct (validate_creds h (Args.profile args)) as [[]|e]; [|apply reads_only_refl].
  destruct (String.eqb (Args.cmd args) "sync"); [|apply reads_only_refl].
  destruct (negb _ || negb _); [apply reads_only_refl|].
  destruct (parse_s3_uri (Args.s3_uri args)) as [[bucket prefix]|e];
    [|apply reads_only_refl].
  pose proof (for_each_reads_only
                (sync_file (s3_client h (Args.profile args) (Args.region args))
                   args bucket prefix)
                (yielded (iter_files h (resolve h (Args.local_dir args))
                            (Args.exclude args)))
                (fun acc x s => sync_file_dry _ args bucket prefix acc x s Hdry)
                tally0 st) as H1.
  rewrite for_gen_run.
  destruct (for_each _ _ tally0 st) as [[t1|e] st1]; simpl in H1; [|exact H1].
  destruct (failure _); [exact H1|].
  pose proof (delete_phase_dry (s3_client h (Args.profile args) (Args.region args))
                args bucket prefix t1 st1 Hdry) as H2.
  destruct (delete_phase _ args bucket prefix t1 st1) as [[t2|e] st2]; simpl in *;
    eapply reads_only_trans; eassumption.
Qed.

Lemma main_state h args st : snd (main h args st) = snd (sync h args st).
Proof. unfold main. now destruct (sync h args st) as [[[r|]|e] st']. Qed.

Lemma dict_get_upload_record b k p d d' fld :
  fld <> "dry_run" ->
  dict_get (upload_record b k p d) fld = dict_get (upload_record b k p d') fld.
Proof.
  intros Hne. unfold upload_record. cbn [dict_get].
  repeat (match goal with |- context [String.eqb ?x fld] =>
            destruct (String.eqb_spec x fld); [try reflexivity; congruence|] end).
  reflexivity.
Qed.

Lemma dict_get_delete_record b k d d' fld :
  fld <> "dry_run" ->
  dict_get (delete_record b k d) fld = dict_get (delete_record b k d') fld.
Proof.
  intros Hne. unfold delete_record. cbn [dict_get].
  repeat (match goal with |- context [String.eqb ?x fld] =>
            destruct (String.eqb_spec x fld); [try reflexivity; congruence|] end).
  reflexivity.
Qed.

(** C5. The record of an upload or of a deletion has the same fields in a
    dry run as in a live run, with the same values except for [dry_run];
    a dry upload or deletion leaves the remote side as it is; and over a
    whole dry run the objects of the remote store are unchanged and no put
    or delete call is issued (only head and list calls are). *)
Theorem dry_run_same_records_no_mutation h args st c bucket key local_path m s :
  Args.dry_run args = true ->
  (exists dry,
     upload_file c bucket key local_path m true s = (Ok dry, s)
     /\ dict_keys dry = ["action"; "bucket"; "key"; "local"; "dry_run"]
     /\ dict_get dry "dry_run" = Some (VBool true)
     /\ forall live s',
          upload_file c bucket key local_path m false s = (Ok live, s') ->
          dict_keys live = dict_keys dry
          /\ dict_get live "dry_run" = Some (VBool false)
          /\ forall fld, fld <> "dry_run" -> dict_get live fld = dict_get dry fld)
  /\ (exists dry,
        delete_object c bucket key true s = (Ok dry, s)
        /\ dict_keys dry = ["action"; "bucket"; "key"; "dry_run"]
        /\ dict_get dry "dry_run" = Some (VBool true)
        /\ forall live s',
             delete_object c bucket key false s = (Ok live, s') ->
             dict_keys live = dict_keys dry
             /\ dict_get live "dry_run" = Some (VBool false)
             /\ forall fld, fld <> "dry_run" -> dict_get live fld = dict_get dry fld)
  /\ objects (snd (main h args st)) = objects st
  /\ (forall op, op ∈ calls (snd (main h args st)) ->
                 op ∈ calls st \/ is_read op = true).
Proof.
  intros Hdry. split; [|split].
  - exists (upload_record bucket key local_path true).
    split; [apply upload_dry|]. split; [reflexivity|]. split; [reflexivity|].
    intros live s' Hlive. apply upload_ok in Hlive. subst live.
    split; [reflexivity|]. split; [reflexivity|].
    intros fld Hne. now apply dict_get_upload_record.
  - exists (delete_record bucket key true).
    split; [apply delete_dry|]. split; [reflexivity|]. split; [reflexivity|].
    intros live s' Hlive. apply delete_ok in Hlive. subst live.
    split; [reflexivity|]. split; [reflexivity|].
    intros fld Hne. now apply dict_get_delete_record.
  - rewrite main_state. destruct (sync_dry h args st Hdry) as (Ho & l & Hc & Hr).
    split; [exact Ho|]. intros op Hop. rewrite Hc in Hop.
    apply elem_of_app in Hop as [Hop|Hop]; [now left|right].
    rewrite Forall_forall in Hr. now apply Hr.
Qed.

(** ** A local root that is missing or not a directory *)

(** C9, as stated, fails: over a missing root the run fails with a
    [ValueError], not with a [NotADirectoryError]. *)
Lemma missing_root_raises_ValueError_not_NotADirectoryError :
  path_exists Demo.host (resolve Demo.host (Args.local_dir Demo.args_missing)) = false
  /\ ~ (exists e st',
          sync Demo.host Demo.args_missing Demo.remote = (Raise e, st')
          /\ exn_class e = "NotADirectoryError")
  /\ fst (sync Demo.host Demo.args_missing Demo.remote)
     = Raise (ValueError "local_dir not found or not a directory: /missing").
Proof.
  split; [reflexivity|]. split; [|reflexivity].
  intros (e & st' & Hs & Hc).
  assert (He : fst (sync Demo.host Demo.args_missing Demo.remote) = Raise e)
    by now rewrite Hs.
  vm_compute in He. injection He as <-. discriminate.
Qed.

(** C9, amended. If the resolved local root does not exist or is not a
    directory, the run ends with [EXIT_ERROR] and no report, and the remote
    side is exactly as before: no call on the client was issued, so no
    object was mutated. When the credentials check passes, the failure is
    the [ValueError] "local_dir not found or not a directory: <root>", and
    that message is what [main] logs. *)
Theorem missing_root_fails_before_any_remote_call h args st :
  let root := resolve h (Args.local_dir args) in
  Args.cmd args = "sync" ->
  path_exists h root = false \/ path_is_dir h root = false ->
  snd (main h args st) = st
  /\ exit_code (fst (main h args st)) = EXIT_ERROR
  /\ exit_code (fst (main h args st)) <> 0
  /\ printed (fst (main h args st)) = None
  /\ (validate_creds h (Args.profile args) = Ok tt ->
      sync h args st
      = (Raise (ValueError ("local_dir not found or not a directory: " +:+ root)), st)
      /\ logged_error (fst (main h args st))
         = Some ("local_dir not found or not a directory: " +:+ root)).
Proof.
  intros root Hcmd Hroot.
  assert (Hguard : negb (path_exists h root) || negb (path_is_dir h root) = true).
  { destruct Hroot as [-> | ->]; [reflexivity|]. apply orb_true_r. }
  assert (Hsync : exists e,
            sync h args st = (Raise e, st)
            /\ (validate_creds h (Args.profile args) = Ok tt ->
                e = ValueError ("local_dir not found or not a directory: " +:+ root))).
  { unfold sync, bind, lift, raise.
    destruct (validate_creds h (Args.profile args)) as [[]|e].
    - rewrite Hcmd. simpl String.eqb. cbv iota. fold root. rewrite Hguard. eauto.
    - exists e. split; [reflexivity|discriminate]. }
  destruct Hsync as (e & Hs & He).
  rewrite (main_aborted _ _ _ _ _ Hs). cbn [fst snd exit_code printed logged_error].
  split; [reflexivity|]. split; [reflexivity|]. split; [discriminate|].
  split; [reflexivity|]. intros Hv. rewrite Hs, (He Hv). split; reflexivity.
Qed.

(** * Concrete runs *)

Example str_of_int_examples :
  PyStr.str_of_int 1700000000 = "1700000000" /\ PyStr.str_of_int 0 = "0"
  /\ PyStr.str_of_int (-42) = "-42" /\ PyStr.int_of_str "007" = Some 7
  /\ PyStr.isdigit "12a" = false /\ PyStr.isdigit "" = false.
Proof. repeat split. Qed.

Example parse_s3_uri_examples :
  parse_s3_uri "s3://bkt/pre/fix//" = Ok ("bkt", "pre/fix")
  /\ parse_s3_uri "s3://bkt" = Ok ("bkt", "")
  /\ parse_s3_uri "s3:///pre" = Raise (ValueError "Invalid s3_uri: missing bucket")
  /\ parse_s3_uri "bkt/pre" = Raise (ValueError "s3_uri must start with s3://bucket/prefix").
Proof. repeat split. Qed.

Example join_s3_key_examples :
  join_s3_key "pre/fix" "a/b.txt" = "pre/fix/a/b.txt"
  /\ join_s3_key "" "a/b.txt" = "a/b.txt"
  /\ join_s3_key "/pre/" "x" = "pre/x".
Proof. repeat split. Qed.

Example fnmatchcase_examples :
  Glob.fnmatchcase "b.log" "*.log" = true
  /\ Glob.fnmatchcase "a.txt" "*.log" = false
  /\ Glob.fnmatchcase "tmp/x/y.txt" "tmp/*" = true
  /\ Glob.fnmatchcase "a1.txt" "a[0-9].tx?" = true
  /\ Glob.fnmatchcase "ab.txt" "a[!0-9].txt" = true
  /\ Glob.fnmatchcase "a[.txt" "a[.t*" = true.
Proof. repeat split. Qed.

(** The example scenario: [a.txt] is skipped, [old.txt] is deleted, and
    [b.log] is excluded; uploaded 0, skipped 1, deleted 1. *)
Example scenario_skip_and_delete :
  fst (main Demo.host Demo.args (Demo.remote_two (Some "1000")))
  = {| exit_code := 0;
       printed := Some (PrintedJson
         [("cmd", VStr "sync"); ("local_dir", VStr "/data"); ("bucket", VStr "bkt");
          ("prefix", VStr ""); ("dry_run", VBool false); ("uploaded", VInt 0);
          ("skipped", VInt 1); ("deleted", VInt 1); ("total_actions", VInt 1)]
         [delete_record "bkt" "old.txt" false]);
       logged_error := None |}.
Proof. vm_compute. reflexivity. Qed.

(** The same with no stored mtime on the remote [a.txt]: it is uploaded. *)
Example scenario_absent_mtime_uploads :
  fst (main Demo.host Demo.args (Demo.remote_two None))
  = {| exit_code := 0;
       printed := Some (PrintedJson
         [("cmd", VStr "sync"); ("local_dir", VStr "/data"); ("bucket", VStr "bkt");
          ("prefix", VStr ""); ("dry_run", VBool false); ("uploaded", VInt 1);
          ("skipped", VInt 0); ("deleted", VInt 1); ("total_actions", VInt 2)]
         [upload_record "bkt" "a.txt" "/data/a.txt" false;
          delete_record "bkt" "old.txt" false]);
       logged_error := None |}.
Proof. vm_compute. reflexivity. Qed.

(** [isdigit] accepts the superscript two; [int] does not. *)
Example isdigit_examples :
  PyStr.isdigit Demo.superscript_two = true
  /\ PyStr.int_of_str Demo.superscript_two = None
  /\ PyStr.isdigit ("12" +:+ Demo.superscript_two) = true
  /\ PyStr.int_of_str ("12" +:+ Demo.superscript_two) = None
  /\ PyStr.isdigit "1700000000" = true /\ PyStr.isdigit "-5" = false
  /\ PyStr.isdigit "1.5" = false.
Proof. repeat split. Qed.

(** A dangling symbolic link scanned after [a.txt]: the scan yields
    [a.txt] and then raises; the run has put [a.txt] when it ends with
    [EXIT_ERROR] and the error of [stat()] in the log. With the link
    excluded, the run reports. *)
Example scenario_dangling_link :
  iter_files (Demo.host_scanning [Demo.entry_a; Demo.entry_link; Demo.entry_b])
    "/data" ["*.log"]
  = GYield Demo.file_a (GRaise Demo.no_such_file)
  /\ fst (main (Demo.host_scanning [Demo.entry_a; Demo.entry_link; Demo.entry_b])
            Demo.args (Demo.remote_two None))
     = {| exit_code := 2; printed := None;
          logged_error := Some "[Errno 2] No such file or directory: '/data/link'" |}
  /\ calls (snd (main (Demo.host_scanning [Demo.entry_a; Demo.entry_link; Demo.entry_b])
                   Demo.args (Demo.remote_two None)))
     = [OpHead "bkt" "a.txt"; OpPut "bkt" "a.txt"]
  /\ exit_code (fst (main (Demo.host_scanning [Demo.entry_a; Demo.entry_link; Demo.entry_b])
                       (Demo.args_excluding ["*.log"; "link"]) (Demo.remote_two None)))
     = 0.
Proof. repeat split; vm_compute; reflexivity. Qed.

(** The calls of the live run of the scenario, in order. *)
Example scenario_calls :
  calls (snd (main Demo.host Demo.args (Demo.remote_two None)))
  = [OpHead "bkt" "a.txt"; OpPut "bkt" "a.txt"; OpList "bkt" "";
     OpDelete "bkt" "old.txt"].
Proof. vm_compute. reflexivity. Qed.

(** * The theorems at the example scenario *)

Lemma size_mtime_plans_upload_or_skip_at_demo :
  exists t' st2,
    sync_file Demo.client Demo.args "bkt" "" tally0 Demo.file_a Demo.remote = (Ok t', st2)
    /\ planned_skip tally0 t'.
Proof.
  destruct (size_mtime_plans_upload_or_skip Demo.client Demo.args "bkt" "" tally0
              Demo.file_a Demo.remote (Some ("e1", 100, Some 1000))
              (Boto.record_call (OpHead "bkt" "a.txt") Demo.remote))
    as (t' & st2 & Hrun & _ & Hskip).
  - reflexivity.
  - vm_compute. reflexivity.
  - right. reflexivity.
  - exists t', st2. split; [exact Hrun|]. apply Hskip.
    intros [H|[H|H]]; [apply H; reflexivity|discriminate|apply H; reflexivity].
Defined.

Lemma size_only_ignores_stored_mtime_at_demo :
  exists t' st2,
    sync_file Demo.client Demo.args_size_only "bkt" "" tally0 Demo.file_a Demo.remote
    = (Ok t', st2)
    /\ planned_skip tally0 t'.
Proof.
  destruct (size_only_ignores_stored_mtime Demo.client Demo.args_size_only "bkt" ""
              tally0 Demo.file_a Demo.remote "e1" 100 (Some 1000)
              (Boto.record_call (OpHead "bkt" "a.txt") Demo.remote))
    as (t' & st2 & Hrun & _ & Hskip & _).
  - reflexivity.
  - vm_compute. reflexivity.
  - right. reflexivity.
  - exists t', st2. split; [exact Hrun|]. now apply Hskip.
Defined.

Lemma no_key_both_uploaded_and_deleted_at_demo :
  exists r st',
    sync Demo.host Demo.args Demo.remote = (Ok (Some r), st')
    /\ forall a1 a2, a1 ∈ report_actions r -> a2 ∈ report_actions r ->
                     action_kind a1 = Some (VStr "upload") ->
                     action_kind a2 = Some (VStr "delete") ->
                     action_key a1 <> action_key a2.
Proof.
  destruct (sync Demo.host Demo.args Demo.remote) as [[[r|]|e] st'] eqn:Hs;
    [|vm_compute in Hs; discriminate..].
  exists r, st'. split; [reflexivity|].
  destruct (no_key_both_uploaded_and_deleted _ _ _ _ _ Hs)
    as (bucket & prefix & st1 & _ & _ & _ & Hdisj).
  exact Hdisj.
Defined.

Lemma deletion_phase_deletes_each_stale_key_once_at_demo :
  let t := {| actions := []; uploaded := 0; skipped := 1; deleted := 0;
              local_key_set := {[ "a.txt" ]} |} in
  exists t' st' listed,
    delete_phase Demo.client Demo.args "bkt" "" t Demo.remote = (Ok t', st')
    /\ NoDup listed
    /\ actions t' = map (fun k => delete_record "bkt" k false)
                      (filter (fun k => k ∉ local_key_set t) listed).
Proof.
  intros t.
  destruct (delete_phase Demo.client Demo.args "bkt" "" t Demo.remote)
    as [[t'|e] st'] eqn:Hd; [|vm_compute in Hd; discriminate].
  destruct (deletion_phase_deletes_each_stale_key_once Demo.client Demo.args "bkt" ""
              t Demo.remote t' st' eq_refl Hd)
    as (listed & dels & _ & _ & Hnd & _ & Ha & Hdels & _).
  exists t', st', listed. split; [reflexivity|]. split; [exact Hnd|].
  rewrite Ha, Hdels. reflexivity.
Defined.

Lemma dry_run_same_records_no_mutation_at_demo :
  objects (snd (main Demo.host Demo.args_dry Demo.remote)) = objects Demo.remote
  /\ forall op, op ∈ calls (snd (main Demo.host Demo.args_dry Demo.remote)) ->
                op ∈ calls Demo.remote \/ is_read op = true.
Proof.
  destruct (dry_run_same_records_no_mutation Demo.host Demo.args_dry Demo.remote
              Demo.client "bkt" "a.txt" "/data/a.txt" 1000 Demo.remote eq_refl)
    as (_ & _ & Hobj & Hcalls).
  split; [exact Hobj|exact Hcalls].
Defined.



Lemma head_not_found_uploads_other_failures_abort_at_demo :
  (exit_code (fst (main (Demo.host_failing Demo.access_denied) Demo.args Demo.remote))
   = EXIT_ERROR
   /\ printed (fst (main (Demo.host_failing Demo.access_denied) Demo.args Demo.remote))
      = None)
  /\ exists t' st',
       sync_file (s3_client (Demo.host_failing Demo.no_such_key) None "ap-southeast-2")
         Demo.args "bkt" "" tally0 Demo.file_a Demo.remote = (Ok t', st')
       /\ planned_upload Demo.args "bkt" "a.txt" Demo.file_a tally0 t'.
Proof.
  split.
  - destruct (head_not_found_uploads_other_failures_abort
                (Demo.host_failing Demo.access_denied) Demo.args Demo.remote
                "bkt" "" tally0 Demo.file_a Demo.access_denied eq_refl)
      as (_ & Habort).
    destruct (Habort eq_refl) as (_ & _ & Hmain).
    apply Hmain; [reflexivity|]. vm_compute. constructor.
  - destruct (head_not_found_uploads_other_failures_abort
                (Demo.host_failing Demo.no_such_key) Demo.args Demo.remote
                "bkt" "" tally0 Demo.file_a Demo.no_such_key eq_refl)
      as (Hnf & _).
    destruct (Hnf eq_refl) as (_ & Hup). apply Hup. right. reflexivity.
Defined.

Lemma missing_root_fails_before_any_remote_call_at_demo :
  snd (main Demo.host Demo.args_missing Demo.remote) = Demo.remote
  /\ exit_code (fst (main Demo.host Demo.args_missing Demo.remote)) = EXIT_ERROR.
Proof.
  destruct (missing_root_fails_before_any_remote_call Demo.host Demo.args_missing
              Demo.remote)
    as (Hst & Hexit & _).
  - reflexivity.
  - left. reflexivity.
  - split; [exact Hst|exact Hexit].
Defined.

Lemma excluded_file_remote_object_deleted_at_demo :
  exists r st',
    sync Demo.host Demo.args Demo.remote = (Ok (Some r), st')
    /\ delete_record "bkt" "b.log" false ∈ report_actions r.
Proof.
  destruct (sync Demo.host Demo.args Demo.remote) as [[[r|]|e] st'] eqn:Hs;
    [|vm_compute in Hs; discriminate..].
  exists r, st'. split; [reflexivity|].
  destruct (excluded_file_remote_object_deleted Demo.host Demo.args Demo.remote r st'
              "bkt" "" Demo.entry_b Hs) as (_ & Hdel).
  - reflexivity.
  - reflexivity.
  - simpl. repeat constructor.
  - reflexivity.
  - reflexivity.
  - eexists. vm_compute. reflexivity.
  - exact Hdel.
Defined.

(** * Further properties of the program *)

(** ** Target locations: [parse_s3_uri] *)

Lemma startswith_split s p :
  PyStr.startswith s p = true -> s = p +:+ PyStr.drop (String.length p) s.
Proof.
  revert s. induction p as [|b p IH]; intros s H; [reflexivity|].
  destruct s as [|a s]; [discriminate|]. simpl in H.
  destruct (Ascii.eqb_spec a b) as [->|]; [|discriminate].
  change (String b s = String b (p +:+ PyStr.drop (String.length p) s)).
  f_equal. now apply IH.
Qed.

Lemma split1_spec sep s :
  has_char sep (fst (PyStr.split1 sep s)) = false
  /\ match snd (PyStr.split1 sep s) with
     | None => s = fst (PyStr.split1 sep s)
     | Some r => s = fst (PyStr.split1 sep s) +:+ String sep r
     end.
Proof.
  induction s as [|a s [IH1 IH2]]; simpl; [split; reflexivity|].
  destruct (Ascii.eqb_spec a sep) as [->|Hne]; simpl; [split; reflexivity|].
  destruct (PyStr.split1 sep s) as [hd tl]; simpl in *.
  split.
  - rewrite IH1. destruct (Ascii.eqb_spec a sep); [contradiction|reflexivity].
  - destruct tl as [r|].
    + change (String a s = String a (hd +:+ String sep r)). now f_equal.
    + now f_equal.
Qed.

(** Splitting a string whose head part has no separator gives that part. *)
Lemma split1_app sep hd r :
  has_char sep hd = false ->
  PyStr.split1 sep (hd +:+ String sep r) = (hd, Some r)
  /\ PyStr.split1 sep hd = (hd, None).
Proof.
  induction hd as [|a hd IH]; intros H.
  - split; [|reflexivity]. change (EmptyString +:+ String sep r) with (String sep r).
    simpl. now rewrite Ascii.eqb_refl.
  - simpl in H. apply orb_false_iff in H as [Ha Hh]. destruct (IH Hh) as [IH1 IH2].
    change (String a hd +:+ String sep r) with (String a (hd +:+ String sep r)).
    simpl. rewrite Ha, IH1, IH2. split; reflexivity.
Qed.

Lemma rstrip_last c s : last_char (PyStr.rstrip c s) <> Some c.
Proof.
  induction s as [|a s IH]; simpl; [discriminate|].
  destruct (PyStr.rstrip c s) as [|b r] eqn:R.
  - destruct (Ascii.eqb_spec a c); simpl; congruence.
  - exact IH.
Qed.

Lemma lstrip_first c s : PyStr.startswith (PyStr.lstrip c s) (String c EmptyString) = false.
Proof.
  induction s as [|a s IH]; simpl; [reflexivity|].
  destruct (Ascii.eqb a c) eqn:E; [exact IH|]. simpl. now rewrite E.
Qed.

(** A stripped string neither starts nor ends with the stripped character. *)
Lemma strip_ends c s :
  PyStr.startswith (PyStr.strip c s) (String c EmptyString) = false
  /\ last_char (PyStr.strip c s) <> Some c.
Proof.
  split; [|apply rstrip_last].
  unfold PyStr.strip. rewrite <- lstrip_rstrip_lstrip. apply lstrip_first.
Qed.

(** X1. A target location that [parse_s3_uri] accepts starts with
    [s3://]; the bucket it returns is not empty and holds no slash; the
    prefix neither starts nor ends with a slash; and the location is the
    bucket alone, or the bucket, a slash, and a tail that strips to the
    prefix. *)
Theorem parse_s3_uri_accepts uri bucket prefix :
  parse_s3_uri uri = Ok (bucket, prefix) ->
  PyStr.startswith uri "s3://" = true
  /\ bucket <> EmptyString
  /\ has_char "/" bucket = false
  /\ PyStr.startswith prefix "/" = false
  /\ last_char prefix <> Some "/"%char
  /\ ((uri = "s3://" +:+ bucket /\ prefix = EmptyString)
      \/ exists tail, uri = "s3://" +:+ bucket +:+ "/" +:+ tail
                      /\ prefix = PyStr.strip "/" tail).
Proof.
  unfold parse_s3_uri.
  destruct (PyStr.startswith uri "s3://") eqn:Hs; cbn [negb]; [|discriminate].
  destruct (split1_spec "/" (PyStr.drop 5 uri)) as [Hno Hsplit].
  destruct (PyStr.split1 "/" (PyStr.drop 5 uri)) as [hd tl]. cbn [fst snd] in *.
  destruct (PyStr.truthy hd) eqn:Hb; cbn [negb]; [|discriminate].
  intros [= <- <-]. apply startswith_split in Hs. change (String.length "s3://") with 5%nat in Hs.
  split; [reflexivity|]. split; [now destruct hd|]. split; [exact Hno|].
  destruct (strip_ends "/" (default EmptyString tl)) as [H1 H2].
  split; [exact H1|]. split; [exact H2|].
  destruct tl as [r|]; simpl default.
  - right. exists r. split; [|reflexivity]. rewrite Hs at 1. now rewrite Hsplit.
  - left. split; [|reflexivity]. rewrite Hs at 1. now rewrite Hsplit.
Qed.

(** X2. Formatting and parsing a target location round-trip: for a
    non-empty bucket without a slash, [s3://bucket] parses to the bucket and
    the empty prefix, and [s3://bucket/tail] to the bucket and the tail
    stripped of its slashes; so the location that [main] prints for a parsed
    bucket and prefix parses back to the same pair. *)
Theorem parse_s3_uri_round_trip bucket tail :
  bucket <> EmptyString ->
  has_char "/" bucket = false ->
  parse_s3_uri ("s3://" +:+ bucket) = Ok (bucket, EmptyString)
  /\ parse_s3_uri ("s3://" +:+ bucket +:+ "/" +:+ tail) = Ok (bucket, PyStr.strip "/" tail)
  /\ (forall uri prefix,
        parse_s3_uri uri = Ok (bucket, prefix) ->
        parse_s3_uri ("s3://" +:+ bucket +:+ "/" +:+ prefix) = Ok (bucket, prefix)).
Proof.
  intros Hne Hno.
  assert (Ht : PyStr.truthy bucket = true) by now destruct bucket.
  destruct (split1_app "/" bucket tail Hno) as [Hsp1 Hsp2].
  assert (H1 : parse_s3_uri ("s3://" +:+ bucket) = Ok (bucket, EmptyString)).
  { unfold parse_s3_uri. change ("s3://" +:+ bucket) with
      (String "s" (String "3" (String ":" (String "/" (String "/" bucket))))).
    cbn [PyStr.startswith PyStr.drop Ascii.eqb Bool.eqb negb andb].
    rewrite Hsp2, startswith_empty. cbn [fst snd]. now rewrite Ht. }
  assert (H2 : forall tl, parse_s3_uri ("s3://" +:+ bucket +:+ "/" +:+ tl)
                          = Ok (bucket, PyStr.strip "/" tl)).
  { intros tl. destruct (split1_app "/" bucket tl Hno) as [Hsp _].
    unfold parse_s3_uri. change ("s3://" +:+ bucket +:+ "/" +:+ tl) with
      (String "s" (String "3" (String ":" (String "/" (String "/"
         (bucket +:+ String "/" tl)))))).
    cbn [PyStr.startswith PyStr.drop Ascii.eqb Bool.eqb negb andb].
    rewrite Hsp, startswith_empty. cbn [fst snd]. now rewrite Ht. }
  split; [exact H1|]. split; [apply H2|].
  intros uri prefix Hp. rewrite H2. f_equal. f_equal.
  now apply parse_s3_uri_prefix in Hp.
Qed.

(** X3. [parse_s3_uri] rejects a location exactly when it does not start
    with [s3://], or nothing follows [s3://], or a slash follows it
    directly; the first case raises the [ValueError] about the scheme, the
    other two the [ValueError] about the missing bucket. *)
Theorem parse_s3_uri_rejects uri :
  (PyStr.startswith uri "s3://" = false
   <-> parse_s3_uri uri = Raise (ValueError "s3_uri must start with s3://bucket/prefix"))
  /\ (uri = "s3://" \/ PyStr.startswith uri "s3:///" = true
      <-> parse_s3_uri uri = Raise (ValueError "Invalid s3_uri: missing bucket"))
  /\ ((exists bucket prefix, parse_s3_uri uri = Ok (bucket, prefix))
      <-> PyStr.startswith uri "s3://" = true /\ uri <> "s3://"
          /\ PyStr.startswith uri "s3:///" = false).
Proof.
  assert (Hcases :
    (PyStr.startswith uri "s3://" = false
     /\ parse_s3_uri uri = Raise (ValueError "s3_uri must start with s3://bucket/prefix"))
    \/ (PyStr.startswith uri "s3://" = true
        /\ (uri = "s3://" \/ PyStr.startswith uri "s3:///" = true)
        /\ parse_s3_uri uri = Raise (ValueError "Invalid s3_uri: missing bucket"))
    \/ (PyStr.startswith uri "s3://" = true /\ uri <> "s3://"
        /\ PyStr.startswith uri "s3:///" = false
        /\ exists bucket prefix, parse_s3_uri uri = Ok (bucket, prefix))).
  { unfold parse_s3_uri.
    destruct (PyStr.startswith uri "s3://") eqn:Hs; cbn [negb]; [|now left].
    right. apply startswith_split in Hs. change (String.length "s3://") with 5%nat in Hs.
    destruct (PyStr.drop 5 uri) as [|a rest] eqn:Hd.
    - left. split; [reflexivity|]. split; [left; exact Hs|reflexivity].
    - simpl PyStr.split1. destruct (Ascii.eqb_spec a "/") as [->|Hne].
      + left. split; [reflexivity|]. split; [|reflexivity]. right. rewrite Hs.
        now destruct rest.
      + right. split; [reflexivity|].
        split; [rewrite Hs; discriminate|].
        split.
        * rewrite Hs.
          change ("s3://" +:+ String a rest) with
            (String "s" (String "3" (String ":" (String "/" (String "/" (String a rest)))))).
          cbn [PyStr.startswith Ascii.eqb Bool.eqb].
          destruct (Ascii.eqb_spec a "/"); [contradiction|reflexivity].
        * destruct (PyStr.split1 "/" rest) as [hd tl]. cbn [fst snd PyStr.truthy negb].
          eauto. }
  destruct Hcases as [(Hs & Hp) | [(Hs & Hb & Hp) | (Hs & Hn & Hb & bucket & prefix & Hp)]];
    rewrite Hp.
  - split; [tauto|]. split.
    + split; [|discriminate]. intros [-> | H]; [discriminate|].
      apply startswith_split in H. rewrite H in Hs. discriminate.
    + split; [intros (b & p & H); discriminate|]. intros [H _]. congruence.
  - split; [split; intros; [congruence|discriminate]|]. split; [tauto|].
    split; [intros (b & p & H); discriminate|]. intros (_ & Hn & Hb').
    destruct Hb as [->|Hb]; [contradiction|congruence].
  - split; [split; intros; [congruence|discriminate]|]. split.
    + split; [|discriminate]. intros [->|H]; [contradiction|congruence].
    + split; [tauto|eauto].
Qed.

(** ** Keys: [join_s3_key] *)

(** X4. For any prefix, [join_s3_key] maps distinct relative paths to
    distinct keys; slashes around the prefix make no difference; with a
    prefix that is empty once stripped the key is the relative path, and
    otherwise it is the stripped prefix, a slash, and the relative path. *)
Theorem join_s3_key_shape prefix :
  (forall r1 r2, join_s3_key prefix r1 = join_s3_key prefix r2 -> r1 = r2)
  /\ (forall r, join_s3_key (PyStr.strip "/" prefix) r = join_s3_key prefix r)
  /\ (forall r, PyStr.strip "/" prefix = EmptyString -> join_s3_key prefix r = r)
  /\ (forall r, PyStr.strip "/" prefix <> EmptyString ->
                join_s3_key prefix r = PyStr.strip "/" prefix +:+ "/" +:+ r).
Proof.
  split; [intros r1 r2; apply join_s3_key_inj|].
  split; [intros r; unfold join_s3_key; now rewrite strip_idem|].
  split; intros r H; unfold join_s3_key.
  - now rewrite H.
  - destruct (PyStr.strip "/" prefix); [contradiction|reflexivity].
Qed.

(** X5. For a bucket and prefix that [parse_s3_uri] returns, the key of
    every relative path is the prefix that the deletion phase lists
    followed by the relative path: every key the run writes lies inside
    the listing of its own deletion phase. *)
Theorem parsed_prefix_keys_are_listed uri bucket prefix rel_posix :
  parse_s3_uri uri = Ok (bucket, prefix) ->
  join_s3_key prefix rel_posix = list_prefix_of prefix +:+ rel_posix
  /\ PyStr.startswith (join_s3_key prefix rel_posix) (list_prefix_of prefix) = true.
Proof.
  intros Hp. apply parse_s3_uri_prefix in Hp as [Hs _].
  split; [|now apply join_s3_key_listed].
  unfold join_s3_key, list_prefix_of. rewrite Hs.
  destruct (PyStr.truthy prefix); simpl; [|reflexivity].
  now rewrite string_app_assoc.
Qed.

(** ** The scan: [iter_files] *)






(** ** The report *)

Lemma upload_loop_skipped c args b prefix files : forall t st t1 st1,
  for_each (sync_file c args b prefix) files t st = (Ok t1, st1) ->
  skipped t <= skipped t1.
Proof.
  induction files as [|f files IH]; intros t st t1 st1 H; simpl in H.
  - injection H as <- <-. lia.
  - unfold bind in H.
    destruct (sync_file c args b prefix t f st) as [[t'|e] st'] eqn:Hf; [|discriminate].
    apply sync_file_ok in Hf as (_ & _ & Hstep & _). apply IH in H.
    destruct Hstep as [(_ & _ & Hs) | (_ & _ & Hs)]; lia.
Qed.

(** X7. In a run that reports: every scanned file is counted once, as
    uploaded or as skipped; the action list holds one record per upload and
    one per deletion; the counters are not negative; without the delete flag
    nothing is counted as deleted; and the summary carries these counters,
    the number of actions and the dry-run flag. *)
Theorem report_counters h args st r st' :
  sync h args st = (Ok (Some r), st') ->
  let files := yielded (iter_files h (resolve h (Args.local_dir args))
                          (Args.exclude args)) in
  report_uploaded r + report_skipped r = Z.of_nat (length files)
  /\ Z.of_nat (length (report_actions r)) = report_uploaded r + report_deleted r
  /\ 0 <= report_uploaded r /\ 0 <= report_skipped r /\ 0 <= report_deleted r
  /\ (Args.delete args = false -> report_deleted r = 0)
  /\ dict_get (summary r) "uploaded" = Some (VInt (report_uploaded r))
  /\ dict_get (summary r) "skipped" = Some (VInt (report_skipped r))
  /\ dict_get (summary r) "deleted" = Some (VInt (report_deleted r))
  /\ dict_get (summary r) "total_actions"
     = Some (VInt (report_uploaded r + report_deleted r))
  /\ dict_get (summary r) "dry_run" = Some (VBool (Args.dry_run args)).
Proof.
  intros Hs files.
  destruct (sync_ok_inv _ _ _ _ _ Hs)
    as (_ & _ & _ & _ & bucket & prefix & t1 & st1 & t2 & _ & Hloop & Hdel
        & Hact & _ & _ & Hu & Hsk & Hd & Hsum).
  pose proof (upload_loop_skipped _ _ _ _ _ _ _ _ _ Hloop) as Hsk1.
  apply upload_loop_ok in Hloop as (_ & Hd1 & (ups & Ha1 & Hu1 & Hus1 & _) & _).
  apply delete_phase_ok in Hdel as (Ha2 & Hd2 & Hu2 & Hs2 & _ & _).
  simpl in Ha1, Hu1, Hus1, Hd1, Hsk1. fold files in Hus1.
  assert (Hlen : Z.of_nat (length (actions t2)) = uploaded t2 + deleted t2).
  { rewrite Ha2, Ha1, length_app, length_map, Hd2, Hu2, Hu1, Hd1. lia. }
  rewrite Hsum, Hu, Hsk, Hd, Hact. cbn [dict_get String.eqb Ascii.eqb Bool.eqb].
  rewrite Hlen.
  split; [lia|]. split; [reflexivity|]. split; [lia|]. split; [lia|]. split; [lia|].
  split; [|repeat split].
  intros Hno. rewrite Hno in Hd2. simpl in Hd2. lia.
Qed.

(** ** Configuration failures *)

(** X8. When the credentials check fails, no call on the S3 client is
    issued and the run ends with [EXIT_ERROR] and no report. A
    [NoCredentialsError] or [ProfileNotFound] is turned into a
    [RuntimeError] whose message is ["AWS credentials/profile error: "]
    followed by the original message; any other failure is passed on as it
    is; [main] logs the message of what was raised. *)
Theorem credential_failure_aborts h args st e0 :
  get_caller_identity h (session (Args.profile args)) = Some e0 ->
  exists e,
    validate_creds h (Args.profile args) = Raise e
    /\ sync h args st = (Raise e, st)
    /\ main h args st
       = ({| exit_code := EXIT_ERROR; printed := None;
             logged_error := Some (exn_str e) |}, st)
    /\ ((exists m, (e0 = NoCredentialsError m \/ e0 = ProfileNotFound m)
                   /\ e = RuntimeError ("AWS credentials/profile error: " +:+ m))
        \/ (e = e0 /\ forall m, e0 <> NoCredentialsError m /\ e0 <> ProfileNotFound m)).
Proof.
  intros H0.
  assert (Hv : exists e, validate_creds h (Args.profile args) = Raise e
    /\ ((exists m, (e0 = NoCredentialsError m \/ e0 = ProfileNotFound m)
                   /\ e = RuntimeError ("AWS credentials/profile error: " +:+ m))
        \/ (e = e0 /\ forall m, e0 <> NoCredentialsError m /\ e0 <> ProfileNotFound m))).
  { unfold validate_creds. rewrite H0.
    destruct e0; eexists; (split; [reflexivity|]);
      try (right; split; [reflexivity|]; intros m'; split; discriminate);
      left; eauto. }
  destruct Hv as (e & Hv & Hshape). exists e. split; [exact Hv|].
  assert (Hs : sync h args st = (Raise e, st))
    by (unfold sync, bind, lift; now rewrite Hv).
  split; [exact Hs|]. split; [now apply main_aborted|exact Hshape].
Qed.

(** X9. When the target location is not accepted by [parse_s3_uri], no
    call on the S3 client is issued and the run ends with [EXIT_ERROR] and
    no report; when the credentials and the local root are fine, what is
    raised is the [ValueError] of [parse_s3_uri], and its message is what
    [main] logs. *)
Theorem invalid_uri_fails_before_any_remote_call h args st e :
  parse_s3_uri (Args.s3_uri args) = Raise e ->
  snd (main h args st) = st
  /\ exit_code (fst (main h args st)) = EXIT_ERROR
  /\ printed (fst (main h args st)) = None
  /\ exn_class e = "ValueError"
  /\ (validate_creds h (Args.profile args) = Ok tt ->
      Args.cmd args = "sync" ->
      path_exists h (resolve h (Args.local_dir args)) = true ->
      path_is_dir h (resolve h (Args.local_dir args)) = true ->
      sync h args st = (Raise e, st)
      /\ logged_error (fst (main h args st)) = Some (exn_str e)).
Proof.
  intros Hp.
  assert (Hstate : (exists e', sync h args st = (Raise e', st))
                   \/ sync h args st = (Ok None, st)).
  { unfold sync, bind, lift, raise, ret.
    destruct (validate_creds h (Args.profile args)) as [[]|e']; [|eauto].
    destruct (String.eqb (Args.cmd args) "sync"); [|now right].
    destruct (negb _ || negb _); [eauto|]. rewrite Hp. eauto. }
  assert (Hcls : exn_class e = "ValueError").
  { unfold parse_s3_uri in Hp. destruct (negb _); [now injection Hp as <-|].
    destruct (negb _); [now injection Hp as <-|discriminate]. }
  split; [|split; [|split; [|split; [exact Hcls|]]]].
  - rewrite main_state. destruct Hstate as [[e' ->] | ->]; reflexivity.
  - unfold main. destruct Hstate as [[e' ->] | ->]; reflexivity.
  - unfold main. destruct Hstate as [[e' ->] | ->]; reflexivity.
  - intros Hv Hc He Hd.
    assert (Hs : sync h args st = (Raise e, st)).
    { unfold sync, bind, lift, raise. rewrite Hv, Hc. simpl String.eqb. cbv iota.
      rewrite He, Hd, Hp. reflexivity. }
    split; [exact Hs|]. now rewrite (main_aborted _ _ _ _ _ Hs).
Qed.

(** ** Modification times before 1970 *)

Lemma isdigit_negative m : m < 0 -> PyStr.isdigit (PyStr.str_of_int m) = false.
Proof.
  intros Hm. unfold PyStr.str_of_int.
  destruct (Z.ltb_spec m 0) as [_|]; [reflexivity|lia].
Qed.

(** X10. A file with a negative modification time is never in sync under
    the size-mtime strategy: the mtime a live upload stores for it is not
    a digit string, the next head lookup reports the stored mtime as
    absent, and the file is planned for upload again. *)
Theorem negative_mtime_uploads_again c args bucket prefix t f st :
  let key := join_s3_key prefix (FileItem.rel f) in
  FileItem.mtime f < 0 ->
  Args.strategy args = "size-mtime" ->
  Args.dry_run args = false ->
  fault c (OpPut bucket key) = None ->
  fault c (OpHead bucket key) = None ->
  exists st1,
    upload_file c bucket key (FileItem.path f) (FileItem.mtime f) false st
    = (Ok (upload_record bucket key (FileItem.path f) false), st1)
    /\ (exists etag size,
          fst (head_object_etag_size_mtime c bucket key st1)
          = Ok (Some (etag, size, None)))
    /\ exists t' st2,
         sync_file c args bucket prefix t f st1 = (Ok t', st2)
         /\ planned_upload args bucket key f t t'.
Proof.
  intros key Hm Hs Hdry Hput Hhead.
  eexists. split; [rewrite upload_live, Hput; reflexivity|].
  set (st1 := {| objects := _; calls := _ |}).
  assert (Ho : objects st1 !! (bucket, key)
               = Some (uploaded_object c (FileItem.path f) (FileItem.mtime f)))
    by (simpl; apply lookup_insert_eq).
  assert (Hread : mtime_readable (uploaded_object c (FileItem.path f) (FileItem.mtime f))
                  = true).
  { unfold mtime_readable, mtime_entry. simpl Metadata. simpl default.
    now rewrite lookup_singleton_eq, (isdigit_negative _ Hm). }
  pose proof (head_present c bucket key st1 _ Hhead Ho Hread) as Hh.
  assert (Hview : head_view (uploaded_object c (FileItem.path f) (FileItem.mtime f))
                  = (PyStr.strip PyStr.dquote (body_etag (file_body c (FileItem.path f))),
                     body_size (file_body c (FileItem.path f)), None)).
  { unfold head_view, mtime_entry. simpl Metadata. simpl default.
    rewrite lookup_singleton_eq, (isdigit_negative _ Hm). reflexivity. }
  rewrite Hview in Hh.
  split; [rewrite Hh; simpl; eauto|].
  rewrite (sync_file_step _ _ _ _ _ _ _ _ _ Hh). fold key.
  assert (Hsu : should_upload (Args.strategy args)
                  (body_size (file_body c (FileItem.path f))) None f = true).
  { rewrite Hs. unfold should_upload. simpl String.eqb. cbv iota.
    rewrite (bool_decide_eq_true_2 (None = None)) by reflexivity.
    now rewrite orb_true_r. }
  rewrite Hsu, Hdry, upload_live, Hput. do 2 eexists. split; [reflexivity|].
  repeat split. simpl. now rewrite Hdry.
Qed.

(** ** What a run can do to the remote side *)

Lemma effect_refl P st : effect P st st.
Proof.
  split; [exists []; now rewrite app_nil_r|]. split; [reflexivity|auto].
Qed.

Lemma effect_trans P st1 st2 st3 :
  effect P st1 st2 -> effect P st2 st3 -> effect P st1 st3.
Proof.
  intros ((l1 & Hc1 & Hl1) & Ho1 & Hk1) ((l2 & Hc2 & Hl2) & Ho2 & Hk2).
  split; [|split].
  - exists (l1 ++ l2). rewrite Hc2, Hc1, app_assoc. split; [reflexivity|].
    now apply Forall_app.
  - intros b k Hp Hd. now rewrite Ho2, Ho1.
  - intros b k Hd Hs. apply Hk2; [exact Hd|]. now apply Hk1.
Qed.

Lemma effect_weaken (P Q : Op -> Prop) st st' :
  (forall op, P op -> Q op) -> effect P st st' -> effect Q st st'.
Proof.
  intros HPQ ((l & Hc & Hl) & Ho & Hk). split; [|split].
  - exists l. split; [exact Hc|]. eapply Forall_impl; [exact Hl|exact HPQ].
  - intros b k Hp Hd. apply Ho; intros H; [apply Hp|apply Hd]; now apply HPQ.
  - intros b k Hd. apply Hk. intros H. apply Hd. now apply HPQ.
Qed.

Lemma effect_call (P : Op -> Prop) op st :
  P op -> effect P st (Boto.record_call op st).
Proof.
  intros Hop. split; [|split; [reflexivity|auto]].
  exists [op]. split; [reflexivity|]. now constructor.
Qed.

Lemma effect_upload (P : Op -> Prop) c b k p m d st :
  (d = false -> P (OpPut b k)) ->
  effect P st (snd (upload_file c b k p m d st)).
Proof.
  intros HP. destruct d; [rewrite upload_dry; apply effect_refl|].
  specialize (HP eq_refl). rewrite upload_live.
  destruct (fault c (OpPut b k)); cbn [snd]; [now apply effect_call|].
  split; [|split]; cbn [objects calls].
  - exists [OpPut b k]. split; [reflexivity|]. now constructor.
  - intros b' k' Hp _. apply lookup_insert_ne. intros [= <- <-]. contradiction.
  - intros b' k' _ Hs. rewrite lookup_insert. now case_decide.
Qed.

Lemma effect_delete (P : Op -> Prop) c b k d st :
  (d = false -> P (OpDelete b k)) ->
  effect P st (snd (delete_object c b k d st)).
Proof.
  intros HP. destruct d; [rewrite delete_dry; apply effect_refl|].
  specialize (HP eq_refl). rewrite delete_live.
  destruct (fault c (OpDelete b k)); cbn [snd]; [now apply effect_call|].
  split; [|split]; cbn [objects calls].
  - exists [OpDelete b k]. split; [reflexivity|]. now constructor.
  - intros b' k' _ Hd. apply lookup_delete_ne. intros [= <- <-]. contradiction.
  - intros b' k' Hd Hs. rewrite lookup_delete_ne; [exact Hs|].
    intros [= <- <-]. contradiction.
Qed.

Lemma effect_sync_file (P : Op -> Prop) c args b prefix t f st :
  P (OpHead b (key_of prefix f)) ->
  (Args.dry_run args = false -> P (OpPut b (key_of prefix f))) ->
  effect P st (snd (sync_file c args b prefix t f st)).
Proof.
  intros Hhead Hput. unfold key_of in *.
  pose proof (head_state c b (join_s3_key prefix (FileItem.rel f)) st) as Hst.
  destruct (head_object_etag_size_mtime c b (join_s3_key prefix (FileItem.rel f)) st)
    as [[remote|e] st1] eqn:Hh; cbn [snd] in Hst; subst st1.
  - rewrite (sync_file_step _ _ _ _ _ _ _ _ _ Hh).
    assert (Hup : effect P st
              (snd (upload_file c b (join_s3_key prefix (FileItem.rel f)) (FileItem.path f)
                      (FileItem.mtime f) (Args.dry_run args)
                      (Boto.record_call (OpHead b (join_s3_key prefix (FileItem.rel f))) st)))).
    { apply (effect_trans _ _
               (Boto.record_call (OpHead b (join_s3_key prefix (FileItem.rel f))) st));
        [now apply effect_call|now apply effect_upload]. }
    match goal with |- context [if ?cond then _ else _] => destruct cond end.
    + destruct (upload_file _ _ _ _ _ _ _) as [[a|e] st2]; exact Hup.
    + cbn [snd]. now apply effect_call.
  - rewrite (sync_file_raise _ _ _ _ _ _ _ _ _ Hh). cbn [snd]. now apply effect_call.
Qed.

Lemma delete_stale_keys c args b t k st t' st' :
  delete_stale c args b t k st = (Ok t', st') -> local_key_set t' = local_key_set t.
Proof.
  unfold delete_stale. destruct (negb _).
  - unfold bind, ret.
    destruct (delete_object c b k (Args.dry_run args) st) as [[a|e] s1]; [|discriminate].
    now intros [= <- <-].
  - now intros [= <- <-].
Qed.

Lemma effect_delete_stale (P : Op -> Prop) c args b t k st :
  (k ∉ local_key_set t -> Args.dry_run args = false -> P (OpDelete b k)) ->
  effect P st (snd (delete_stale c args b t k st)).
Proof.
  intros HP. unfold delete_stale. case_bool_decide as Hin; cbn [negb].
  - apply effect_refl.
  - unfold bind, ret.
    pose proof (effect_delete P c b k (Args.dry_run args) st (HP Hin)) as He.
    destruct (delete_object c b k (Args.dry_run args) st) as [[a|e] s1]; exact He.
Qed.

(** A loop whose body keeps an invariant of the accumulator and has the
    effect [P] at every element has the effect [P]. *)
Lemma for_each_effect {A S} (P : Op -> Prop) (I : S -> Prop)
    (body : S -> A -> M S) xs :
  (forall acc x st, I acc -> x ∈ xs ->
     effect P st (snd (body acc x st))
     /\ forall acc' st', body acc x st = (Ok acc', st') -> I acc') ->
  forall acc st, I acc -> effect P st (snd (for_each body xs acc st)).
Proof.
  induction xs as [|x xs IH]; intros Hb acc st Hi; simpl.
  - apply effect_refl.
  - unfold bind. pose proof (Hb acc x st Hi (list_elem_of_here x xs)) as [He Hnext].
    destruct (body acc x st) as [[acc'|e] st1]; cbn [snd] in *; [|exact He].
    eapply effect_trans; [exact He|]. apply IH; [|exact (Hnext acc' st1 eq_refl)].
    intros acc0 y s Hi0 Hy. apply Hb; [exact Hi0|now right].
Qed.

(** Whatever its outcome, a run only issues the calls that
    [allowed_call] describes, and touches objects accordingly. *)
Lemma sync_effect h args st : effect (allowed_call h args) st (snd (sync h args st)).
Proof.
  unfold sync, bind, lift, raise, ret.
  destruct (validate_creds h (Args.profile args)) as [[]|e]; [|apply effect_refl].
  destruct (String.eqb (Args.cmd args) "sync"); [|apply effect_refl].
  destruct (negb _ || negb _); [apply effect_refl|].
  destruct (parse_s3_uri (Args.s3_uri args)) as [[bucket prefix]|e] eqn:Hp;
    [|apply effect_refl].
  set (client := s3_client h (Args.profile args) (Args.region args)).
  rewrite for_gen_run.
  set (files := yielded (iter_files h (resolve h (Args.local_dir args))
                           (Args.exclude args))).
  assert (Hloop : effect (allowed_call h args) st
            (snd (for_each (sync_file client args bucket prefix) files tally0 st))).
  { apply (for_each_effect _ (fun _ => True)); [|exact I].
    intros acc f s _ Hf. split; [|auto].
    assert (Hk : key_of prefix f ∈ local_keys prefix files)
      by (apply elem_of_list_to_set, list_elem_of_fmap; eauto).
    apply effect_sync_file.
    - exists bucket, prefix. split; [exact Hp|]. split; [reflexivity|exact Hk].
    - intros Hdry. exists bucket, prefix. split; [exact Hp|]. repeat split; assumption. }
  destruct (for_each (sync_file client args bucket prefix) files tally0 st)
    as [[t1|e] st1] eqn:Hrun; cbn [snd] in Hloop; [|exact Hloop].
  destruct (failure _); [exact Hloop|].
  apply upload_loop_ok in Hrun as (Hkeys & _).
  assert (Hk1 : local_key_set t1 = local_keys prefix files)
    by (rewrite Hkeys; apply (right_id_L ∅ (∪))).
  assert (Hdel : effect (allowed_call h args) st1
            (snd (delete_phase client args bucket prefix t1 st1))).
  { unfold delete_phase. fold (list_prefix_of prefix).
    destruct (Args.delete args) eqn:Hd; [|apply effect_refl].
    unfold bind. rewrite list_objects_keys_run.
    assert (Hlist : allowed_call h args (OpList bucket (list_prefix_of prefix))).
    { exists bucket, prefix. split; [exact Hp|]. repeat split. exact Hd. }
    destruct (fault client _); cbn [snd]; [now apply effect_call|].
    apply (effect_trans _ _ (Boto.record_call (OpList bucket (list_prefix_of prefix)) st1));
      [now apply effect_call|].
    apply (for_each_effect _ (fun t => local_key_set t = local_keys prefix files));
      [|exact Hk1].
    intros acc k s Hacc Hk. split.
    - apply effect_delete_stale. intros Hnot Hdry.
      exists bucket, prefix. split; [exact Hp|]. rewrite Hacc in Hnot.
      apply elem_of_matching_keys in Hk as [_ Hpre]. repeat split; assumption.
    - intros acc' s' Hb. rewrite (delete_stale_keys _ _ _ _ _ _ _ _ Hb). exact Hacc. }
  destruct (delete_phase client args bucket prefix t1 st1) as [[t2|e] st2];
    cbn [snd] in *; eapply effect_trans; eassumption.
Qed.

Lemma allowed_call_inv h args bucket prefix op :
  parse_s3_uri (Args.s3_uri args) = Ok (bucket, prefix) ->
  allowed_call h args op ->
  let keys := local_keys prefix
                (yielded (iter_files h (resolve h (Args.local_dir args))
                            (Args.exclude args))) in
  match op with
  | OpHead b k => b = bucket /\ k ∈ keys
  | OpPut b k => b = bucket /\ k ∈ keys /\ Args.dry_run args = false
  | OpList b p => b = bucket /\ p = list_prefix_of prefix /\ Args.delete args = true
  | OpDelete b k =>
      b = bucket /\ (k ∉ keys)
      /\ PyStr.startswith k (list_prefix_of prefix) = true
      /\ Args.delete args = true /\ Args.dry_run args = false
  end.
Proof.
  intros Hp (b' & p' & Hp' & H). rewrite Hp in Hp'. injection Hp' as <- <-. exact H.
Qed.

Lemma local_key_listed uri bucket prefix files k :
  parse_s3_uri uri = Ok (bucket, prefix) ->
  k ∈ local_keys prefix files ->
  PyStr.startswith k (list_prefix_of prefix) = true.
Proof.
  intros Hp Hk. apply elem_of_list_to_set, list_elem_of_fmap in Hk as (f & -> & _).
  apply join_s3_key_listed. now apply parse_s3_uri_prefix in Hp.
Qed.

(** X11. Whatever its outcome, a run leaves every object of another
    bucket, and every object of its bucket whose key does not start with
    the listed prefix, exactly as it was; and every call it issues names
    its bucket. *)
Theorem run_touches_only_its_target h args st bucket prefix :
  parse_s3_uri (Args.s3_uri args) = Ok (bucket, prefix) ->
  (forall b k,
     b <> bucket \/ PyStr.startswith k (list_prefix_of prefix) = false ->
     objects (snd (main h args st)) !! (b, k) = objects st !! (b, k))
  /\ exists l,
       calls (snd (main h args st)) = calls st ++ l
       /\ Forall (fun op => match op with
                            | OpHead b _ | OpList b _ | OpPut b _ | OpDelete b _ =>
                                b = bucket
                            end) l.
Proof.
  intros Hp. rewrite main_state.
  destruct (sync_effect h args st) as ((l & Hc & Hl) & Ho & _).
  split.
  - intros b k Hout. apply Ho; intros Ha;
      apply (allowed_call_inv _ _ _ _ _ Hp) in Ha; cbn zeta in Ha.
    + destruct Ha as (Hb & Hk & _).
      apply (local_key_listed _ _ _ _ _ Hp) in Hk.
      destruct Hout as [Hne | Hs]; [contradiction|congruence].
    + destruct Ha as (Hb & _ & Hs' & _).
      destruct Hout as [Hne | Hs]; [contradiction|congruence].
  - exists l. split; [exact Hc|]. eapply Forall_impl; [exact Hl|].
    intros op Ha. apply (allowed_call_inv _ _ _ _ _ Hp) in Ha.
    destruct op; cbn zeta in Ha; tauto.
Qed.

(** X12. Without the delete flag, whatever the outcome of the run: no
    object is removed from the remote store, and the only calls issued are
    head lookups and puts; nothing is listed and nothing is deleted. *)
Theorem no_delete_flag_removes_nothing h args st :
  Args.delete args = false ->
  (forall b k, is_Some (objects st !! (b, k)) ->
               is_Some (objects (snd (main h args st)) !! (b, k)))
  /\ exists l,
       calls (snd (main h args st)) = calls st ++ l
       /\ Forall (fun op => match op with
                            | OpHead _ _ | OpPut _ _ => True
                            | OpList _ _ | OpDelete _ _ => False
                            end) l.
Proof.
  intros Hd. rewrite main_state.
  destruct (sync_effect h args st) as ((l & Hc & Hl) & _ & Hk).
  split.
  - intros b k. apply Hk. intros (b' & p' & _ & H). cbn zeta in H.
    destruct H as (_ & _ & _ & Hd' & _). congruence.
  - exists l. split; [exact Hc|]. eapply Forall_impl; [exact Hl|].
    intros op (b' & p' & _ & H). cbn zeta in H.
    destruct op; try exact I; destruct H as (_ & H); intuition congruence.
Qed.

(** X13. Whatever the outcome of the run, reported or aborted: a put is
    only issued in a live run and on the key of a scanned file; a delete is
    only issued in a live run with the delete flag and on a key that is not
    the key of a scanned file; so no key receives both a put and a delete,
    and an object under the key of a scanned file is never removed. *)
Theorem puts_and_deletes_never_meet h args st bucket prefix :
  parse_s3_uri (Args.s3_uri args) = Ok (bucket, prefix) ->
  let keys := local_keys prefix
                (yielded (iter_files h (resolve h (Args.local_dir args))
                            (Args.exclude args))) in
  (exists l,
     calls (snd (main h args st)) = calls st ++ l
     /\ (forall b k, OpPut b k ∈ l ->
                     b = bucket /\ k ∈ keys /\ Args.dry_run args = false)
     /\ (forall b k, OpDelete b k ∈ l ->
                     b = bucket /\ (k ∉ keys) /\ Args.delete args = true
                     /\ Args.dry_run args = false)
     /\ (forall b k, OpPut b k ∈ l -> OpDelete b k ∉ l))
  /\ (forall k, k ∈ keys ->
                is_Some (objects st !! (bucket, k)) ->
                is_Some (objects (snd (main h args st)) !! (bucket, k))).
Proof.
  intros Hp keys. rewrite main_state.
  destruct (sync_effect h args st) as ((l & Hc & Hl) & _ & Hk).
  rewrite Forall_forall in Hl.
  assert (Hput : forall b k, OpPut b k ∈ l ->
                   b = bucket /\ k ∈ keys /\ Args.dry_run args = false).
  { intros b k Hin. exact (allowed_call_inv _ _ _ _ _ Hp (Hl _ Hin)). }
  assert (Hdel : forall b k, OpDelete b k ∈ l ->
                   b = bucket /\ (k ∉ keys) /\ Args.delete args = true
                   /\ Args.dry_run args = false).
  { intros b k Hin. pose proof (allowed_call_inv _ _ _ _ _ Hp (Hl _ Hin)) as H.
    cbn zeta in H. destruct H as (H1 & H2 & _ & H3 & H4). repeat split; assumption. }
  split.
  - exists l. split; [exact Hc|]. split; [exact Hput|]. split; [exact Hdel|].
    intros b k H1 H2. destruct (Hput b k H1) as (_ & Hin & _).
    destruct (Hdel b k H2) as (_ & Hnot & _). contradiction.
  - intros k Hin. apply Hk. intros Ha.
    apply (allowed_call_inv _ _ _ _ _ Hp) in Ha. cbn zeta in Ha.
    destruct Ha as (_ & Hnot & _). contradiction.
Qed.

(** ** The calls of a reported run *)

Lemma omap_action_call_deletes b d ks :
  omap action_call (map (fun k => delete_record b k d) ks) = map (OpDelete b) ks.
Proof. induction ks as [|k ks IH]; [reflexivity|]. cbn. now rewrite IH. Qed.

Lemma filter_all {A} (P : A -> Prop) `{forall x, Decision (P x)} (l : list A) :
  Forall P l -> filter P l = l.
Proof.
  induction 1 as [|x l Hx Hl IH]; [reflexivity|].
  rewrite filter_cons_True by assumption. now rewrite IH.
Qed.

Lemma filter_none {A} (P : A -> Prop) `{forall x, Decision (P x)} (l : list A) :
  Forall (fun x => ~ P x) l -> filter P l = [].
Proof.
  induction 1 as [|x l Hx Hl IH]; [reflexivity|].
  now rewrite filter_cons_False by assumption.
Qed.

(** The calls action records stand for are mutations. *)
Lemma action_calls_mutations (acts : list dict) :
  Forall (fun op => is_mutation op = true) (omap action_call acts).
Proof.
  apply Forall_forall. intros op (a & _ & Ha)%list_elem_of_omap.
  unfold action_call in Ha.
  destruct (dict_get a "action") as [[kind| |]|]; try discriminate.
  destruct (dict_get a "bucket") as [[b| |]|]; try discriminate.
  destruct (dict_get a "key") as [[k| |]|]; try discriminate.
  destruct (String.eqb kind "upload"); [now injection Ha as <-|].
  destruct (String.eqb kind "delete"); [now injection Ha as <-|discriminate].
Qed.

Lemma mutation_kinds op :
  is_mutation op = true -> is_head op = false /\ is_list op = false.
Proof. now destruct op. Qed.

(** The calls of one step of the first loop: the head lookup, then in a
    live run the put of the upload it records, if any. *)
Lemma sync_file_ok_calls c args b prefix t f st t' st' :
  sync_file c args b prefix t f st = (Ok t', st') ->
  exists new,
    actions t' = actions t ++ new
    /\ calls st' = calls st ++ OpHead b (key_of prefix f)
                   :: (if Args.dry_run args then [] else omap action_call new).
Proof.
  intros H. unfold key_of.
  destruct (head_object_etag_size_mtime c b (join_s3_key prefix (FileItem.rel f)) st)
    as [[remote|e] st1] eqn:Hh.
  2:{ rewrite (sync_file_raise _ _ _ _ _ _ _ _ _ Hh) in H. discriminate. }
  pose proof (head_state c b (join_s3_key prefix (FileItem.rel f)) st) as Hst.
  rewrite Hh in Hst. cbn [snd] in Hst. subst st1.
  rewrite (sync_file_step _ _ _ _ _ _ _ _ _ Hh) in H.
  match type of H with (if ?cond then _ else _) = _ => destruct cond end.
  - destruct (Args.dry_run args).
    + rewrite upload_dry in H. injection H as <- <-.
      eexists. split; [reflexivity|reflexivity].
    + rewrite upload_live in H. destruct (fault c _); [discriminate|].
      injection H as <- <-. eexists. split; [reflexivity|].
      cbn. now rewrite <- app_assoc.
  - injection H as <- <-. exists []. rewrite app_nil_r. split; [reflexivity|].
    now destruct (Args.dry_run args).
Qed.

Lemma upload_loop_calls c args b prefix files : forall t st t1 st1,
  for_each (sync_file c args b prefix) files t st = (Ok t1, st1) ->
  exists new l,
    actions t1 = actions t ++ new
    /\ calls st1 = calls st ++ l
    /\ filter (fun op => is_head op = true) l
       = map (fun f => OpHead b (key_of prefix f)) files
    /\ filter (fun op => is_list op = true) l = []
    /\ filter (fun op => is_mutation op = true) l
       = if Args.dry_run args then [] else omap action_call new.
Proof.
  induction files as [|f files IH]; intros t st t1 st1 H; simpl in H.
  - injection H as <- <-. exists [], []. rewrite !app_nil_r.
    repeat split. now destruct (Args.dry_run args).
  - unfold bind in H.
    destruct (sync_file c args b prefix t f st) as [[t'|e] st'] eqn:Hf; [|discriminate].
    apply sync_file_ok_calls in Hf as (new1 & Ha1 & Hc1).
    apply IH in H as (new2 & l2 & Ha2 & Hc2 & Hh2 & Hl2 & Hm2).
    set (w := if Args.dry_run args then [] else omap action_call new1) in *.
    assert (Hw : Forall (fun op => is_mutation op = true) w).
    { subst w. destruct (Args.dry_run args); [constructor|apply action_calls_mutations]. }
    assert (Hwh : filter (fun op => is_head op = true) w = []).
    { apply filter_none. eapply Forall_impl; [exact Hw|].
      intros op Hop. apply mutation_kinds in Hop as [-> _]. discriminate. }
    assert (Hwl : filter (fun op => is_list op = true) w = []).
    { apply filter_none. eapply Forall_impl; [exact Hw|].
      intros op Hop. apply mutation_kinds in Hop as [_ ->]. discriminate. }
    exists (new1 ++ new2), (OpHead b (key_of prefix f) :: w ++ l2).
    split; [now rewrite Ha2, Ha1, app_assoc|].
    split; [rewrite Hc2, Hc1, <- app_assoc; reflexivity|].
    split; [|split].
    + rewrite filter_cons_True by reflexivity.
      rewrite filter_app, Hwh, Hh2. reflexivity.
    + rewrite filter_cons_False by discriminate.
      now rewrite filter_app, Hwl, Hl2.
    + rewrite filter_cons_False by discriminate.
      rewrite filter_app, (filter_all _ _ Hw), Hm2. subst w.
      destruct (Args.dry_run args); [reflexivity|].
      now rewrite omap_app.
Qed.

Lemma delete_loop_calls c args b ks : forall t st t' st',
  for_each (delete_stale c args b) ks t st = (Ok t', st') ->
  calls st' = calls st
              ++ (if Args.dry_run args then []
                  else map (OpDelete b) (filter (fun k => k ∉ local_key_set t) ks)).
Proof.
  induction ks as [|k ks IH]; intros t st t' st' H; simpl in H.
  - injection H as <- <-. destruct (Args.dry_run args); now rewrite app_nil_r.
  - unfold bind in H.
    destruct (delete_stale c args b t k st) as [[t1|e] st1] eqn:Hd; [|discriminate].
    pose proof (delete_stale_keys _ _ _ _ _ _ _ _ Hd) as Hk.
    apply IH in H. rewrite Hk in H. rewrite H. clear H.
    unfold delete_stale in Hd. case_bool_decide as Hin; cbn [negb] in Hd.
    + injection Hd as <- <-.
      rewrite filter_cons_False by (intros Hn; contradiction). reflexivity.
    + rewrite filter_cons_True by assumption. unfold bind, ret in Hd.
      destruct (Args.dry_run args).
      * rewrite delete_dry in Hd. now injection Hd as <- <-.
      * rewrite delete_live in Hd. destruct (fault c _); [discriminate|].
        injection Hd as <- <-. cbn [calls map]. now rewrite <- app_assoc.
Qed.

Lemma delete_phase_calls c args b prefix t st t' st' :
  delete_phase c args b prefix t st = (Ok t', st') ->
  calls st' = calls st
              ++ (if Args.delete args
                  then OpList b (list_prefix_of prefix)
                       :: (if Args.dry_run args then []
                           else map (OpDelete b)
                                  (filter (fun k => k ∉ local_key_set t)
                                     (Boto.matching_keys (objects st) b
                                        (list_prefix_of prefix))))
                  else []).
Proof.
  unfold delete_phase. fold (list_prefix_of prefix).
  destruct (Args.delete args); [|intros [= <- <-]; now rewrite app_nil_r].
  unfold bind. rewrite list_objects_keys_run.
  destruct (fault c _); [discriminate|]. intros H.
  apply delete_loop_calls in H. rewrite H. cbn [Boto.record_call calls].
  now rewrite <- app_assoc.
Qed.

(** X14. In a run that reports, the calls issued are: one head lookup per
    scanned file, in scan order; with the delete flag, one listing of the
    prefix; and, in a live run, exactly the mutation each recorded action
    stands for, in the order of the action list, one put per upload record
    and one delete per delete record. A dry run issues no mutation. *)
Theorem calls_match_actions h args st r st' bucket prefix :
  sync h args st = (Ok (Some r), st') ->
  parse_s3_uri (Args.s3_uri args) = Ok (bucket, prefix) ->
  let files := yielded (iter_files h (resolve h (Args.local_dir args))
                          (Args.exclude args)) in
  exists l,
    calls st' = calls st ++ l
    /\ filter (fun op => is_head op = true) l
       = map (fun f => OpHead bucket (key_of prefix f)) files
    /\ filter (fun op => is_list op = true) l
       = (if Args.delete args then [OpList bucket (list_prefix_of prefix)] else [])
    /\ filter (fun op => is_mutation op = true) l
       = (if Args.dry_run args then [] else omap action_call (report_actions r)).
Proof.
  intros Hs Hp files.
  destruct (sync_ok_inv _ _ _ _ _ Hs)
    as (_ & _ & _ & _ & b & p & t1 & st1 & t2 & Hp' & Hloop & Hdel & Hact & _).
  rewrite Hp in Hp'. injection Hp' as <- <-.
  pose proof (delete_phase_ok _ _ _ _ _ _ _ _ Hdel) as (Ha2 & _).
  apply delete_phase_calls in Hdel.
  apply upload_loop_calls in Hloop as (new & l1 & Ha1 & Hc1 & Hh1 & Hl1 & Hm1).
  simpl in Ha1. subst new.
  eexists. split; [rewrite Hdel, Hc1, <- app_assoc; reflexivity|].
  rewrite !filter_app, Hh1, Hl1, Hm1, Hact, Ha2.
  destruct (Args.delete args).
  - set (stale := filter _ (Boto.matching_keys _ _ _)).
    set (tail := if Args.dry_run args then [] else map (OpDelete bucket) stale).
    assert (Hd : Forall (fun op => is_mutation op = true) tail).
    { subst tail. destruct (Args.dry_run args); [constructor|].
      apply Forall_forall. intros op (k & -> & _)%list_elem_of_fmap. reflexivity. }
    assert (Hdh : filter (fun op => is_head op = true) tail = []).
    { apply filter_none. eapply Forall_impl; [exact Hd|].
      intros op Hop. apply mutation_kinds in Hop as [-> _]. discriminate. }
    assert (Hdl : filter (fun op => is_list op = true) tail = []).
    { apply filter_none. eapply Forall_impl; [exact Hd|].
      intros op Hop. apply mutation_kinds in Hop as [_ ->]. discriminate. }
    split; [|split].
    + rewrite filter_cons_False by discriminate. now rewrite Hdh, app_nil_r.
    + rewrite filter_cons_True by reflexivity. now rewrite Hdl.
    + rewrite filter_cons_False by discriminate. rewrite (filter_all _ _ Hd).
      subst tail. destruct (Args.dry_run args); [reflexivity|].
      now rewrite omap_app, omap_action_call_deletes.
  - cbn [filter map]. rewrite !app_nil_r. split; [reflexivity|]. split; [reflexivity|].
    destruct (Args.dry_run args); reflexivity.
Qed.

(** ** The remote store after a live run *)

Lemma head_some_inv c b k st v st1 :
  head_object_etag_size_mtime c b k st = (Ok (Some v), st1) ->
  exists o, objects st !! (b, k) = Some o /\ mtime_readable o = true /\ v = head_view o.
Proof.
  rewrite head_run. unfold head_outcome.
  destruct (fault c (OpHead b k)) as [e|]; [destruct (is_not_found e); discriminate|].
  destruct (objects st !! (b, k)) as [o|]; [|discriminate].
  destruct (mtime_readable o) eqn:Hr; [|discriminate].
  intros [= <- _]. eauto.
Qed.

(** A step of the first loop in a live run: an upload stores the object
    of the file; a skip found an object that passes for up to date. *)
Lemma sync_file_ok_live c args b prefix t f st t' st' :
  sync_file c args b prefix t f st = (Ok t', st') ->
  Args.dry_run args = false ->
  (planned_upload args b (key_of prefix f) f t t'
   /\ objects st'
      = <[(b, key_of prefix f) := uploaded_object c (FileItem.path f) (FileItem.mtime f)]>
          (objects st))
  \/ (planned_skip t t' /\ objects st' = objects st
      /\ exists o, objects st !! (b, key_of prefix f) = Some o /\ synced args f o).
Proof.
  intros H Hdry. unfold key_of.
  destruct (head_object_etag_size_mtime c b (join_s3_key prefix (FileItem.rel f)) st)
    as [[remote|e] st1] eqn:Hh.
  2:{ rewrite (sync_file_raise _ _ _ _ _ _ _ _ _ Hh) in H. discriminate. }
  pose proof (head_state c b (join_s3_key prefix (FileItem.rel f)) st) as Hst.
  rewrite Hh in Hst. cbn [snd] in Hst. subst st1.
  rewrite (sync_file_step _ _ _ _ _ _ _ _ _ Hh), Hdry in H.
  match type of H with (if ?cond then _ else _) = _ => destruct cond eqn:Hc end.
  - rewrite upload_live in H. destruct (fault c _); [discriminate|].
    injection H as <- <-. left. split; [|reflexivity].
    repeat split. simpl. now rewrite Hdry.
  - injection H as <- <-. right. split; [repeat split|]. split; [reflexivity|].
    destruct remote as [[[etag r_size] r_mtime]|]; [|discriminate].
    apply head_some_inv in Hh as (o & Ho & Hr & Hv). exists o. split; [exact Ho|].
    unfold synced. split; [exact Hr|]. now rewrite <- Hv.
Qed.

Lemma upload_loop_present c args b prefix files : forall t st t1 st1,
  for_each (sync_file c args b prefix) files t st = (Ok t1, st1) ->
  Args.dry_run args = false ->
  forall f, f ∈ files -> is_Some (objects st1 !! (b, key_of prefix f)).
Proof.
  induction files as [|f files IH]; intros t st t1 st1 H Hdry g Hg; [inversion Hg|].
  simpl in H. unfold bind in H.
  destruct (sync_file c args b prefix t f st) as [[t'|e] st'] eqn:Hf; [|discriminate].
  apply elem_of_cons in Hg as [->|Hg]; [|now apply (IH _ _ _ _ H Hdry)].
  apply upload_loop_ok in H as (_ & _ & _ & Hkeep). apply Hkeep.
  apply sync_file_ok_live in Hf as [[_ ->] | (_ & -> & o & -> & _)]; [|eauto|exact Hdry].
  rewrite lookup_insert_eq. eauto.
Qed.

(** The objects after the second loop in a live run: the listed keys that
    are not local keys are gone, everything else is as it was. *)
Lemma delete_loop_objects c args b ks : forall t st t' st',
  for_each (delete_stale c args b) ks t st = (Ok t', st') ->
  Args.dry_run args = false ->
  forall b' k',
    objects st' !! (b', k')
    = if bool_decide (b' = b /\ k' ∈ ks /\ k' ∉ local_key_set t)
      then None else objects st !! (b', k').
Proof.
  induction ks as [|k ks IH]; intros t st t' st' H Hdry b' k'; simpl in H.
  - injection H as <- <-. rewrite bool_decide_eq_false_2; [reflexivity|].
    intros (_ & Hin & _). inversion Hin.
  - unfold bind in H.
    destruct (delete_stale c args b t k st) as [[t1|e] st1] eqn:Hd; [|discriminate].
    pose proof (delete_stale_keys _ _ _ _ _ _ _ _ Hd) as Hk.
    rewrite (IH _ _ _ _ H Hdry b' k'), Hk. clear H IH.
    unfold delete_stale in Hd. case_bool_decide as Hin; cbn [negb] in Hd.
    + injection Hd as <- <-. apply (f_equal (fun c : bool => if c then None else _)).
      apply bool_decide_ext. rewrite elem_of_cons. split; [tauto|].
      intros (Hb & [-> | Hk'] & Hn); [contradiction|tauto].
    + unfold bind, ret in Hd. rewrite Hdry, delete_live in Hd.
      destruct (fault c _); [discriminate|]. injection Hd as <- <-. cbn [objects].
      destruct (decide ((b', k') = (b, k))) as [[= -> ->]|Hne].
      * rewrite lookup_delete_eq.
        rewrite (bool_decide_eq_true_2 (b = b /\ k ∈ k :: ks /\ k ∉ local_key_set t))
          by (split; [reflexivity|split; [now left|assumption]]).
        now destruct (bool_decide _).
      * rewrite lookup_delete_ne by congruence.
        apply (f_equal (fun c : bool => if c then None else _)).
        apply bool_decide_ext. rewrite elem_of_cons. split; [tauto|].
        intros (Hb & [-> | Hk'] & Hn); [subst; contradiction|tauto].
Qed.

Lemma delete_phase_objects c args b prefix t st t' st' :
  delete_phase c args b prefix t st = (Ok t', st') ->
  Args.delete args = true ->
  Args.dry_run args = false ->
  forall b' k',
    objects st' !! (b', k')
    = if bool_decide (b' = b
                      /\ k' ∈ Boto.matching_keys (objects st) b (list_prefix_of prefix)
                      /\ k' ∉ local_key_set t)
      then None else objects st !! (b', k').
Proof.
  unfold delete_phase. fold (list_prefix_of prefix). intros H Hdel Hdry.
  rewrite Hdel in H. unfold bind in H. rewrite list_objects_keys_run in H.
  destruct (fault c _); [discriminate|].
  intros b' k'. now rewrite (delete_loop_objects _ _ _ _ _ _ _ _ H Hdry b' k').
Qed.

(** X15. After a live run with the delete flag that reports, the bucket
    mirrors the scan under the listed prefix: a key that starts with the
    listed prefix holds an object exactly when it is the key of a scanned
    file. *)
Theorem live_delete_run_mirrors_the_scan h args st r st' bucket prefix :
  sync h args st = (Ok (Some r), st') ->
  parse_s3_uri (Args.s3_uri args) = Ok (bucket, prefix) ->
  Args.dry_run args = false ->
  Args.delete args = true ->
  let keys := local_keys prefix
                (yielded (iter_files h (resolve h (Args.local_dir args))
                            (Args.exclude args))) in
  forall k,
    is_Some (objects st' !! (bucket, k))
    /\ PyStr.startswith k (list_prefix_of prefix) = true
    <-> k ∈ keys.
Proof.
  intros Hs Hp Hdry Hdel keys k.
  destruct (sync_ok_inv _ _ _ _ _ Hs)
    as (_ & _ & _ & _ & b & p & t1 & st1 & t2 & Hp' & Hloop & Hphase & _).
  rewrite Hp in Hp'. injection Hp' as <- <-.
  pose proof (upload_loop_present _ _ _ _ _ _ _ _ _ Hloop Hdry) as Hpresent.
  apply upload_loop_ok in Hloop as (Hkeys & _).
  assert (Hk1 : local_key_set t1 = keys) by (rewrite Hkeys; apply (right_id_L ∅ (∪))).
  rewrite (delete_phase_objects _ _ _ _ _ _ _ _ Hphase Hdel Hdry bucket k), Hk1.
  split.
  - intros [Hsome Hpre]. case_bool_decide as Hc; [now destruct Hsome|].
    destruct (decide (k ∈ keys)) as [|Hnot]; [assumption|]. exfalso. apply Hc.
    split; [reflexivity|]. split; [|exact Hnot]. now apply elem_of_matching_keys.
  - intros Hin. split; [|now apply (local_key_listed _ _ _ _ _ Hp Hin)].
    rewrite bool_decide_eq_false_2 by tauto.
    apply elem_of_list_to_set, list_elem_of_fmap in Hin as (f & -> & Hf).
    now apply Hpresent.
Qed.

(** ** Running twice *)

Lemma uploaded_object_synced c args f :
  0 <= FileItem.mtime f ->
  body_size (file_body c (FileItem.path f)) = FileItem.size f ->
  synced args f (uploaded_object c (FileItem.path f) (FileItem.mtime f)).
Proof.
  intros Hm Hsz. destruct (int_of_str_of_int _ Hm) as [Hdig Hint].
  unfold synced, mtime_readable, head_view, mtime_entry. simpl Metadata. simpl default.
  rewrite lookup_singleton_eq, Hdig, Hint. split; [reflexivity|]. cbn [fst snd].
  rewrite Hsz. unfold should_upload. rewrite Z.eqb_refl.
  destruct (String.eqb _ _); [reflexivity|].
  rewrite bool_decide_eq_false_2 by discriminate.
  now rewrite bool_decide_eq_true_2 by reflexivity.
Qed.

(** A file whose remote object passes for up to date is skipped. *)
Lemma sync_file_synced c args b prefix t f st o :
  fault c (OpHead b (key_of prefix f)) = None ->
  objects st !! (b, key_of prefix f) = Some o ->
  synced args f o ->
  sync_file c args b prefix t f st
  = (Ok {| actions := actions t; uploaded := uploaded t; skipped := skipped t + 1;
           deleted := deleted t;
           local_key_set := {[ key_of prefix f ]} ∪ local_key_set t |},
     Boto.record_call (OpHead b (key_of prefix f)) st).
Proof.
  intros Hf Ho [Hr Hsync]. unfold key_of in *.
  pose proof (head_present _ _ _ _ _ Hf Ho Hr) as Hh.
  rewrite (sync_file_step _ _ _ _ _ _ _ _ _ Hh).
  destruct (head_view o) as [[etag sz] mt].
  cbn [fst snd] in Hsync. now rewrite Hsync.
Qed.

Lemma delete_loop_total c args b ks : forall t st,
  (Args.dry_run args = true \/ forall k, fault c (OpDelete b k) = None) ->
  exists t' st', for_each (delete_stale c args b) ks t st = (Ok t', st').
Proof.
  induction ks as [|k ks IH]; intros t st Hok; simpl; [unfold ret; eauto|].
  unfold bind.
  assert (Hd : exists t1 st1, delete_stale c args b t k st = (Ok t1, st1)).
  { unfold delete_stale. destruct (negb _); [|unfold ret; eauto].
    unfold bind, ret. destruct (Args.dry_run args) eqn:Hdry.
    - rewrite delete_dry. eauto.
    - destruct Hok as [|Hok]; [discriminate|]. rewrite delete_live, Hok. eauto. }
  destruct Hd as (t1 & st1 & ->). now apply IH.
Qed.

Lemma delete_phase_total c args b prefix t st :
  fault c (OpList b (list_prefix_of prefix)) = None ->
  (Args.dry_run args = true \/ forall k, fault c (OpDelete b k) = None) ->
  exists t' st', delete_phase c args b prefix t st = (Ok t', st').
Proof.
  intros Hl Hd. unfold delete_phase. fold (list_prefix_of prefix).
  destruct (Args.delete args); [|unfold ret; eauto].
  unfold bind. rewrite list_objects_keys_run, Hl. now apply delete_loop_total.
Qed.

(** A run with a valid configuration, by the outcome of its stages. *)
Lemma sync_staged h args st bucket prefix :
  validate_creds h (Args.profile args) = Ok tt ->
  Args.cmd args = "sync" ->
  path_exists h (resolve h (Args.local_dir args)) = true ->
  path_is_dir h (resolve h (Args.local_dir args)) = true ->
  parse_s3_uri (Args.s3_uri args) = Ok (bucket, prefix) ->
  sync h args st
  = match for_gen (sync_file (s3_client h (Args.profile args) (Args.region args))
                     args bucket prefix)
            (iter_files h (resolve h (Args.local_dir args)) (Args.exclude args))
            tally0 st with
    | (Ok t1, st1) =>
        match delete_phase (s3_client h (Args.profile args) (Args.region args))
                args bucket prefix t1 st1 with
        | (Ok t2, st2) =>
            (Ok (Some
               {| summary :=
                    [("cmd", VStr "sync");
                     ("local_dir", VStr (resolve h (Args.local_dir args)));
                     ("bucket", VStr bucket); ("prefix", VStr prefix);
                     ("dry_run", VBool (Args.dry_run args));
                     ("uploaded", VInt (uploaded t2)); ("skipped", VInt (skipped t2));
                     ("deleted", VInt (deleted t2));
                     ("total_actions", VInt (Z.of_nat (length (actions t2))))];
                  report_actions := actions t2;
                  report_bucket := bucket; report_prefix := prefix;
                  report_uploaded := uploaded t2; report_skipped := skipped t2;
                  report_deleted := deleted t2 |}), st2)
        | (Raise e, st2) => (Raise e, st2)
        end
    | (Raise e, st1) => (Raise e, st1)
    end.
Proof.
  intros Hv Hc He Hd Hp.
  unfold sync, bind, lift, raise, ret. rewrite Hv, Hc, String.eqb_refl, He, Hd, Hp.
  cbn [negb orb]. cbv beta iota.
  destruct (for_gen _ _ tally0 st) as [[t1|e] st1]; [|reflexivity].
  destruct (delete_phase _ args bucket prefix t1 st1) as [[t2|e] st2]; reflexivity.
Qed.

(** The first loop leaves alone every object that is not under the key of
    one of its files. *)
Lemma upload_loop_frame c args b prefix files t st k :
  k ∉ local_keys prefix files ->
  objects (snd (for_each (sync_file c args b prefix) files t st)) !! (b, k)
  = objects st !! (b, k).
Proof.
  intros Hk.
  set (P := fun op => exists f, f ∈ files
                      /\ (op = OpHead b (key_of prefix f) \/ op = OpPut b (key_of prefix f))).
  assert (He : effect P st (snd (for_each (sync_file c args b prefix) files t st))).
  { apply (for_each_effect _ (fun _ => True)); [|exact I].
    intros acc f s _ Hf. split; [|auto].
    apply effect_sync_file; [|intros _]; exists f; split; auto. }
  destruct He as (_ & Ho & _). apply Ho.
  - intros (f & Hf & [H|H]); [discriminate|]. injection H as ->.
    apply Hk, elem_of_list_to_set, list_elem_of_fmap. eauto.
  - intros (f & Hf & [H|H]); discriminate.
Qed.

(** After the first loop of a live run over files with distinct keys,
    every file has a remote object that passes for up to date. *)
Lemma upload_loop_synced c args b prefix files : forall t st t1 st1,
  for_each (sync_file c args b prefix) files t st = (Ok t1, st1) ->
  Args.dry_run args = false ->
  NoDup (map (key_of prefix) files) ->
  (forall f, f ∈ files ->
     synced args f (uploaded_object c (FileItem.path f) (FileItem.mtime f))) ->
  forall f, f ∈ files ->
    exists o, objects st1 !! (b, key_of prefix f) = Some o /\ synced args f o.
Proof.
  induction files as [|f files IH]; intros t st t1 st1 H Hdry Hnd Hup g Hg;
    [inversion Hg|].
  simpl in H. unfold bind in H. simpl in Hnd. apply NoDup_cons in Hnd as [Hfresh Hnd].
  destruct (sync_file c args b prefix t f st) as [[t'|e] st'] eqn:Hf; [|discriminate].
  apply elem_of_cons in Hg as [->|Hg].
  - pose proof (upload_loop_frame c args b prefix files t' st' (key_of prefix f)) as Hfr.
    rewrite H in Hfr. cbn [snd] in Hfr. rewrite Hfr.
    2:{ intros Hin. apply Hfresh. now apply elem_of_list_to_set in Hin. }
    apply sync_file_ok_live in Hf as [[_ ->] | (_ & -> & o & Ho & Hs)]; [| |exact Hdry].
    + rewrite lookup_insert_eq. eexists. split; [reflexivity|]. apply Hup. now left.
    + eauto.
  - apply (IH _ _ _ _ H Hdry Hnd); [|exact Hg]. intros f' Hf'. apply Hup. now right.
Qed.

(** Over files that all have an up-to-date remote object, the first loop
    skips every file and changes no object. *)
Lemma upload_loop_all_synced c args b prefix files : forall t st,
  (forall f, f ∈ files -> fault c (OpHead b (key_of prefix f)) = None) ->
  (forall f, f ∈ files ->
     exists o, objects st !! (b, key_of prefix f) = Some o /\ synced args f o) ->
  exists t1 st1,
    for_each (sync_file c args b prefix) files t st = (Ok t1, st1)
    /\ actions t1 = actions t /\ uploaded t1 = uploaded t
    /\ skipped t1 = skipped t + Z.of_nat (length files)
    /\ deleted t1 = deleted t
    /\ objects st1 = objects st.
Proof.
  induction files as [|f files IH]; intros t st Hf Hs.
  - exists t, st. simpl. unfold ret. repeat split. lia.
  - destruct (Hs f) as (o & Ho & Hsync); [now left|].
    simpl. unfold bind.
    rewrite (sync_file_synced c args b prefix t f st o (Hf f (list_elem_of_here _ _)) Ho Hsync).
    match goal with |- context [for_each _ files ?t' ?s'] =>
      destruct (IH t' s') as (t1 & st1 & Hrun & Ha & Hu & Hsk & Hd & Hobj)
    end.
    + intros g Hg. apply Hf. now right.
    + intros g Hg. apply Hs. now right.
    + exists t1, st1. split; [exact Hrun|].
      cbn [actions uploaded skipped deleted] in *. cbn [objects Boto.record_call] in Hobj.
      repeat split; try assumption. rewrite Hsk. simpl length. lia.
Qed.

(** The deletion phase of a live run leaves the local keys alone, and with
    the delete flag no listed key outside the local keys is left. *)
Lemma delete_phase_live c args b prefix t st t' st' :
  delete_phase c args b prefix t st = (Ok t', st') ->
  Args.dry_run args = false ->
  (forall k, k ∈ local_key_set t -> objects st' !! (b, k) = objects st !! (b, k))
  /\ (Args.delete args = true ->
      forall k, k ∈ Boto.matching_keys (objects st') b (list_prefix_of prefix) ->
                k ∈ local_key_set t).
Proof.
  intros H Hdry. destruct (Args.delete args) eqn:Hdel.
  - pose proof (delete_phase_objects _ _ _ _ _ _ _ _ H Hdel Hdry) as Ho. split.
    + intros k Hk. rewrite Ho. now rewrite bool_decide_eq_false_2 by tauto.
    + intros _ k Hk. apply elem_of_matching_keys in Hk as [Hsome Hpre].
      rewrite Ho in Hsome. case_bool_decide as Hc; [now destruct Hsome|].
      destruct (decide (k ∈ local_key_set t)) as [|Hnot]; [assumption|].
      exfalso. apply Hc. split; [reflexivity|]. split; [|exact Hnot].
      now apply elem_of_matching_keys.
  - unfold delete_phase in H. rewrite Hdel in H. injection H as <- <-.
    split; [reflexivity|discriminate].
Qed.

(** X16. Running twice: after a live run that reports, over files with
    distinct relative paths, non-negative modification times and transfers
    that store the size the scan saw, a second run with the same
    arguments over the same local files, on a client that does not fail,
    reports too, skips every file, records no action, and leaves the
    objects of the remote store as the first run left them. *)
Theorem second_run_is_a_no_op h args st bucket prefix r1 st1 :
  let client := s3_client h (Args.profile args) (Args.region args) in
  let files := yielded (iter_files h (resolve h (Args.local_dir args))
                          (Args.exclude args)) in
  sync h args st = (Ok (Some r1), st1) ->
  (forall op, fault client op = None) ->
  parse_s3_uri (Args.s3_uri args) = Ok (bucket, prefix) ->
  Args.dry_run args = false ->
  NoDup (map FileItem.rel files) ->
  (forall f, f ∈ files ->
     0 <= FileItem.mtime f
     /\ body_size (file_body client (FileItem.path f)) = FileItem.size f) ->
  exists r2 st2,
    sync h args st1 = (Ok (Some r2), st2)
    /\ report_actions r2 = []
    /\ report_uploaded r2 = 0
    /\ report_deleted r2 = 0
    /\ report_skipped r2 = Z.of_nat (length files)
    /\ objects st2 = objects st1.
Proof.
  intros client files Hrun1 Hfree Hp Hdry Hnd Hfiles.
  assert (Hkeys : NoDup (map (key_of prefix) files)).
  { assert (Hmap : map (key_of prefix) files
                   = map (join_s3_key prefix) (map FileItem.rel files))
      by (rewrite map_map; reflexivity).
    assert (Hinj : Inj (=) (=) (join_s3_key prefix))
      by (intros x y; apply join_s3_key_inj).
    rewrite Hmap. now apply (NoDup_fmap_2 (join_s3_key prefix)). }
  (* the first run *)
  pose proof (sync_ok_scan _ _ _ _ _ Hrun1) as Hscan.
  destruct (sync_ok_inv _ _ _ _ _ Hrun1)
    as (Hv & Hc & He & Hd & b & p & t1 & s1 & t2 & Hp' & Hloop1 & Hdel1 & _).
  rewrite Hp in Hp'. injection Hp' as <- <-. fold client files in Hloop1, Hdel1.
  assert (Hsynced1 : forall f, f ∈ files ->
            exists o, objects s1 !! (bucket, key_of prefix f) = Some o /\ synced args f o).
  { apply (upload_loop_synced _ _ _ _ _ _ _ _ _ Hloop1 Hdry Hkeys).
    intros f Hf. destruct (Hfiles f Hf) as [Hm Hsz]. now apply uploaded_object_synced. }
  pose proof (upload_loop_ok _ _ _ _ _ _ _ _ _ Hloop1) as (Hk1 & _).
  assert (Hlks1 : local_key_set t1 = local_keys prefix files)
    by (rewrite Hk1; apply (right_id_L ∅ (∪))).
  destruct (delete_phase_live _ _ _ _ _ _ _ _ Hdel1 Hdry) as [Hkeep1 Hclean1].
  assert (Hsynced2 : forall f, f ∈ files ->
            exists o, objects st1 !! (bucket, key_of prefix f) = Some o /\ synced args f o).
  { intros f Hf. rewrite Hkeep1; [now apply Hsynced1|].
    rewrite Hlks1. apply elem_of_list_to_set, list_elem_of_fmap. eauto. }
  (* the second run *)
  destruct (upload_loop_all_synced client args bucket prefix files tally0 st1
              (fun f _ => Hfree _) Hsynced2)
    as (t3 & s3 & Hloop2 & Ha3 & Hu3 & Hs3 & Hd3 & Ho3).
  destruct (delete_phase_total client args bucket prefix t3 s3 (Hfree _)
              (or_intror (fun k => Hfree _))) as (t4 & s4 & Hdel2).
  pose proof (sync_staged h args st1 bucket prefix Hv Hc He Hd Hp) as Hrun2.
  rewrite for_gen_run in Hrun2. fold client files in Hrun2.
  rewrite Hloop2, Hscan, Hdel2 in Hrun2.
  pose proof (upload_loop_ok _ _ _ _ _ _ _ _ _ Hloop2) as (Hk3 & _).
  assert (Hlks3 : local_key_set t3 = local_key_set t1)
    by (rewrite Hlks1, Hk3; apply (right_id_L ∅ (∪))).
  pose proof (delete_phase_ok _ _ _ _ _ _ _ _ Hdel2) as (Ha4 & Hd4 & Hu4 & Hs4 & _).
  assert (Hstale : (if Args.delete args
                    then filter (fun k => k ∉ local_key_set t3)
                           (Boto.matching_keys (objects s3) bucket (list_prefix_of prefix))
                    else []) = []).
  { destruct (Args.delete args) eqn:Hdelflag; [|reflexivity].
    apply filter_none, Forall_forall. intros k Hk Hnot. apply Hnot.
    rewrite Hlks3. apply (Hclean1 eq_refl). now rewrite <- Ho3. }
  rewrite Hstale in Ha4, Hd4. cbn [map length] in Ha4, Hd4. rewrite app_nil_r in Ha4.
  eexists _, s4. split; [exact Hrun2|]. cbn [report_actions report_uploaded
    report_deleted report_skipped].
  split; [now rewrite Ha4, Ha3|]. split; [now rewrite Hu4, Hu3|].
  split; [rewrite Hd4, Hd3; reflexivity|].
  split; [rewrite Hs4, Hs3; simpl; lia|].
  rewrite <- Ho3. apply map_eq. intros [b' k'].
  destruct (Args.delete args) eqn:Hdelflag.
  - rewrite (delete_phase_objects _ _ _ _ _ _ _ _ Hdel2 Hdelflag Hdry).
    rewrite bool_decide_eq_false_2; [reflexivity|].
    intros (_ & Hin & Hnot). apply Hnot. rewrite Hlks3.
    apply (Hclean1 eq_refl). now rewrite <- Ho3.
  - unfold delete_phase in Hdel2. rewrite Hdelflag in Hdel2.
    now injection Hdel2 as <- <-.
Qed.

(** ** A dry run as a preview of the live run *)

(** The two first loops, dry and live, side by side: as long as the live
    store agrees with the dry one on the keys still to come, they take
    the same decisions, and what ends the one ends the other. *)
Lemma upload_loop_dry_live c args b prefix files : forall td tl sd sl,
  (forall f, f ∈ files ->
     fault c (OpHead b (key_of prefix f)) = None
     /\ fault c (OpPut b (key_of prefix f)) = None) ->
  NoDup (map (key_of prefix) files) ->
  (forall f, f ∈ files ->
     objects sl !! (b, key_of prefix f) = objects sd !! (b, key_of prefix f)) ->
  actions td = map as_dry (actions tl) ->
  uploaded td = uploaded tl -> skipped td = skipped tl ->
  match for_each (sync_file c (with_dry_run args true) b prefix) files td sd,
        for_each (sync_file c (with_dry_run args false) b prefix) files tl sl with
  | (Ok td', _), (Ok tl', _) =>
      actions td' = map as_dry (actions tl')
      /\ uploaded td' = uploaded tl' /\ skipped td' = skipped tl'
  | (Raise ed, _), (Raise el, _) => ed = el
  | _, _ => False
  end.
Proof.
  induction files as [|f files IH]; intros td tl sd sl Hfree Hnd Hagree Ha Hu Hs.
  - simpl. unfold ret. repeat split; assumption.
  - simpl in Hnd. apply NoDup_cons in Hnd as [Hfresh Hnd].
    destruct (Hfree f (list_elem_of_here _ _)) as [Hhead Hput].
    pose proof (head_run c b (key_of prefix f) sd) as Hhd.
    pose proof (head_run c b (key_of prefix f) sl) as Hhl.
    rewrite (Hagree f (list_elem_of_here _ _)) in Hhl.
    destruct (head_outcome c b (key_of prefix f) (objects sd !! (b, key_of prefix f)))
      as [remote|e]; unfold key_of in Hhd, Hhl; simpl for_each; unfold bind.
    2:{ now rewrite (sync_file_raise _ _ _ _ _ _ _ _ _ Hhd),
                    (sync_file_raise _ _ _ _ _ _ _ _ _ Hhl). }
    rewrite (sync_file_step _ _ _ _ _ _ _ _ _ Hhd), (sync_file_step _ _ _ _ _ _ _ _ _ Hhl).
    cbn [with_dry_run Args.strategy Args.dry_run].
    rewrite upload_dry, upload_live. fold (key_of prefix f). rewrite Hput.
    match goal with |- context [if ?cond then _ else _] => destruct cond end.
    + apply IH.
      * intros g Hg. apply Hfree. now right.
      * exact Hnd.
      * intros g Hg. cbn [objects Boto.record_call].
        rewrite lookup_insert_ne; [apply Hagree; now right|].
        intros [= Heq]. apply Hfresh. rewrite Heq. apply list_elem_of_fmap. eauto.
      * cbn [actions]. rewrite map_app, Ha. reflexivity.
      * cbn [uploaded]. lia.
      * exact Hs.
    + apply IH.
      * intros g Hg. apply Hfree. now right.
      * exact Hnd.
      * intros g Hg. cbn [objects Boto.record_call]. apply Hagree. now right.
      * exact Ha.
      * exact Hu.
      * cbn [skipped]. lia.
Qed.

(** X17. A dry run is a preview of the live run: with a client that does
    not fail, a valid configuration and files with distinct relative
    paths, the dry run and the live run from the same remote store end the
    same way. Either both are ended by the same error of the scan or of a
    head lookup, or both report, with the same counters; the dry run then
    records the same uploads in the same order, and the same deletions up
    to their order, each with its [dry_run] entry set. The dry run leaves
    the objects as they were. *)
Theorem dry_run_previews_live_run h args st bucket prefix :
  let client := s3_client h (Args.profile args) (Args.region args) in
  let files := yielded (iter_files h (resolve h (Args.local_dir args))
                          (Args.exclude args)) in
  (forall op, fault client op = None) ->
  validate_creds h (Args.profile args) = Ok tt ->
  Args.cmd args = "sync" ->
  path_exists h (resolve h (Args.local_dir args)) = true ->
  path_is_dir h (resolve h (Args.local_dir args)) = true ->
  parse_s3_uri (Args.s3_uri args) = Ok (bucket, prefix) ->
  NoDup (map FileItem.rel files) ->
  (exists e sd sl,
     sync h (with_dry_run args true) st = (Raise e, sd)
     /\ sync h (with_dry_run args false) st = (Raise e, sl)
     /\ objects sd = objects st)
  \/ (exists rd sd rl sl,
        sync h (with_dry_run args true) st = (Ok (Some rd), sd)
        /\ sync h (with_dry_run args false) st = (Ok (Some rl), sl)
        /\ report_uploaded rd = report_uploaded rl
        /\ report_skipped rd = report_skipped rl
        /\ report_deleted rd = report_deleted rl
        /\ objects sd = objects st
        /\ exists ups dels_live dels_dry,
             report_actions rl = ups ++ dels_live
             /\ report_actions rd = map as_dry ups ++ dels_dry
             /\ Forall (fun a => action_kind a = Some (VStr "upload")) ups
             /\ Forall (fun a => action_kind a = Some (VStr "delete")) dels_live
             /\ map as_dry dels_live ≡ₚ dels_dry).
Proof.
  intros client files Hfree Hv Hc He Hd Hp Hnd.
  assert (Hkeys : NoDup (map (key_of prefix) files)).
  { assert (Hmap : map (key_of prefix) files
                   = map (join_s3_key prefix) (map FileItem.rel files))
      by (rewrite map_map; reflexivity).
    assert (Hinj : Inj (=) (=) (join_s3_key prefix))
      by (intros x y; apply join_s3_key_inj).
    rewrite Hmap. now apply (NoDup_fmap_2 (join_s3_key prefix)). }
  pose proof (sync_staged h (with_dry_run args true) st bucket prefix Hv Hc He Hd Hp)
    as Hrund.
  pose proof (sync_staged h (with_dry_run args false) st bucket prefix Hv Hc He Hd Hp)
    as Hrunl.
  rewrite for_gen_run in Hrund, Hrunl.
  cbn [with_dry_run Args.profile Args.region Args.local_dir Args.exclude] in Hrund, Hrunl.
  fold client files in Hrund, Hrunl.
  (* the dry run changes no object *)
  assert (Hobj : objects (snd (sync h (with_dry_run args true) st)) = objects st).
  { now pose proof (sync_dry h (with_dry_run args true) st eq_refl) as (Ho & _). }
  pose proof (upload_loop_dry_live client args bucket prefix files tally0 tally0 st st
                (fun f _ => conj (Hfree _) (Hfree _)) Hkeys (fun f _ => eq_refl)
                eq_refl eq_refl eq_refl) as Hloops.
  destruct (for_each (sync_file client (with_dry_run args true) bucket prefix)
              files tally0 st) as [[td|ed] sd1] eqn:Hloopd;
    destruct (for_each (sync_file client (with_dry_run args false) bucket prefix)
                files tally0 st) as [[tl|el] sl1] eqn:Hloopl;
    try contradiction.
  2:{ subst el. left. exists ed, sd1, sl1. rewrite Hrund in Hobj. now rewrite Hrund, Hrunl. }
  destruct Hloops as (Hact & Hup & Hsk).
  destruct (failure (iter_files h (resolve h (Args.local_dir args)) (Args.exclude args)))
    as [e|].
  { left. exists e, sd1, sl1. rewrite Hrund in Hobj. now rewrite Hrund, Hrunl. }
  right.
  destruct (delete_phase_total client (with_dry_run args true) bucket prefix td sd1
              (Hfree _) (or_introl eq_refl)) as (td2 & sd2 & Hdeld).
  destruct (delete_phase_total client (with_dry_run args false) bucket prefix tl sl1
              (Hfree _) (or_intror (fun k => Hfree _))) as (tl2 & sl2 & Hdell).
  rewrite Hdeld in Hrund. rewrite Hdell in Hrunl.
  (* the key sets *)
  pose proof (upload_loop_ok _ _ _ _ _ _ _ _ _ Hloopd) as (Hkd & Hdd1 & _).
  pose proof (upload_loop_ok _ _ _ _ _ _ _ _ _ Hloopl)
    as (Hkl & Hdl1 & (ups & Haups & _ & _ & Hups) & _).
  assert (Hlksd : local_key_set td = local_keys prefix files)
    by (rewrite Hkd; apply (right_id_L ∅ (∪))).
  assert (Hlksl : local_key_set tl = local_keys prefix files)
    by (rewrite Hkl; apply (right_id_L ∅ (∪))).
  simpl in Haups.
  (* the two listings agree outside the local keys *)
  pose proof (delete_phase_ok _ _ _ _ _ _ _ _ Hdeld) as (Ha2d & Hd2d & Hu2d & Hs2d & _).
  pose proof (delete_phase_ok _ _ _ _ _ _ _ _ Hdell) as (Ha2l & Hd2l & Hu2l & Hs2l & _).
  cbn [with_dry_run Args.delete Args.dry_run] in Ha2d, Hd2d, Ha2l, Hd2l.
  set (stale_d := if Args.delete args
                  then filter (fun k => k ∉ local_key_set td)
                         (Boto.matching_keys (objects sd1) bucket (list_prefix_of prefix))
                  else []) in *.
  set (stale_l := if Args.delete args
                  then filter (fun k => k ∉ local_key_set tl)
                         (Boto.matching_keys (objects sl1) bucket (list_prefix_of prefix))
                  else []) in *.
  assert (Hperm : stale_l ≡ₚ stale_d).
  { subst stale_l stale_d. destruct (Args.delete args); [|reflexivity].
    apply NoDup_Permutation; try (apply NoDup_filter, NoDup_matching_keys).
    intros k. rewrite !list_elem_of_filter, !elem_of_matching_keys, Hlksd, Hlksl.
    split; intros (Hnot & Hsome & Hpre); (split; [exact Hnot|split; [|exact Hpre]]).
    - pose proof (upload_loop_frame client (with_dry_run args false) bucket prefix
                    files tally0 st k Hnot) as Hfl.
      pose proof (upload_loop_frame client (with_dry_run args true) bucket prefix
                    files tally0 st k Hnot) as Hfd.
      rewrite Hloopl in Hfl. rewrite Hloopd in Hfd. cbn [snd] in Hfl, Hfd.
      now rewrite Hfd, <- Hfl.
    - pose proof (upload_loop_frame client (with_dry_run args false) bucket prefix
                    files tally0 st k Hnot) as Hfl.
      pose proof (upload_loop_frame client (with_dry_run args true) bucket prefix
                    files tally0 st k Hnot) as Hfd.
      rewrite Hloopl in Hfl. rewrite Hloopd in Hfd. cbn [snd] in Hfl, Hfd.
      now rewrite Hfl, <- Hfd. }
  rewrite Hrund in Hobj. cbn [snd] in Hobj.
  eexists _, sd2, _, sl2. split; [exact Hrund|]. split; [exact Hrunl|].
  cbn [report_actions report_uploaded report_deleted report_skipped].
  split; [rewrite Hu2d, Hu2l; exact Hup|].
  split; [rewrite Hs2d, Hs2l; exact Hsk|].
  split.
  { rewrite Hd2d, Hd2l, Hdd1, Hdl1. now rewrite (Permutation_length Hperm). }
  split; [exact Hobj|].
  exists ups, (map (fun k => delete_record bucket k false) stale_l),
         (map (fun k => delete_record bucket k true) stale_d).
  split; [now rewrite Ha2l, Haups|].
  split; [now rewrite Ha2d, Hact, Haups|].
  split.
  { eapply Forall_impl; [exact Hups|]. now intros a (f & _ & ->). }
  split.
  { apply Forall_forall. now intros a (k & -> & _)%list_elem_of_fmap. }
  rewrite map_map. cbn [as_dry]. now rewrite Hperm.
Qed.

(** ** The order of the actions *)

Lemma upload_loop_order c args b prefix files : forall t st t1 st1,
  for_each (sync_file c args b prefix) files t st = (Ok t1, st1) ->
  exists kept,
    kept `sublist_of` files
    /\ actions t1
       = actions t ++ map (fun f => upload_record b (key_of prefix f) (FileItem.path f)
                                      (Args.dry_run args)) kept
    /\ uploaded t1 = uploaded t + Z.of_nat (length kept)
    /\ skipped t1 = skipped t + Z.of_nat (length files) - Z.of_nat (length kept).
Proof.
  induction files as [|f files IH]; intros t st t1 st1 H; simpl in H.
  - injection H as <- <-. exists []. rewrite app_nil_r.
    split; [constructor|]. split; [reflexivity|]. simpl. split; lia.
  - unfold bind in H.
    destruct (sync_file c args b prefix t f st) as [[t'|e] st'] eqn:Hf; [|discriminate].
    apply sync_file_ok in Hf as (_ & _ & Hstep & _).
    apply IH in H as (kept & Hsub & Ha & Hu & Hs).
    destruct Hstep as [(Ha' & Hu' & Hs') | (Ha' & Hu' & Hs')].
    + exists (f :: kept). split; [now apply sublist_skip|].
      rewrite Ha, Ha', <- app_assoc. simpl length. split; [reflexivity|]. split; lia.
    + exists kept. split; [now apply sublist_cons|].
      rewrite Ha, Ha'. simpl length. split; [reflexivity|]. split; lia.
Qed.

(** X18. The action list of a run that reports is ordered: first the
    upload records of the uploaded files, in scan order (the uploaded
    files are a sublist of the scanned files, and their number is the
    uploaded counter); then, with the delete flag, the deletion records of
    the keys listed once the first loop is over that are not local keys,
    in listing order. *)
Theorem actions_are_uploads_then_deletions h args st r st' bucket prefix :
  sync h args st = (Ok (Some r), st') ->
  parse_s3_uri (Args.s3_uri args) = Ok (bucket, prefix) ->
  let files := yielded (iter_files h (resolve h (Args.local_dir args))
                          (Args.exclude args)) in
  exists kept t1 st1,
    for_each (sync_file (s3_client h (Args.profile args) (Args.region args))
                args bucket prefix) files tally0 st = (Ok t1, st1)
    /\ kept `sublist_of` files
    /\ report_actions r
       = map (fun f => upload_record bucket (key_of prefix f) (FileItem.path f)
                         (Args.dry_run args)) kept
         ++ map (fun k => delete_record bucket k (Args.dry_run args))
              (if Args.delete args
               then filter (fun k => k ∉ local_keys prefix files)
                      (Boto.matching_keys (objects st1) bucket (list_prefix_of prefix))
               else [])
    /\ report_uploaded r = Z.of_nat (length kept)
    /\ report_skipped r = Z.of_nat (length files) - Z.of_nat (length kept).
Proof.
  intros Hs Hp files.
  destruct (sync_ok_inv _ _ _ _ _ Hs)
    as (_ & _ & _ & _ & b & p & t1 & st1 & t2 & Hp' & Hloop & Hdel & Hact & _ & _
        & Hu & Hsk & _).
  rewrite Hp in Hp'. injection Hp' as <- <-.
  pose proof (upload_loop_ok _ _ _ _ _ _ _ _ _ Hloop) as (Hkeys & _).
  pose proof (upload_loop_order _ _ _ _ _ _ _ _ _ Hloop) as (kept & Hsub & Ha1 & Hu1 & Hs1).
  apply delete_phase_ok in Hdel as (Ha2 & _ & Hu2 & Hs2 & _).
  assert (Hk1 : local_key_set t1 = local_keys prefix files)
    by (rewrite Hkeys; apply (right_id_L ∅ (∪))).
  exists kept, t1, st1.
  split; [exact Hloop|]. split; [exact Hsub|].
  split; [rewrite Hact, Ha2, Ha1, Hk1; reflexivity|].
  split; [rewrite Hu, Hu2, Hu1; simpl; lia|].
  rewrite Hsk, Hs2, Hs1. simpl. fold files. lia.
Qed.

(** ** Failures after the uploads *)

(** X19. Nothing is rolled back: when the first loop has gone through and
    the listing of the deletion phase then fails, [main] logs that failure
    and returns [EXIT_ERROR] without a report, and the remote store keeps
    every object the first loop has put. *)
Theorem failed_listing_keeps_the_uploads h args st bucket prefix t1 st1 e :
  let client := s3_client h (Args.profile args) (Args.region args) in
  validate_creds h (Args.profile args) = Ok tt ->
  Args.cmd args = "sync" ->
  path_exists h (resolve h (Args.local_dir args)) = true ->
  path_is_dir h (resolve h (Args.local_dir args)) = true ->
  parse_s3_uri (Args.s3_uri args) = Ok (bucket, prefix) ->
  for_gen (sync_file client args bucket prefix)
    (iter_files h (resolve h (Args.local_dir args)) (Args.exclude args)) tally0 st
  = (Ok t1, st1) ->
  Args.delete args = true ->
  fault client (OpList bucket (list_prefix_of prefix)) = Some e ->
  main h args st
  = ({| exit_code := EXIT_ERROR; printed := None; logged_error := Some (exn_str e) |},
     Boto.record_call (OpList bucket (list_prefix_of prefix)) st1)
  /\ objects (snd (main h args st)) = objects st1
  /\ (Args.dry_run args = false ->
      forall a, a ∈ actions t1 ->
        exists k, action_key a = Some (VStr k)
                  /\ is_Some (objects (snd (main h args st)) !! (bucket, k))).
Proof.
  intros client Hv Hc He Hd Hp Hloop Hdel Hfault.
  assert (Hs : sync h args st
               = (Raise e, Boto.record_call (OpList bucket (list_prefix_of prefix)) st1)).
  { unfold sync, bind, lift, raise, ret. rewrite Hv, Hc, String.eqb_refl, He, Hd, Hp.
    cbn [negb orb]. cbv beta iota. fold client. rewrite Hloop.
    unfold delete_phase. fold (list_prefix_of prefix). rewrite Hdel.
    unfold bind. rewrite list_objects_keys_run, Hfault. reflexivity. }
  rewrite (main_aborted _ _ _ _ _ Hs). split; [reflexivity|]. split; [reflexivity|].
  intros Hdry a Ha. cbn [snd objects Boto.record_call].
  apply for_gen_ok in Hloop as [_ Hloop].
  pose proof (upload_loop_present _ _ _ _ _ _ _ _ _ Hloop Hdry) as Hpresent.
  apply upload_loop_ok in Hloop as (_ & _ & (ups & Haups & _ & _ & Hups) & _).
  simpl in Haups. rewrite Haups in Ha. rewrite Forall_forall in Hups.
  destruct (Hups a Ha) as (f & Hf & ->). exists (key_of prefix f).
  split; [reflexivity|]. now apply Hpresent.
Qed.

(** X23. A scan that fails: when [stat()] raises on a scanned entry that
    is neither a directory nor excluded, the loop body has run on the
    files yielded before it; if it got through them, [main] logs what
    [stat()] raised and returns [EXIT_ERROR] without a report. The run has
    issued head lookups and puts only (the deletion phase is not reached),
    no object was removed, and nothing is rolled back: in a live run the
    key of each upload recorded so far holds an object. *)
Theorem failed_scan_aborts_after_the_yielded_files h args st bucket prefix e t1 st1 :
  let client := s3_client h (Args.profile args) (Args.region args) in
  let scan := iter_files h (resolve h (Args.local_dir args)) (Args.exclude args) in
  validate_creds h (Args.profile args) = Ok tt ->
  Args.cmd args = "sync" ->
  path_exists h (resolve h (Args.local_dir args)) = true ->
  path_is_dir h (resolve h (Args.local_dir args)) = true ->
  parse_s3_uri (Args.s3_uri args) = Ok (bucket, prefix) ->
  failure scan = Some e ->
  for_each (sync_file client args bucket prefix) (yielded scan) tally0 st = (Ok t1, st1) ->
  main h args st
  = ({| exit_code := EXIT_ERROR; printed := None; logged_error := Some (exn_str e) |}, st1)
  /\ (exists l, calls st1 = calls st ++ l
                /\ Forall (fun op => is_head op = true
                                      \/ exists k, op = OpPut bucket k) l)
  /\ (forall b k, is_Some (objects st !! (b, k)) -> is_Some (objects st1 !! (b, k)))
  /\ (Args.dry_run args = false ->
      forall a, a ∈ actions t1 ->
        exists k, action_key a = Some (VStr k) /\ is_Some (objects st1 !! (bucket, k))).
Proof.
  intros client scan Hv Hc He Hd Hp Hfail Hloop.
  assert (Hs : sync h args st = (Raise e, st1)).
  { rewrite (sync_staged h args st bucket prefix Hv Hc He Hd Hp), for_gen_run.
    fold client scan. now rewrite Hloop, Hfail. }
  rewrite (main_aborted _ _ _ _ _ Hs). split; [reflexivity|].
  set (P := fun op => is_head op = true \/ exists k, op = OpPut bucket k).
  assert (Heff : effect P st
            (snd (for_each (sync_file client args bucket prefix) (yielded scan) tally0 st))).
  { apply (for_each_effect _ (fun _ => True)); [|exact I].
    intros acc f s _ _. split; [|auto].
    apply effect_sync_file; [now left|intros _; right; eauto]. }
  rewrite Hloop in Heff. cbn [snd] in Heff. destruct Heff as (Hcalls & _ & Hkeep).
  split; [exact Hcalls|]. split.
  - intros b k. apply Hkeep. intros [Hh | (k' & Hk')]; discriminate.
  - intros Hdry a Ha.
    pose proof (upload_loop_present _ _ _ _ _ _ _ _ _ Hloop Hdry) as Hpresent.
    apply upload_loop_ok in Hloop as (_ & _ & (ups & Haups & _ & _ & Hups) & _).
    simpl in Haups. rewrite Haups in Ha. rewrite Forall_forall in Hups.
    destruct (Hups a Ha) as (f & Hf & ->). exists (key_of prefix f).
    split; [reflexivity|]. now apply Hpresent.
Qed.

(** ** Deleting and looking up *)

(** X20. After a live [delete_object] that went through, the key holds no
    object, every other key holds what it held, and a head lookup of the
    key reports it absent (unless the lookup itself fails), so a file under
    that key is planned for upload. *)
Theorem delete_then_head_reports_absent c bucket key st a st' :
  delete_object c bucket key false st = (Ok a, st') ->
  a = delete_record bucket key false
  /\ objects st' !! (bucket, key) = None
  /\ (forall b k, (b, k) <> (bucket, key) ->
                  objects st' !! (b, k) = objects st !! (b, k))
  /\ calls st' = calls st ++ [OpDelete bucket key]
  /\ (fault c (OpHead bucket key) = None ->
      fst (head_object_etag_size_mtime c bucket key st') = Ok None).
Proof.
  intros H. pose proof (delete_ok _ _ _ _ _ _ _ H) as ->.
  rewrite delete_live in H. destruct (fault c (OpDelete bucket key)); [discriminate|].
  injection H as <-. split; [reflexivity|]. cbn [objects calls].
  split; [apply lookup_delete_eq|].
  split; [intros b k Hne; apply lookup_delete_ne; congruence|].
  split; [reflexivity|].
  intros Hf. rewrite (head_absent _ _ _ _ Hf); [reflexivity|]. apply lookup_delete_eq.
Qed.

(** ** The text report *)

Lemma parse_s3_uri_bucket uri bucket prefix :
  parse_s3_uri uri = Ok (bucket, prefix) ->
  PyStr.truthy bucket = true /\ has_char "/" bucket = false.
Proof.
  unfold parse_s3_uri.
  destruct (PyStr.startswith uri "s3://"); cbn [negb]; [|discriminate].
  destruct (split1_spec "/" (PyStr.drop 5 uri)) as [Hno _].
  destruct (PyStr.split1 "/" (PyStr.drop 5 uri)) as [hd tl]. cbn [fst snd] in *.
  destruct (PyStr.truthy hd) eqn:Hb; cbn [negb]; [|discriminate].
  now intros [= <- <-].
Qed.

Lemma parse_s3_uri_format bucket tail :
  PyStr.truthy bucket = true ->
  has_char "/" bucket = false ->
  parse_s3_uri ("s3://" +:+ bucket +:+ "/" +:+ tail) = Ok (bucket, PyStr.strip "/" tail).
Proof.
  intros Ht Hno. destruct (split1_app "/" bucket tail Hno) as [Hsp _].
  unfold parse_s3_uri. change ("s3://" +:+ bucket +:+ "/" +:+ tail) with
    (String "s" (String "3" (String ":" (String "/" (String "/"
       (bucket +:+ String "/" tail)))))).
  cbn [PyStr.startswith PyStr.drop Ascii.eqb Bool.eqb negb andb].
  rewrite Hsp, startswith_empty. cbn [fst snd]. now rewrite Ht.
Qed.

(** X21. Without the JSON flag, a run that reports prints two lines. The
    first is ["SYNC -> "] followed by a location that [parse_s3_uri] reads
    back as the bucket and prefix of the run; the second gives the three
    counters, each written as a string of digits, and the dry-run flag as
    [True] or [False]. *)
Theorem text_report_lines h args st r st' bucket prefix :
  sync h args st = (Ok (Some r), st') ->
  parse_s3_uri (Args.s3_uri args) = Ok (bucket, prefix) ->
  Args.json args = false ->
  exists location u s d,
    printed (fst (main h args st))
    = Some (PrintedText
              [ "SYNC -> " +:+ location;
                "uploaded=" +:+ u +:+ " skipped=" +:+ s +:+ " deleted=" +:+ d
                +:+ " dry_run=" +:+ (if Args.dry_run args then "True" else "False") ])
    /\ parse_s3_uri location = Ok (bucket, prefix)
    /\ PyStr.isdigit u = true /\ PyStr.int_of_str u = Some (report_uploaded r)
    /\ PyStr.isdigit s = true /\ PyStr.int_of_str s = Some (report_skipped r)
    /\ PyStr.isdigit d = true /\ PyStr.int_of_str d = Some (report_deleted r).
Proof.
  intros Hs Hp Hjson.
  destruct (sync_ok_inv _ _ _ _ _ Hs)
    as (_ & _ & _ & _ & b & p & t1 & st1 & t2 & Hp' & Hloop & Hdel & _ & Hb & Hpre
        & Hu & Hsk & Hd & _).
  rewrite Hp in Hp'. injection Hp' as <- <-.
  pose proof (upload_loop_skipped _ _ _ _ _ _ _ _ _ Hloop) as Hsk1.
  apply upload_loop_ok in Hloop as (_ & Hd1 & (ups & _ & Hu1 & _ & _) & _).
  apply delete_phase_ok in Hdel as (_ & Hd2 & Hu2 & Hs2 & _).
  simpl in Hu1, Hd1, Hsk1.
  assert (H0u : 0 <= report_uploaded r) by lia.
  assert (H0s : 0 <= report_skipped r) by lia.
  assert (H0d : 0 <= report_deleted r) by lia.
  destruct (int_of_str_of_int _ H0u) as [Hdu Hiu].
  destruct (int_of_str_of_int _ H0s) as [Hds His].
  destruct (int_of_str_of_int _ H0d) as [Hdd Hid].
  exists ("s3://" +:+ bucket +:+ "/" +:+ prefix),
         (PyStr.str_of_int (report_uploaded r)), (PyStr.str_of_int (report_skipped r)),
         (PyStr.str_of_int (report_deleted r)).
  split.
  { unfold main. rewrite Hs, Hjson, Hb, Hpre. cbn [fst printed]. unfold str_of_bool.
    reflexivity. }
  split.
  { destruct (parse_s3_uri_bucket _ _ _ Hp) as [Ht Hno].
    rewrite (parse_s3_uri_format _ _ Ht Hno). f_equal. f_equal.
    now apply parse_s3_uri_prefix in Hp. }
  repeat split; assumption.
Qed.

(** * The further properties at the example scenario *)

Lemma parse_s3_uri_accepts_at_demo :
  has_char "/" "bkt" = false /\ last_char "pre/fix" <> Some "/"%char.
Proof.
  destruct (parse_s3_uri_accepts "s3://bkt/pre/fix//" "bkt" "pre/fix" eq_refl)
    as (_ & _ & Hb & _ & Hl & _).
  split; [exact Hb|exact Hl].
Defined.

Lemma parse_s3_uri_round_trip_at_demo :
  parse_s3_uri "s3://bkt/backups/2024/" = Ok ("bkt", "backups/2024").
Proof.
  destruct (parse_s3_uri_round_trip "bkt" "backups/2024/") as (_ & H & _).
  - discriminate.
  - reflexivity.
  - exact H.
Defined.

Lemma parsed_prefix_keys_are_listed_at_demo :
  join_s3_key "pre/fix" "a/b.txt" = list_prefix_of "pre/fix" +:+ "a/b.txt".
Proof.
  destruct (parsed_prefix_keys_are_listed "s3://bkt/pre/fix//" "bkt" "pre/fix" "a/b.txt"
              eq_refl) as [H _].
  exact H.
Defined.

Lemma report_counters_at_demo :
  exists r st',
    sync Demo.host Demo.args Demo.remote = (Ok (Some r), st')
    /\ report_uploaded r + report_skipped r = 1
    /\ Z.of_nat (length (report_actions r)) = report_uploaded r + report_deleted r.
Proof.
  destruct (sync Demo.host Demo.args Demo.remote) as [[[r|]|e] st'] eqn:Hs;
    [|vm_compute in Hs; discriminate..].
  exists r, st'. split; [reflexivity|].
  destruct (report_counters _ _ _ _ _ Hs) as (H1 & H2 & _).
  split; [exact H1|exact H2].
Defined.

Lemma credential_failure_aborts_at_demo :
  main (Demo.host_with (Some (NoCredentialsError "Unable to locate credentials"))
          (fun _ => false) Demo.access_denied)
       Demo.args Demo.remote
  = ({| exit_code := EXIT_ERROR; printed := None;
        logged_error :=
          Some "AWS credentials/profile error: Unable to locate credentials" |},
     Demo.remote).
Proof.
  destruct (credential_failure_aborts
              (Demo.host_with (Some (NoCredentialsError "Unable to locate credentials"))
                 (fun _ => false) Demo.access_denied)
              Demo.args Demo.remote
              (NoCredentialsError "Unable to locate credentials") eq_refl)
    as (e & Hv & _ & Hmain & _).
  injection Hv as <-. exact Hmain.
Defined.

Lemma invalid_uri_fails_before_any_remote_call_at_demo :
  snd (main Demo.host (Demo.args_with "bkt/prefix" false true) Demo.remote) = Demo.remote
  /\ exit_code (fst (main Demo.host (Demo.args_with "bkt/prefix" false true) Demo.remote))
     = EXIT_ERROR.
Proof.
  destruct (invalid_uri_fails_before_any_remote_call Demo.host
              (Demo.args_with "bkt/prefix" false true) Demo.remote
              (ValueError "s3_uri must start with s3://bucket/prefix") eq_refl)
    as (H1 & H2 & _).
  split; [exact H1|exact H2].
Defined.

Lemma negative_mtime_uploads_again_at_demo :
  exists st1 t' st2,
    upload_file Demo.client "bkt" "old.dat" "/data/old.dat" (-86400) false Demo.remote
    = (Ok (upload_record "bkt" "old.dat" "/data/old.dat" false), st1)
    /\ sync_file Demo.client Demo.args "bkt" "" tally0 Demo.file_old st1 = (Ok t', st2)
    /\ planned_upload Demo.args "bkt" "old.dat" Demo.file_old tally0 t'.
Proof.
  destruct (negative_mtime_uploads_again Demo.client Demo.args "bkt" "" tally0
              Demo.file_old Demo.remote)
    as (st1 & Hup & _ & t' & st2 & Hrun & Hplan).
  - reflexivity.
  - reflexivity.
  - reflexivity.
  - reflexivity.
  - reflexivity.
  - exists st1, t', st2. split; [exact Hup|]. split; [exact Hrun|exact Hplan].
Defined.

Lemma run_touches_only_its_target_at_demo :
  objects (snd (main Demo.host Demo.args Demo.remote)) !! ("other", "a.txt")
  = objects Demo.remote !! ("other", "a.txt").
Proof.
  destruct (run_touches_only_its_target Demo.host Demo.args Demo.remote "bkt" "" eq_refl)
    as [H _].
  apply H. left. discriminate.
Defined.

Lemma no_delete_flag_removes_nothing_at_demo :
  is_Some (objects (snd (main Demo.host (Demo.args_with "s3://bkt" false false)
                           Demo.remote)) !! ("bkt", "old.txt")).
Proof.
  destruct (no_delete_flag_removes_nothing Demo.host
              (Demo.args_with "s3://bkt" false false) Demo.remote eq_refl) as [H _].
  apply H. eexists. vm_compute. reflexivity.
Defined.

Lemma puts_and_deletes_never_meet_at_demo :
  is_Some (objects (snd (main Demo.host Demo.args Demo.remote)) !! ("bkt", "a.txt")).
Proof.
  destruct (puts_and_deletes_never_meet Demo.host Demo.args Demo.remote "bkt" "" eq_refl)
    as [_ H].
  apply H; [vm_compute; reflexivity|]. eexists. vm_compute. reflexivity.
Defined.

Lemma calls_match_actions_at_demo :
  exists r st' l,
    sync Demo.host Demo.args (Demo.remote_two None) = (Ok (Some r), st')
    /\ calls st' = calls (Demo.remote_two None) ++ l
    /\ filter (fun op => is_mutation op = true) l = omap action_call (report_actions r).
Proof.
  destruct (sync Demo.host Demo.args (Demo.remote_two None)) as [[[r|]|e] st'] eqn:Hs;
    [|vm_compute in Hs; discriminate..].
  destruct (calls_match_actions Demo.host Demo.args (Demo.remote_two None) r st'
              "bkt" "" Hs eq_refl) as (l & Hc & _ & _ & Hm).
  exists r, st', l. split; [reflexivity|]. split; [exact Hc|exact Hm].
Defined.

Lemma live_delete_run_mirrors_the_scan_at_demo :
  exists r st',
    sync Demo.host Demo.args Demo.remote = (Ok (Some r), st')
    /\ objects st' !! ("bkt", "old.txt") = None.
Proof.
  destruct (sync Demo.host Demo.args Demo.remote) as [[[r|]|e] st'] eqn:Hs;
    [|vm_compute in Hs; discriminate..].
  exists r, st'. split; [reflexivity|].
  pose proof (live_delete_run_mirrors_the_scan Demo.host Demo.args Demo.remote r st'
                "bkt" "" Hs eq_refl eq_refl eq_refl "old.txt") as [Hto _].
  destruct (objects st' !! ("bkt", "old.txt")) as [o|] eqn:Ho; [|reflexivity].
  exfalso. assert (Hin : "old.txt" ∈ local_keys ""
                           (yielded (iter_files Demo.host
                                       (resolve Demo.host (Args.local_dir Demo.args))
                                       (Args.exclude Demo.args))))
    by (apply Hto; split; [eauto|reflexivity]).
  vm_compute in Hin. discriminate.
Defined.

Lemma second_run_is_a_no_op_at_demo :
  exists r1 st1 r2 st2,
    sync Demo.host Demo.args Demo.remote = (Ok (Some r1), st1)
    /\ sync Demo.host Demo.args st1 = (Ok (Some r2), st2)
    /\ report_actions r2 = []
    /\ objects st2 = objects st1.
Proof.
  destruct (sync Demo.host Demo.args Demo.remote) as [[[r1|]|e] st1] eqn:Hs;
    [|vm_compute in Hs; discriminate..].
  destruct (second_run_is_a_no_op Demo.host Demo.args Demo.remote "bkt" "" r1 st1 Hs)
    as (r2 & st2 & H2 & Ha & _ & _ & _ & Ho).
  - intros op. reflexivity.
  - reflexivity.
  - reflexivity.
  - vm_compute. apply NoDup_singleton.
  - intros f Hf. change (f ∈ [Demo.file_a]) in Hf.
    apply list_elem_of_singleton in Hf as ->. split; [simpl; lia|reflexivity].
  - exists r1, st1, r2, st2. repeat split; assumption.
Defined.

Lemma dry_run_previews_live_run_at_demo :
  exists rd sd rl sl,
    sync Demo.host (with_dry_run Demo.args true) Demo.remote = (Ok (Some rd), sd)
    /\ sync Demo.host (with_dry_run Demo.args false) Demo.remote = (Ok (Some rl), sl)
    /\ report_uploaded rd = report_uploaded rl
    /\ report_deleted rd = report_deleted rl.
Proof.
  destruct (dry_run_previews_live_run Demo.host Demo.args Demo.remote "bkt" "")
    as [(e & sd & sl & H1 & _) | (rd & sd & rl & sl & H1 & H2 & Hu & _ & Hd & _)].
  - intros op. reflexivity.
  - reflexivity.
  - reflexivity.
  - reflexivity.
  - reflexivity.
  - reflexivity.
  - vm_compute. apply NoDup_singleton.
  - vm_compute in H1. discriminate.
  - exists rd, sd, rl, sl. repeat split; assumption.
Defined.

Lemma actions_are_uploads_then_deletions_at_demo :
  exists r st' (kept : list FileItem.t),
    sync Demo.host Demo.args (Demo.remote_two None) = (Ok (Some r), st')
    /\ report_uploaded r = Z.of_nat (length kept).
Proof.
  destruct (sync Demo.host Demo.args (Demo.remote_two None)) as [[[r|]|e] st'] eqn:Hs;
    [|vm_compute in Hs; discriminate..].
  destruct (actions_are_uploads_then_deletions Demo.host Demo.args (Demo.remote_two None)
              r st' "bkt" "" Hs eq_refl) as (kept & t1 & st1 & _ & _ & _ & Hu & _).
  exists r, st', kept. split; [reflexivity|exact Hu].
Defined.

Lemma failed_listing_keeps_the_uploads_at_demo :
  exit_code (fst (main (Demo.host_with None is_list Demo.access_denied) Demo.args
                    (Demo.remote_two None))) = EXIT_ERROR
  /\ is_Some (objects (snd (main (Demo.host_with None is_list Demo.access_denied)
                              Demo.args (Demo.remote_two None)))
             !! ("bkt", "a.txt")).
Proof.
  set (h := Demo.host_with None is_list Demo.access_denied).
  destruct (for_gen (sync_file (s3_client h None "ap-southeast-2") Demo.args "bkt" "")
              (iter_files h "/data" ["*.log"]) tally0 (Demo.remote_two None))
    as [[t1|e] st1] eqn:Hloop; [|vm_compute in Hloop; discriminate].
  destruct (failed_listing_keeps_the_uploads h Demo.args (Demo.remote_two None)
              "bkt" "" t1 st1 Demo.access_denied eq_refl eq_refl eq_refl eq_refl eq_refl
              Hloop eq_refl eq_refl) as (Hmain & Hobj & _).
  split; [now rewrite Hmain|].
  rewrite Hobj.
  assert (Hsome : is_Some (objects (snd (for_gen
              (sync_file (s3_client h None "ap-southeast-2") Demo.args "bkt" "")
              (iter_files h "/data" ["*.log"]) tally0 (Demo.remote_two None)))
            !! ("bkt", "a.txt"))) by (eexists; vm_compute; reflexivity).
  now rewrite Hloop in Hsome.
Defined.

Lemma failed_scan_aborts_after_the_yielded_files_at_demo :
  main (Demo.host_scanning [Demo.entry_a; Demo.entry_link; Demo.entry_b]) Demo.args
    (Demo.remote_two None)
  = ({| exit_code := EXIT_ERROR; printed := None;
        logged_error := Some "[Errno 2] No such file or directory: '/data/link'" |},
     {| objects := <[("bkt", "a.txt") := uploaded_object Demo.client "/data/a.txt" 1000]>
                     (objects (Demo.remote_two None));
        calls := [OpHead "bkt" "a.txt"; OpPut "bkt" "a.txt"] |}).
Proof.
  destruct (failed_scan_aborts_after_the_yielded_files
              (Demo.host_scanning [Demo.entry_a; Demo.entry_link; Demo.entry_b])
              Demo.args (Demo.remote_two None) "bkt" "" Demo.no_such_file
              {| actions := [upload_record "bkt" "a.txt" "/data/a.txt" false];
                 uploaded := 1; skipped := 0; deleted := 0;
                 local_key_set := {[ "a.txt" ]} ∪ ∅ |}
              {| objects := <[("bkt", "a.txt")
                              := uploaded_object Demo.client "/data/a.txt" 1000]>
                              (objects (Demo.remote_two None));
                 calls := [OpHead "bkt" "a.txt"; OpPut "bkt" "a.txt"] |})
    as (Hmain & _).
  - reflexivity.
  - reflexivity.
  - reflexivity.
  - reflexivity.
  - reflexivity.
  - reflexivity.
  - reflexivity.
  - exact Hmain.
Defined.

Lemma delete_then_head_reports_absent_at_demo :
  exists a st',
    delete_object Demo.client "bkt" "old.txt" false Demo.remote = (Ok a, st')
    /\ objects st' !! ("bkt", "old.txt") = None
    /\ fst (head_object_etag_size_mtime Demo.client "bkt" "old.txt" st') = Ok None.
Proof.
  destruct (delete_object Demo.client "bkt" "old.txt" false Demo.remote)
    as [[a|e] st'] eqn:Hd; [|vm_compute in Hd; discriminate].
  destruct (delete_then_head_reports_absent _ _ _ _ _ _ Hd) as (_ & Hnone & _ & _ & Hhead).
  exists a, st'. split; [reflexivity|]. split; [exact Hnone|]. now apply Hhead.
Defined.

Lemma text_report_lines_at_demo :
  exists location,
    parse_s3_uri location = Ok ("bkt", "")
    /\ exists line2,
         printed (fst (main Demo.host
                         {| Args.profile := None; Args.region := "ap-southeast-2";
                            Args.json := false; Args.log_level := "INFO";
                            Args.cmd := "sync"; Args.local_dir := "/data";
                            Args.s3_uri := "s3://bkt"; Args.exclude := ["*.log"];
                            Args.dry_run := false; Args.delete := true;
                            Args.strategy := "size-mtime" |}
                         Demo.remote))
         = Some (PrintedText ["SYNC -> " +:+ location; line2]).
Proof.
  set (args := {| Args.profile := None; Args.region := "ap-southeast-2";
                  Args.json := false; Args.log_level := "INFO";
                  Args.cmd := "sync"; Args.local_dir := "/data";
                  Args.s3_uri := "s3://bkt"; Args.exclude := ["*.log"];
                  Args.dry_run := false; Args.delete := true;
                  Args.strategy := "size-mtime" |}).
  destruct (sync Demo.host args Demo.remote) as [[[r|]|e] st'] eqn:Hs;
    [|vm_compute in Hs; discriminate..].
  destruct (text_report_lines Demo.host args Demo.remote r st' "bkt" "" Hs eq_refl eq_refl)
    as (location & u & s & d & Hprint & Hparse & _).
  exists location. split; [exact Hparse|]. eexists. exact Hprint.
Defined.
